(** * A model of the multi-tenant notes backend

    The development embeds the request pipeline of the service (token
    authentication, tenant isolation, role and ownership checks, the note
    quota gate, note and tag operations, and the payment / subscription
    state machine) as pure functions over an explicit document store, and
    proves the properties of the specification about them.

    Conventions of the embedding:
    - a MongoDB collection is a finite map from [_id] to document
      ([gmap nat doc]); [save] of a loaded document writes it back under
      its [_id], [new Model(..).save()] inserts under a fresh [_id];
    - JavaScript numbers that hold counters, limits and millisecond
      timestamps are integers ([Z]);
    - strings are ASCII strings; [toLowerCase] and [trim] act on ASCII
      letters and ASCII white space;
    - everything the process reads from outside a request (secrets, the
      clock, the random generator, the payment gateway, the text index) is
      a field of the environment record [Env];
    - a handler is a function from the store to a response and a store. *)

From Stdlib Require Import ZArith String Ascii List Bool Lia.
From stdpp Require Import gmap strings list fin_maps pretty.

Set Warnings "-clear-no-such-hyp".
Local Open Scope Z_scope.

(** ** JavaScript string primitives *)

Module JS.

(** [String.prototype.toLowerCase], on ASCII letters. *)
Definition lower_ascii (c : ascii) : ascii :=
  let n := nat_of_ascii c in
  if ((65 <=? n)%nat && (n <=? 90)%nat)%bool then ascii_of_nat (n + 32) else c.

Fixpoint toLowerCase (s : string) : string :=
  match s with
  | EmptyString => EmptyString
  | String c r => String (lower_ascii c) (toLowerCase r)
  end.

Fixpoint trimStart (s : string) : string :=
  match s with
  | EmptyString => EmptyString
  | String c r => if Ascii.is_space c then trimStart r else s
  end.

Definition trimEnd (s : string) : string :=
  String.rev (trimStart (String.rev s)).

(** [String.prototype.trim]. *)
Definition trim (s : string) : string := trimEnd (trimStart s).

(** Truthiness of a string value: the empty string is falsy. *)
Definition truthy (s : string) : bool :=
  match s with EmptyString => false | _ => true end.

(** [s.length]. *)
Definition length (s : string) : Z := Z.of_nat (String.length s).

End JS.

(** ** utils/constants.js *)

Inductive Plan := FREE | PRO.
Inductive RoleName := ADMIN | MEMBER.
Inductive PaymentStatus := PENDING | SUCCESS | FAILED | REFUNDED.
Inductive SubscriptionStatus := active | inactive | cancelled | expired.

#[global] Instance Plan_eq_dec : EqDecision Plan.
Proof. solve_decision. Defined.
#[global] Instance RoleName_eq_dec : EqDecision RoleName.
Proof. solve_decision. Defined.
#[global] Instance PaymentStatus_eq_dec : EqDecision PaymentStatus.
Proof. solve_decision. Defined.
#[global] Instance SubscriptionStatus_eq_dec : EqDecision SubscriptionStatus.
Proof. solve_decision. Defined.

Record Limits := { maxNotes : Z }.

(** [SUBSCRIPTION_LIMITS], a table indexed by plan name. *)
Definition SUBSCRIPTION_LIMITS (p : Plan) : option Limits :=
  match p with
  | FREE => Some {| maxNotes := 20 |}
  | PRO => Some {| maxNotes := -1 |}
  end.

(** ** Documents *)

(** models/Account.js *)
Module Account.
Record doc := {
  slug : string;
  plan : Plan;
  limit : Z;
  noteCount : Z;
  currentSubscription : option nat;
  isActive : bool;
  isDeleted : bool
}.

(** Schema defaults: [plan] free, [limit] 3 ("Free plan limit"),
    [noteCount] 0, no subscription, active, not deleted. *)
Definition default_limit : Z := 3.

Definition set_plan (p : Plan) (a : doc) : doc :=
  {| slug := slug a; plan := p; limit := limit a; noteCount := noteCount a;
     currentSubscription := currentSubscription a;
     isActive := isActive a; isDeleted := isDeleted a |}.
Definition set_limit (l : Z) (a : doc) : doc :=
  {| slug := slug a; plan := plan a; limit := l; noteCount := noteCount a;
     currentSubscription := currentSubscription a;
     isActive := isActive a; isDeleted := isDeleted a |}.
Definition set_noteCount (n : Z) (a : doc) : doc :=
  {| slug := slug a; plan := plan a; limit := limit a; noteCount := n;
     currentSubscription := currentSubscription a;
     isActive := isActive a; isDeleted := isDeleted a |}.
Definition set_currentSubscription (s : option nat) (a : doc) : doc :=
  {| slug := slug a; plan := plan a; limit := limit a; noteCount := noteCount a;
     currentSubscription := s;
     isActive := isActive a; isDeleted := isDeleted a |}.

(** The virtual [canCreateNote]. *)
Definition canCreateNote (a : doc) : bool :=
  if decide (plan a = PRO) then true else noteCount a <? limit a.
End Account.

(** models/Role.js *)
Module Role.
Record doc := { account : nat; roleName : RoleName }.
End Role.

(** models/User.js. The stored [password] is the hash produced by the
    pre-save hook. *)
Module User.
Record doc := {
  account : nat;
  email : string;
  password : string;
  name : string;
  role : nat;
  isActive : bool;
  isDeleted : bool;
  tokensInvalidBefore : Z;
  lastLogin : option Z;
  lastIP : option string
}.

Definition set_password (p : string) (u : doc) : doc :=
  {| account := account u; email := email u; password := p; name := name u;
     role := role u; isActive := isActive u; isDeleted := isDeleted u;
     tokensInvalidBefore := tokensInvalidBefore u;
     lastLogin := lastLogin u; lastIP := lastIP u |}.
Definition set_tokensInvalidBefore (t : Z) (u : doc) : doc :=
  {| account := account u; email := email u; password := password u;
     name := name u; role := role u; isActive := isActive u;
     isDeleted := isDeleted u; tokensInvalidBefore := t;
     lastLogin := lastLogin u; lastIP := lastIP u |}.
Definition set_lastLogin (t : Z) (u : doc) : doc :=
  {| account := account u; email := email u; password := password u;
     name := name u; role := role u; isActive := isActive u;
     isDeleted := isDeleted u; tokensInvalidBefore := tokensInvalidBefore u;
     lastLogin := Some t; lastIP := lastIP u |}.
Definition set_lastIP (ip : option string) (u : doc) : doc :=
  {| account := account u; email := email u; password := password u;
     name := name u; role := role u; isActive := isActive u;
     isDeleted := isDeleted u; tokensInvalidBefore := tokensInvalidBefore u;
     lastLogin := lastLogin u; lastIP := ip |}.
End User.

(** models/Tag.js *)
Module Tag.
Record doc := { account : nat; tagName : string }.
End Tag.

(** models/Note.js *)
Module Note.
Record doc := {
  account : nat;
  user : nat;
  title : string;
  description : string;
  tags : list nat;
  isDeleted : bool;
  createdAt : Z
}.

Definition set_title (t : string) (n : doc) : doc :=
  {| account := account n; user := user n; title := t;
     description := description n; tags := tags n;
     isDeleted := isDeleted n; createdAt := createdAt n |}.
Definition set_description (d : string) (n : doc) : doc :=
  {| account := account n; user := user n; title := title n;
     description := d; tags := tags n;
     isDeleted := isDeleted n; createdAt := createdAt n |}.
Definition set_tags (l : list nat) (n : doc) : doc :=
  {| account := account n; user := user n; title := title n;
     description := description n; tags := l;
     isDeleted := isDeleted n; createdAt := createdAt n |}.
Definition set_isDeleted (b : bool) (n : doc) : doc :=
  {| account := account n; user := user n; title := title n;
     description := description n; tags := tags n;
     isDeleted := b; createdAt := createdAt n |}.

(** Schema validators run by [save]: [title] is required (a string that
    is empty after trimming fails) and at most 200 characters,
    [description] at most 10000. *)
Definition valid (n : doc) : bool :=
  JS.truthy (title n) && (JS.length (title n) <=? 200)
  && (JS.length (description n) <=? 10000).
End Note.

(** models/Subscription.js *)
Module Subscription.
Record doc := {
  account : nat;
  plan : Plan;
  status : SubscriptionStatus;
  startDate : Z;
  endDate : option Z;
  cancelledAt : option Z
}.

(** The in-memory part of the [cancel] method; the caller saves. *)
Definition cancel (now : Z) (s : doc) : doc :=
  {| account := account s; plan := plan s; status := cancelled;
     startDate := startDate s; endDate := endDate s;
     cancelledAt := Some now |}.
End Subscription.

(** models/Payment.js *)
Module Payment.
Record doc := {
  account : nat;
  subscription : option nat;
  razorpayPaymentId : option string;
  razorpayOrderId : string;
  amount : Z;
  currency : string;
  status : PaymentStatus;
  method : option string;
  errorDescription : option string;
  createdAt : Z
}.

Definition set_subscription (s : option nat) (p : doc) : doc :=
  {| account := account p; subscription := s;
     razorpayPaymentId := razorpayPaymentId p;
     razorpayOrderId := razorpayOrderId p; amount := amount p;
     currency := currency p; status := status p; method := method p;
     errorDescription := errorDescription p; createdAt := createdAt p |}.
Definition set_razorpayPaymentId (i : option string) (p : doc) : doc :=
  {| account := account p; subscription := subscription p;
     razorpayPaymentId := i;
     razorpayOrderId := razorpayOrderId p; amount := amount p;
     currency := currency p; status := status p; method := method p;
     errorDescription := errorDescription p; createdAt := createdAt p |}.
Definition set_status (s : PaymentStatus) (p : doc) : doc :=
  {| account := account p; subscription := subscription p;
     razorpayPaymentId := razorpayPaymentId p;
     razorpayOrderId := razorpayOrderId p; amount := amount p;
     currency := currency p; status := s; method := method p;
     errorDescription := errorDescription p; createdAt := createdAt p |}.
Definition set_method (m : option string) (p : doc) : doc :=
  {| account := account p; subscription := subscription p;
     razorpayPaymentId := razorpayPaymentId p;
     razorpayOrderId := razorpayOrderId p; amount := amount p;
     currency := currency p; status := status p; method := m;
     errorDescription := errorDescription p; createdAt := createdAt p |}.
Definition set_errorDescription (e : option string) (p : doc) : doc :=
  {| account := account p; subscription := subscription p;
     razorpayPaymentId := razorpayPaymentId p;
     razorpayOrderId := razorpayOrderId p; amount := amount p;
     currency := currency p; status := status p; method := method p;
     errorDescription := e; createdAt := createdAt p |}.
End Payment.

(** ** The document store *)

Record Db := {
  accounts : gmap nat Account.doc;
  roles : gmap nat Role.doc;
  users : gmap nat User.doc;
  notes : gmap nat Note.doc;
  tags : gmap nat Tag.doc;
  subscriptions : gmap nat Subscription.doc;
  payments : gmap nat Payment.doc
}.

Definition set_accounts (c : gmap nat Account.doc) (db : Db) : Db :=
  {| accounts := c; roles := roles db; users := users db; notes := notes db;
     tags := tags db; subscriptions := subscriptions db;
     payments := payments db |}.
Definition set_roles (c : gmap nat Role.doc) (db : Db) : Db :=
  {| accounts := accounts db; roles := c; users := users db; notes := notes db;
     tags := tags db; subscriptions := subscriptions db;
     payments := payments db |}.
Definition set_users (c : gmap nat User.doc) (db : Db) : Db :=
  {| accounts := accounts db; roles := roles db; users := c; notes := notes db;
     tags := tags db; subscriptions := subscriptions db;
     payments := payments db |}.
Definition set_notes (c : gmap nat Note.doc) (db : Db) : Db :=
  {| accounts := accounts db; roles := roles db; users := users db; notes := c;
     tags := tags db; subscriptions := subscriptions db;
     payments := payments db |}.
Definition set_tags (c : gmap nat Tag.doc) (db : Db) : Db :=
  {| accounts := accounts db; roles := roles db; users := users db;
     notes := notes db; tags := c; subscriptions := subscriptions db;
     payments := payments db |}.
Definition set_subscriptions (c : gmap nat Subscription.doc) (db : Db) : Db :=
  {| accounts := accounts db; roles := roles db; users := users db;
     notes := notes db; tags := tags db; subscriptions := c;
     payments := payments db |}.
Definition set_payments (c : gmap nat Payment.doc) (db : Db) : Db :=
  {| accounts := accounts db; roles := roles db; users := users db;
     notes := notes db; tags := tags db; subscriptions := subscriptions db;
     payments := c |}.

Definition empty_db : Db :=
  {| accounts := ∅; roles := ∅; users := ∅; notes := ∅; tags := ∅;
     subscriptions := ∅; payments := ∅ |}.

(** Collection operations. A query is a boolean predicate on the [_id]
    and the document. [findOne] returns a matching document when there is
    one; which one, when several match, is fixed by the enumeration order
    of the map. *)
Module Store.
Section Collection.
Context {A : Type}.

Definition findOne (q : nat → A → bool) (c : gmap nat A) : option (nat * A) :=
  List.find (λ kv, q kv.1 kv.2) (map_to_list c).

Definition find (q : nat → A → bool) (c : gmap nat A) : list (nat * A) :=
  List.filter (λ kv, q kv.1 kv.2) (map_to_list c).

Definition countDocuments (q : nat → A → bool) (c : gmap nat A) : Z :=
  Z.of_nat (length (find q c)).

Definition findById (i : nat) (c : gmap nat A) : option (nat * A) :=
  match c !! i with Some d => Some (i, d) | None => None end.

(** The [_id] given to a new document: one no document of the
    collection has. *)
Definition newId (c : gmap nat A) : nat := fresh (dom c).

Definition create (d : A) (c : gmap nat A) : nat * gmap nat A :=
  (newId c, <[newId c := d]> c).

Definition save (i : nat) (d : A) (c : gmap nat A) : gmap nat A :=
  <[i := d]> c.

(** [sort]: a stable insertion sort; [before x y] holds when [x] may
    precede [y]. *)
Fixpoint insertSorted (before : nat * A → nat * A → bool) (x : nat * A)
    (l : list (nat * A)) : list (nat * A) :=
  match l with
  | [] => [x]
  | y :: r => if before x y then x :: l else y :: insertSorted before x r
  end.

Definition sortBy (before : nat * A → nat * A → bool) (l : list (nat * A))
  : list (nat * A) :=
  foldr (insertSorted before) [] l.
End Collection.
End Store.

(** ** The environment of a request *)

(** What [razorpay.payments.fetch] returns, as far as the code reads it. *)
Record GatewayPayment := { gp_method : option string }.

Record Env := {
  JWT_SECRET : string;
  (** [process.env.JWT_EXPIRE] as a number of seconds, when set. *)
  JWT_EXPIRE : option Z;
  RAZORPAY_KEY_ID : string;
  RAZORPAY_KEY_SECRET : string;
  (** [crypto.createHmac("sha256", key).update(body).digest("hex")]. *)
  hmac_sha256_hex : string → string → string;
  (** [bcrypt.hash(password, 12)] and [bcrypt.compare(password, hash)]. *)
  bcrypt_hash : string → string;
  bcrypt_compare : string → string → bool;
  (** [slugify(name, {lower, strict, remove})]. *)
  slugify : string → string;
  (** [generateRandomString(length)]. *)
  randomString : nat → string;
  (** The gateway: [orders.create] returns the order id, [payments.fetch]
      the payment; [None] is a gateway failure (the wrapper throws). *)
  orders_create : Z → string → string → option string;
  payments_fetch : string → option GatewayPayment;
  (** The text index: the score of a note for a search string, [None]
      when the note does not match. *)
  textScore : string → Note.doc → option Z;
  (** The clock: [clock k] is the millisecond time read at the [k]-th
      clock-reading site of the request, sites numbered in source order
      with the token check of [authenticate] as site 0. *)
  clock : nat → Z
}.

(** ** utils/helpers.js *)

(** A signed token: the payload, the issue and expiry times in seconds,
    and the secret whose signature it carries. *)
Record Token := {
  userId : nat;
  accountId : nat;
  role : RoleName;
  iat : Z;
  exp : Z;
  signedWith : string
}.

Inductive JwtError := JsonWebTokenError | TokenExpiredError.

Module Helpers.

Definition hashPassword (env : Env) (password : string) : string :=
  bcrypt_hash env password.

Definition comparePassword (env : Env) (password hash : string) : bool :=
  bcrypt_compare env password hash.

(** [jwt.sign(payload, secret, {expiresIn})] at time [now] (ms). The
    default lifetime is seven days. *)
Definition expiresIn (env : Env) : Z :=
  match JWT_EXPIRE env with Some s => s | None => 7 * 24 * 60 * 60 end.

Definition generateToken (env : Env) (now : Z) (uid aid : nat) (r : RoleName) : Token :=
  {| userId := uid; accountId := aid; role := r;
     iat := now / 1000; exp := now / 1000 + expiresIn env;
     signedWith := JWT_SECRET env |}.

(** [jwt.verify(token, secret)] at time [now] (ms). *)
Definition jwt_verify (secret : string) (now : Z) (t : Token) : JwtError + Token :=
  if negb (bool_decide (signedWith t = secret)) then inl JsonWebTokenError
  else if exp t <=? now / 1000 then inl TokenExpiredError
  else inr t.

Definition generateSlug (env : Env) (name : string) : string := slugify env name.

Definition generateRandomString (env : Env) (length : nat) : string :=
  randomString env length.

End Helpers.

(** ** Responses *)

(** A note as the note endpoints format it. *)
Record NoteView := {
  v_id : nat;
  v_title : string;
  v_description : string;
  v_tags : list string;
  (** [author]: id, name and email; absent in the update and my-notes
      formats. *)
  v_author : option (nat * string * string)
}.

Inductive Data :=
| NoData
| NoteData (note : NoteView)
| NotesData (notes : list NoteView) (page limit total : Z)
| LimitDetails (currentPlan : Plan) (noteCount maxNotes : Z) (upgradeRequired : bool)
| TokenData (token : Token)
| InviteData (email tempPassword : string)
| ProfileData (user : nat * User.doc) (account : nat * Account.doc)
| SubscriptionData (account : nat * Account.doc) (canCreateNote : bool)
    (subscription : option (nat * Subscription.doc))
| OrderData (orderId : string) (amount : Z) (receipt : string) (paymentId : nat)
| UpgradeData (account : nat * Account.doc)
    (subscription : nat * Subscription.doc) (payment : nat * Payment.doc)
| CancelData (account : nat * Account.doc) (subscription : nat * Subscription.doc)
| PaymentsData (payments : list (nat * Payment.doc)) (page limit total : Z).

Record Response := {
  statusCode : Z;
  success : bool;
  message : string;
  data : Data
}.

Definition sendResponse (code : Z) (ok : bool) (msg : string) (d : Data) : Response :=
  {| statusCode := code; success := ok; message := msg; data := d |}.

Definition sendError (code : Z) (msg : string) : Response :=
  {| statusCode := code; success := false; message := msg; data := NoData |}.

(** A middleware either answers the request or passes on a context. *)
Inductive Outcome (A : Type) :=
| Reply (r : Response)
| Next (a : A).
Arguments Reply {A} r.
Arguments Next {A} a.

Definition andThen {A B} (m : Outcome A) (k : A → Outcome B) : Outcome B :=
  match m with
  | Reply r => Reply r
  | Next a => k a
  end.

#[global] Instance Outcome_bind : MBind Outcome := λ A B k m, andThen m k.

(** ** The request context *)

(** The text after [Bearer ] (or the [token] cookie): empty, not a
    well-formed token, or a signed token. *)
Inductive Jwt :=
| JwtEmpty
| JwtMalformed
| JwtSigned (t : Token).

Inductive AuthHeader :=
| Bearer (j : Jwt)
| OtherScheme.

Record Headers := {
  authorization : option AuthHeader;
  cookie_token : option Jwt
}.

(** A user document with [account] and [role] populated; a reference to
    a missing document populates to [None]. *)
Record PopulatedUser := {
  _id : nat;
  user_doc : User.doc;
  user_account : option (nat * Account.doc);
  user_role : option (nat * Role.doc)
}.

(** [req.tenantFilter]: an object with the optional keys [account] and
    [user]. *)
Record Filter := {
  filter_account : option nat;
  filter_user : option nat
}.

Definition empty_filter : Filter :=
  {| filter_account := None; filter_user := None |}.

(** The fields the middleware chain adds to [req]. *)
Record Ctx := {
  req_user : option PopulatedUser;
  req_account : option (nat * Account.doc);
  req_tenant : option (nat * Account.doc);
  req_tenantFilter : option Filter
}.

Definition empty_ctx : Ctx :=
  {| req_user := None; req_account := None; req_tenant := None;
     req_tenantFilter := None |}.

Definition populate_user (db : Db) (i : nat) (u : User.doc) : PopulatedUser :=
  {| _id := i; user_doc := u;
     user_account := Store.findById (User.account u) (accounts db);
     user_role := Store.findById (User.role u) (roles db) |}.

(** ** middleware/auth.js *)

Definition extractToken (h : Headers) : option Jwt :=
  match authorization h with
  | Some (Bearer j) => Some j
  | _ => cookie_token h
  end.

Definition authenticate (env : Env) (db : Db) (h : Headers) (ctx : Ctx) : Outcome Ctx :=
  match extractToken h with
  | None | Some JwtEmpty => Reply (sendError 401 "Access token required")
  | Some JwtMalformed => Reply (sendError 401 "Invalid token format")
  | Some (JwtSigned token) =>
    match Helpers.jwt_verify (JWT_SECRET env) (clock env 0) token with
    | inl JsonWebTokenError => Reply (sendError 401 "Invalid token format")
    | inl TokenExpiredError => Reply (sendError 401 "Token has expired")
    | inr decoded =>
      match users db !! userId decoded with
      | None => Reply (sendError 401 "Invalid token - user not found or inactive")
      | Some u =>
        let user := populate_user db (userId decoded) u in
        if negb (User.isActive u) || User.isDeleted u then
          Reply (sendError 401 "Invalid token - user not found or inactive")
        else if iat decoded * 1000 <? User.tokensInvalidBefore u then
          Reply (sendError 401 "Token has been invalidated")
        else
          match user_account user with
          | None => Reply (sendError 401 "Account inactive or not found")
          | Some (aid, a) =>
            if negb (Account.isActive a) || Account.isDeleted a then
              Reply (sendError 401 "Account inactive or not found")
            else
              Next {| req_user := Some user; req_account := Some (aid, a);
                      req_tenant := req_tenant ctx;
                      req_tenantFilter := req_tenantFilter ctx |}
          end
      end
    end
  end.

(** ** middleware/rolePermission.js *)

Definition requireRole (requiredRole : RoleName) (ctx : Ctx) : Outcome Ctx :=
  match req_user ctx with
  | None => Reply (sendError 401 "Authentication required")
  | Some user =>
    match user_role user with
    | None => Reply (sendError 401 "Authentication required")
    | Some (_, r) =>
      if negb (bool_decide (Role.roleName r = requiredRole)) then
        Reply (sendError 403
                 (match requiredRole with
                  | ADMIN => "Access denied - admin role required"
                  | MEMBER => "Access denied - member role required"
                  end))
      else Next ctx
    end
  end.

Definition requireAdmin : Ctx → Outcome Ctx := requireRole ADMIN.

Definition requireMember (ctx : Ctx) : Outcome Ctx :=
  match req_user ctx with
  | None => Reply (sendError 401 "Authentication required")
  | Some user =>
    match user_role user with
    | None => Reply (sendError 401 "Authentication required")
    | Some (_, r) =>
      if negb (existsb (λ x, bool_decide (x = Role.roleName r)) [ADMIN; MEMBER]) then
        Reply (sendError 403 "Access denied - member access required")
      else Next ctx
    end
  end.

(** [requireOwnershipOrAdmin()], with the default owner field [user]. *)
Definition requireOwnershipOrAdmin (ctx : Ctx) : Outcome Ctx :=
  match req_user ctx with
  | None => Reply (sendError 401 "Authentication required")
  | Some user =>
    match user_role user with
    | None => Reply (sendError 401 "Authentication required")
    | Some (_, r) =>
      if bool_decide (Role.roleName r = ADMIN) then Next ctx
      else
        let f := match req_tenantFilter ctx with
                 | Some f => f
                 | None => empty_filter
                 end in
        Next {| req_user := req_user ctx; req_account := req_account ctx;
                req_tenant := req_tenant ctx;
                req_tenantFilter :=
                  Some {| filter_account := filter_account f;
                          filter_user := Some (_id user) |} |}
    end
  end.

(** ** middleware/tenant.js *)

Definition validateTenantSlug (db : Db) (slug : string) (ctx : Ctx) : Outcome Ctx :=
  if negb (JS.truthy slug) then Reply (sendError 400 "Tenant slug is required")
  else
    match Store.findOne
            (λ _ a, bool_decide (Account.slug a = JS.toLowerCase slug)
                    && Account.isActive a && negb (Account.isDeleted a))
            (accounts db) with
    | None => Reply (sendError 404 "Tenant not found")
    | Some (aid, a) =>
      match req_user ctx with
      | Some user =>
        match user_account user with
        | Some (uaid, _) =>
          if negb (bool_decide (uaid = aid)) then
            Reply (sendError 403 "Access denied - you do not belong to this tenant")
          else
            Next {| req_user := req_user ctx; req_account := req_account ctx;
                    req_tenant := Some (aid, a);
                    req_tenantFilter := req_tenantFilter ctx |}
        | None => Reply (sendError 500 "Tenant validation failed")
        end
      | None =>
        Next {| req_user := req_user ctx; req_account := req_account ctx;
                req_tenant := Some (aid, a);
                req_tenantFilter := req_tenantFilter ctx |}
      end
    end.

Definition ensureTenantIsolation (ctx : Ctx) : Outcome Ctx :=
  match req_user ctx with
  | None => Reply (sendError 401 "Authentication required for tenant isolation")
  | Some user =>
    match user_account user with
    | None => Reply (sendError 401 "Authentication required for tenant isolation")
    | Some (aid, _) =>
      Next {| req_user := req_user ctx; req_account := req_account ctx;
              req_tenant := req_tenant ctx;
              req_tenantFilter :=
                Some {| filter_account := Some aid; filter_user := None |} |}
    end
  end.

(** [req.account || req.tenant]. *)
Definition account_or_tenant (ctx : Ctx) : option (nat * Account.doc) :=
  match req_account ctx with
  | Some a => Some a
  | None => req_tenant ctx
  end.

Definition checkAccountStatus (ctx : Ctx) : Outcome Ctx :=
  match account_or_tenant ctx with
  | None => Reply (sendError 400 "Account context required")
  | Some (_, a) =>
    if negb (Account.isActive a) then Reply (sendError 403 "Account is suspended")
    else if Account.isDeleted a then Reply (sendError 403 "Account has been deleted")
    else Next ctx
  end.

(** ** middleware/subscriptionLimit.js *)

Definition checkNoteLimit (ctx : Ctx) : Outcome Ctx :=
  match req_account ctx with
  | None => Reply (sendError 400 "Account context required")
  | Some (_, a) =>
    if bool_decide (Account.plan a = PRO) then Next ctx
    else
      match SUBSCRIPTION_LIMITS (Account.plan a) with
      | None => Reply (sendError 500 "Invalid subscription plan")
      | Some lim =>
        if maxNotes lim <=? Account.noteCount a then
          Reply (sendResponse 403 false "Note limit exceeded for your current plan"
                   (LimitDetails (Account.plan a) (Account.noteCount a)
                      (maxNotes lim) true))
        else Next ctx
      end
  end.

Definition checkUpgradeEligibility (ctx : Ctx) : Outcome Ctx :=
  match account_or_tenant ctx with
  | None => Reply (sendError 400 "Account context required")
  | Some (_, a) =>
    if bool_decide (Account.plan a = PRO) then
      Reply (sendError 400 "Account is already on Pro plan")
    else if negb (Account.isActive a) || Account.isDeleted a then
      Reply (sendError 403 "Account must be active to upgrade")
    else Next ctx
  end.

(** [attachSubscriptionInfo] only adds [req.subscriptionInfo], which no
    handler reads; it rejects a request without account context. *)
Definition attachSubscriptionInfo (ctx : Ctx) : Outcome Ctx :=
  match req_account ctx with
  | None => Reply (sendError 400 "Account context required")
  | Some _ => Next ctx
  end.

(** ** Model methods that write to the store *)

(** [account.incrementNoteCount()]: returns the updated document and the
    store after [save]. *)
Definition incrementNoteCount (a : nat * Account.doc) (db : Db) : (nat * Account.doc) * Db :=
  let a' := Account.set_noteCount (Account.noteCount a.2 + 1) a.2 in
  ((a.1, a'), set_accounts (Store.save a.1 a' (accounts db)) db).

(** [account.decrementNoteCount()]: saves only when the count is
    positive. *)
Definition decrementNoteCount (a : nat * Account.doc) (db : Db) : (nat * Account.doc) * Db :=
  if 0 <? Account.noteCount a.2 then
    let a' := Account.set_noteCount (Account.noteCount a.2 - 1) a.2 in
    ((a.1, a'), set_accounts (Store.save a.1 a' (accounts db)) db)
  else (a, db).

(** [account.upgradeToPro()]. *)
Definition upgradeToPro (a : nat * Account.doc) (db : Db) : (nat * Account.doc) * Db :=
  let a' := Account.set_limit (-1) (Account.set_plan PRO a.2) in
  ((a.1, a'), set_accounts (Store.save a.1 a' (accounts db)) db).

(** [Tag.findOrCreate(account, tagName)]. [None] is a rejected [create]:
    the schema requires a non-empty name of at most 50 characters. *)
Definition findOrCreate (account : nat) (tagName : string) (db : Db) : option (nat * Db) :=
  let normalizedTagName := JS.trim (JS.toLowerCase tagName) in
  match Store.findOne
          (λ _ t, bool_decide (Tag.account t = account)
                  && bool_decide (Tag.tagName t = normalizedTagName))
          (tags db) with
  | Some (i, _) => Some (i, db)
  | None =>
    if JS.truthy normalizedTagName && (JS.length normalizedTagName <=? 50) then
      let '(i, c) := Store.create {| Tag.account := account;
                                     Tag.tagName := normalizedTagName |} (tags db) in
      Some (i, set_tags c db)
    else None
  end.

(** ** controllers/noteController.js *)

(** The [tags] field of a request body. *)
Inductive TagsField :=
| TagsUndefined
| TagsArray (l : list (option string))   (* [None]: an element that is not a string *)
| TagsString (s : string)
| TagsOther.

(** The loop over the tag names: each string that is non-empty after
    trimming is resolved with [findOrCreate] and its id pushed. The first
    component is [None] when an iteration throws; the store keeps the
    tags created before. [account] is [None] when the account object the
    loop dereferences is missing. *)
Fixpoint resolveTags (account : option nat) (names : list (option string))
    (tagIds : list nat) (db : Db) : option (list nat) * Db :=
  match names with
  | [] => (Some tagIds, db)
  | None :: rest => resolveTags account rest tagIds db
  | Some tagName :: rest =>
    if JS.truthy (JS.trim tagName) then
      match account with
      | None => (None, db)
      | Some aid =>
        match findOrCreate aid (JS.trim tagName) db with
        | None => (None, db)
        | Some (i, db') => resolveTags account rest (tagIds ++ [i]) db'
        end
      end
    else resolveTags account rest tagIds db
  end.

(** Iterating a string yields its characters. *)
Definition chars (s : string) : list (option string) :=
  List.map (λ c, Some (String c EmptyString)) (list_ascii_of_string s).

(** The query [{ _id: id, ...tenantFilter, isDeleted: false }]. *)
Definition matchesFilter (f : Filter) (n : Note.doc) : bool :=
  match filter_account f with
  | Some a => bool_decide (Note.account n = a)
  | None => true
  end
  && match filter_user f with
     | Some u => bool_decide (Note.user n = u)
     | None => true
     end.

Definition tenantFilter_or_empty (ctx : Ctx) : Filter :=
  match req_tenantFilter ctx with
  | Some f => f
  | None => empty_filter
  end.

Definition findNote (id : nat) (f : Filter) (db : Db) : option (nat * Note.doc) :=
  match notes db !! id with
  | Some n => if matchesFilter f n && negb (Note.isDeleted n) then Some (id, n) else None
  | None => None
  end.

(** [populate("tags")] followed by [tags.map(tag => tag.tagName)]; a
    reference to a missing tag is dropped. *)
Definition tagNames (db : Db) (ids : list nat) : list string :=
  omap (λ i, Tag.tagName <$> tags db !! i) ids.

Record CreateNoteBody := {
  cn_title : option string;
  cn_description : option string;
  cn_tags : TagsField
}.

Definition createNote (env : Env) (db : Db) (ctx : Ctx) (body : CreateNoteBody)
  : Response * Db :=
  match cn_title body with
  | None | Some EmptyString => (sendError 400 "Title is required", db)
  | Some title =>
    let names := match cn_tags body with
                 | TagsArray l => l
                 | TagsString s => chars s
                 | TagsUndefined | TagsOther => []
                 end in
    match resolveTags (fst <$> req_account ctx) names [] db with
    | (None, db1) => (sendError 500 "Failed to create note", db1)
    | (Some tagIds, db1) =>
      match req_user ctx, req_account ctx with
      | Some user, Some account =>
        let note := {| Note.account := account.1;
                       Note.user := _id user;
                       Note.title := JS.trim title;
                       Note.description :=
                         match cn_description body with
                         | Some d => if JS.truthy d then JS.trim d else ""
                         | None => ""
                         end;
                       Note.tags := tagIds;
                       Note.isDeleted := false;
                       Note.createdAt := clock env 1 |} in
        if Note.valid note then
          let '(_, c) := Store.create note (notes db1) in
          let '(_, db3) := incrementNoteCount account (set_notes c db1) in
          (sendResponse 201 true "Note created successfully" NoData, db3)
        else (sendError 500 "Failed to create note", db1)
      | _, _ => (sendError 500 "Failed to create note", db1)
      end
    end
  end.

(** The [tags] query parameter: absent (or the empty string), a string,
    or a repeated parameter (an array of strings). *)
Inductive TagsQuery :=
| NoTags
| TagsCsv (s : string)
| TagsList (l : list string).

(** Page and limit after [parseInt]; the model covers positive values. *)
Record ListQuery := {
  q_page : positive;
  q_limit : positive;
  q_search : option string;
  q_tags : TagsQuery
}.

(** [s.split(",")]. *)
Fixpoint split_comma_aux (s acc : string) : list string :=
  match s with
  | EmptyString => [String.rev acc]
  | String c r =>
    if bool_decide (c = ","%char) then String.rev acc :: split_comma_aux r EmptyString
    else split_comma_aux r (String c acc)
  end.

Definition split_comma (s : string) : list string := split_comma_aux s EmptyString.

(** The ids of the account's tags whose name is in the lower-cased list. *)
Definition tagIdsNamed (db : Db) (account : nat) (names : list string) : list nat :=
  List.map fst
    (Store.find
       (λ _ t, bool_decide (Tag.account t = account)
               && existsb (λ nm, bool_decide (Tag.tagName t = JS.toLowerCase nm)) names)
       (tags db)).

(** [tags: { $in: ids }] on an array field: some element is in [ids]. *)
Definition tagsIn (ids : list nat) (n : Note.doc) : bool :=
  existsb (λ t, existsb (Nat.eqb t) ids) (Note.tags n).

Definition textMatches (env : Env) (search : option string) (n : Note.doc) : bool :=
  match search with
  | Some s => if JS.truthy s then bool_decide (is_Some (textScore env s n)) else true
  | None => true
  end.

(** Sort order [{createdAt: -1}], refined by the text score when a
    search string is given. *)
Definition score (env : Env) (search : option string) (n : Note.doc) : Z :=
  match search with
  | Some s => if JS.truthy s then default 0 (textScore env s n) else 0
  | None => 0
  end.

Definition before (env : Env) (search : option string) (x y : nat * Note.doc) : bool :=
  (Note.createdAt y.2 <? Note.createdAt x.2)
  || ((Note.createdAt y.2 =? Note.createdAt x.2)
      && (score env search y.2 <=? score env search x.2)).

Definition sortNotes (env : Env) (search : option string)
    (l : list (nat * Note.doc)) : list (nat * Note.doc) :=
  Store.sortBy (before env search) l.

(** [Note.find(query).sort(..).skip(skip).limit(limit)]. *)
Definition pageOf (env : Env) (q : ListQuery) (l : list (nat * Note.doc))
  : list (nat * Note.doc) :=
  take (Pos.to_nat (q_limit q))
    (drop ((Pos.to_nat (q_page q) - 1) * Pos.to_nat (q_limit q))%nat
       (sortNotes env (q_search q) l)).

(** Formatting with the author populated; [None] when the author
    document is missing (reading its fields throws). *)
Definition formatWithAuthor (db : Db) (n : nat * Note.doc) : option NoteView :=
  match users db !! Note.user n.2 with
  | Some u =>
    Some {| v_id := n.1; v_title := Note.title n.2;
            v_description := Note.description n.2;
            v_tags := tagNames db (Note.tags n.2);
            v_author := Some (Note.user n.2, User.name u, User.email u) |}
  | None => None
  end.

Definition formatPlain (db : Db) (n : nat * Note.doc) : NoteView :=
  {| v_id := n.1; v_title := Note.title n.2;
     v_description := Note.description n.2;
     v_tags := tagNames db (Note.tags n.2);
     v_author := None |}.

Definition getNotes (env : Env) (db : Db) (ctx : Ctx) (q : ListQuery) : Response :=
  let tenantFilter := tenantFilter_or_empty ctx in
  let tagFilter : option (option (list nat)) :=
    match q_tags q with
    | NoTags => Some None
    | TagsCsv s =>
      if JS.truthy s then
        match req_user ctx with
        | Some user =>
          match user_account user with
          | Some (aid, _) => Some (Some (tagIdsNamed db aid (split_comma s)))
          | None => None
          end
        | None => None
        end
      else Some None
    | TagsList l =>
      match req_user ctx with
      | Some user =>
        match user_account user with
        | Some (aid, _) => Some (Some (tagIdsNamed db aid l))
        | None => None
        end
      | None => None
      end
    end in
  match tagFilter with
  | None => sendError 500 "Failed to retrieve notes"
  | Some tf =>
    let query := λ (_ : nat) (n : Note.doc),
      matchesFilter tenantFilter n && negb (Note.isDeleted n)
      && textMatches env (q_search q) n
      && match tf with Some ids => tagsIn ids n | None => true end in
    let total := Store.countDocuments query (notes db) in
    let found := pageOf env q (Store.find query (notes db)) in
    match mapM (formatWithAuthor db) found with
    | Some formattedNotes =>
      sendResponse 200 true "Notes retrieved successfully"
        (NotesData formattedNotes (Zpos (q_page q)) (Zpos (q_limit q)) total)
    | None => sendError 500 "Failed to retrieve notes"
    end
  end.

Definition getNoteById (db : Db) (ctx : Ctx) (id : nat) : Response :=
  match findNote id (tenantFilter_or_empty ctx) db with
  | None => sendError 404 "Note not found"
  | Some note =>
    match formatWithAuthor db note with
    | Some v => sendResponse 200 true "Note retrieved successfully" (NoteData v)
    | None => sendError 500 "Failed to retrieve note"
    end
  end.

Record UpdateNoteBody := {
  un_title : option string;
  un_description : option string;
  un_tags : TagsField
}.

(** The ownership test of [updateNote] and [deleteNote]; [None] when the
    role is not populated (reading [roleName] throws). *)
Definition notOwnerNorAdmin (user : PopulatedUser) (note : Note.doc) : option bool :=
  match user_role user with
  | Some (_, r) =>
    Some (negb (bool_decide (Role.roleName r = ADMIN))
          && negb (bool_decide (Note.user note = _id user)))
  | None => None
  end.

Definition updateNote (db : Db) (ctx : Ctx) (id : nat) (body : UpdateNoteBody)
  : Response * Db :=
  match findNote id (tenantFilter_or_empty ctx) db with
  | None => (sendError 404 "Note not found", db)
  | Some (nid, note) =>
    match req_user ctx with
    | None => (sendError 500 "Failed to update note", db)
    | Some user =>
      match notOwnerNorAdmin user note with
      | None => (sendError 500 "Failed to update note", db)
      | Some true => (sendError 403 "You can only update your own notes", db)
      | Some false =>
        let titled : option Note.doc :=
          match un_title body with
          | None => Some note
          | Some title =>
            if negb (JS.truthy (JS.trim title)) then None
            else Some (Note.set_title (JS.trim title) note)
          end in
        match titled with
        | None => (sendError 400 "Title is required", db)
        | Some note1 =>
          let note2 :=
            match un_description body with
            | None => note1
            | Some d => Note.set_description (if JS.truthy d then JS.trim d else "") note1
            end in
          let tagged : option Note.doc * Db :=
            match un_tags body with
            | TagsUndefined => (Some note2, db)
            | TagsArray l =>
              match resolveTags (fst <$> user_account user) l [] db with
              | (Some tagIds, db1) => (Some (Note.set_tags tagIds note2), db1)
              | (None, db1) => (None, db1)
              end
            | TagsString _ | TagsOther => (Some (Note.set_tags [] note2), db)
            end in
          match tagged with
          | (None, db1) => (sendError 500 "Failed to update note", db1)
          | (Some note3, db1) =>
            if Note.valid note3 then
              let db2 := set_notes (Store.save nid note3 (notes db1)) db1 in
              (sendResponse 200 true "Note updated successfully"
                 (NoteData (formatPlain db2 (nid, note3))), db2)
            else (sendError 500 "Failed to update note", db1)
          end
        end
      end
    end
  end.

Definition deleteNote (db : Db) (ctx : Ctx) (id : nat) : Response * Db :=
  match findNote id (tenantFilter_or_empty ctx) db with
  | None => (sendError 404 "Note not found", db)
  | Some (nid, note) =>
    match req_user ctx with
    | None => (sendError 500 "Failed to delete note", db)
    | Some user =>
      match notOwnerNorAdmin user note with
      | None => (sendError 500 "Failed to delete note", db)
      | Some true => (sendError 403 "You can only delete your own notes", db)
      | Some false =>
        let db1 := set_notes (Store.save nid (Note.set_isDeleted true note) (notes db)) db in
        match req_account ctx with
        | None => (sendError 500 "Failed to delete note", db1)
        | Some account =>
          let '(_, db2) := decrementNoteCount account db1 in
          (sendResponse 200 true "Note deleted successfully" NoData, db2)
        end
      end
    end
  end.

Definition getMyNotes (env : Env) (db : Db) (ctx : Ctx) (q : ListQuery) : Response :=
  match req_user ctx with
  | None => sendError 500 "Failed to retrieve your notes"
  | Some user =>
    match user_account user with
    | None => sendError 500 "Failed to retrieve your notes"
    | Some (aid, _) =>
      let tagFilter : option (list nat) :=
        match q_tags q with
        | NoTags => None
        | TagsCsv s => if JS.truthy s then Some (tagIdsNamed db aid [s]) else None
        | TagsList l => Some (tagIdsNamed db aid l)
        end in
      match tagFilter with
      | Some [] =>
        sendResponse 200 true "Your notes retrieved successfully"
          (NotesData [] (Zpos (q_page q)) (Zpos (q_limit q)) 0)
      | _ =>
        let query := λ (_ : nat) (n : Note.doc),
          bool_decide (Note.account n = aid) && bool_decide (Note.user n = _id user)
          && negb (Note.isDeleted n)
          && textMatches env (q_search q) n
          && match tagFilter with Some ids => tagsIn ids n | None => true end in
        let total := Store.countDocuments query (notes db) in
        let found := pageOf env q (Store.find query (notes db)) in
        sendResponse 200 true "Your notes retrieved successfully"
          (NotesData (List.map (formatPlain db) found)
             (Zpos (q_page q)) (Zpos (q_limit q)) total)
      end
    end
  end.

(** ** routes/notes.js *)

(** [router.use(authenticate); router.use(ensureTenantIsolation);
    router.use(checkAccountStatus)], common to every notes route. *)
Definition notesGuard (env : Env) (db : Db) (h : Headers) : Outcome Ctx :=
  ctx ← authenticate env db h empty_ctx;
  ctx ← ensureTenantIsolation ctx;
  checkAccountStatus ctx.

(** Runs a handler after a middleware chain. *)
Definition serve {A} (db : Db) (chain : Outcome A) (handler : A → Response * Db)
  : Response * Db :=
  match chain with
  | Reply r => (r, db)
  | Next a => handler a
  end.

Definition POST_notes (env : Env) (db : Db) (h : Headers) (body : CreateNoteBody)
  : Response * Db :=
  serve db (ctx ← notesGuard env db h; ctx ← requireMember ctx; checkNoteLimit ctx)
    (λ ctx, createNote env db ctx body).

Definition GET_notes (env : Env) (db : Db) (h : Headers) (q : ListQuery)
  : Response * Db :=
  serve db (ctx ← notesGuard env db h; requireMember ctx)
    (λ ctx, (getNotes env db ctx q, db)).

Definition GET_notes_my_notes (env : Env) (db : Db) (h : Headers) (q : ListQuery)
  : Response * Db :=
  serve db (ctx ← notesGuard env db h; requireMember ctx)
    (λ ctx, (getMyNotes env db ctx q, db)).

Definition GET_notes_id (env : Env) (db : Db) (h : Headers) (id : nat)
  : Response * Db :=
  serve db (ctx ← notesGuard env db h; ctx ← requireMember ctx;
            requireOwnershipOrAdmin ctx)
    (λ ctx, (getNoteById db ctx id, db)).

Definition PUT_notes_id (env : Env) (db : Db) (h : Headers) (id : nat)
    (body : UpdateNoteBody) : Response * Db :=
  serve db (ctx ← notesGuard env db h; ctx ← requireMember ctx;
            requireOwnershipOrAdmin ctx)
    (λ ctx, updateNote db ctx id body).

Definition DELETE_notes_id (env : Env) (db : Db) (h : Headers) (id : nat)
  : Response * Db :=
  serve db (ctx ← notesGuard env db h; ctx ← requireMember ctx;
            requireOwnershipOrAdmin ctx)
    (λ ctx, deleteNote db ctx id).

(** ** config/razorpay.js *)

Definition createOrder (env : Env) (amount : Z) (currency receipt : string)
  : option string :=
  orders_create env (amount * 100) currency receipt.

Definition verifyPaymentSignature (env : Env) (orderId paymentId signature : string)
  : bool :=
  let body := String.append orderId (String.append "|" paymentId) in
  let expectedSignature := hmac_sha256_hex env (RAZORPAY_KEY_SECRET env) body in
  bool_decide (expectedSignature = signature).

Definition getPaymentDetails (env : Env) (paymentId : string) : option GatewayPayment :=
  payments_fetch env paymentId.

(** ** controllers/subscriptionController.js *)

(** The query [{ account, status: "active" }] on subscriptions. *)
Definition isActiveOf (account : nat) (_ : nat) (s : Subscription.doc) : bool :=
  bool_decide (Subscription.account s = account)
  && bool_decide (Subscription.status s = active).

Definition getSubscription (db : Db) (ctx : Ctx) : Response :=
  match req_account ctx with
  | None => sendError 500 "Failed to retrieve subscription details"
  | Some account =>
    sendResponse 200 true "Subscription details retrieved successfully"
      (SubscriptionData account (Account.canCreateNote account.2)
         (Store.findOne (isActiveOf account.1) (subscriptions db)))
  end.

Definition upgradeSubscription (env : Env) (db : Db) (ctx : Ctx)
    (paymentMethod : option string) : Response * Db :=
  match req_tenant ctx with
  | None => (sendError 500 "Failed to initiate subscription upgrade", db)
  | Some account =>
    let proMonthlyPrice := 999 in
    let receipt :=
      String.append "upgrade_"
        (String.append (Account.slug account.2)
           (String.append "_" (Helpers.generateRandomString env 8))) in
    match createOrder env proMonthlyPrice "INR" receipt with
    | None => (sendError 500 "Failed to initiate subscription upgrade", db)
    | Some orderId =>
      let payment :=
        {| Payment.account := account.1;
           Payment.subscription := None;
           Payment.razorpayPaymentId := None;
           Payment.razorpayOrderId := orderId;
           Payment.amount := proMonthlyPrice;
           Payment.currency := "INR";
           Payment.status := PENDING;
           Payment.method := Some (default "razorpay" paymentMethod);
           Payment.errorDescription := None;
           Payment.createdAt := clock env 1 |} in
      let '(pid, c) := Store.create payment (payments db) in
      (sendResponse 200 true "Payment order created successfully"
         (OrderData orderId proMonthlyPrice receipt pid),
       set_payments c db)
    end
  end.

Record VerifyBody := {
  razorpay_order_id : string;
  razorpay_payment_id : string;
  razorpay_signature : string;
  paymentId : option nat
}.

(** The unique sparse index on [razorpayPaymentId]: a write is refused
    when another payment already carries the same gateway payment id. *)
Definition paymentIdTaken (pid : nat) (gatewayId : string) (c : gmap nat Payment.doc)
  : bool :=
  bool_decide
    (is_Some (Store.findOne
                (λ i p, negb (bool_decide (i = pid))
                        && bool_decide (Payment.razorpayPaymentId p = Some gatewayId))
                c)).

Definition oneYear : Z := 365 * 24 * 60 * 60 * 1000.

Definition verifyPaymentAndUpgrade (env : Env) (db : Db) (ctx : Ctx) (body : VerifyBody)
  : Response * Db :=
  let failed := sendError 500 "Failed to verify payment and upgrade subscription" in
  match paymentId body with
  | None => (sendError 400 "Missing required payment verification data", db)
  | Some pid =>
    if negb (JS.truthy (razorpay_order_id body))
       || negb (JS.truthy (razorpay_payment_id body))
       || negb (JS.truthy (razorpay_signature body)) then
      (sendError 400 "Missing required payment verification data", db)
    else
      match req_account ctx with
      | None => (failed, db)
      | Some account =>
        match Store.findOne
                (λ i p, bool_decide (i = pid)
                        && bool_decide (Payment.account p = account.1)
                        && bool_decide (Payment.razorpayOrderId p = razorpay_order_id body)
                        && bool_decide (Payment.status p = PENDING))
                (payments db) with
        | None => (sendError 404 "Payment record not found", db)
        | Some (pid, payment) =>
          if negb (verifyPaymentSignature env (razorpay_order_id body)
                     (razorpay_payment_id body) (razorpay_signature body)) then
            let payment1 :=
              Payment.set_errorDescription (Some "Invalid payment signature")
                (Payment.set_status FAILED payment) in
            (sendError 400 "Payment verification failed",
             set_payments (Store.save pid payment1 (payments db)) db)
          else
            match getPaymentDetails env (razorpay_payment_id body) with
            | None => (failed, db)
            | Some paymentDetails =>
              let payment1 :=
                Payment.set_method (gp_method paymentDetails)
                  (Payment.set_status SUCCESS
                     (Payment.set_razorpayPaymentId
                        (Some (razorpay_payment_id body)) payment)) in
              if paymentIdTaken pid (razorpay_payment_id body) (payments db) then
                (failed, db)
              else
                let db1 := set_payments (Store.save pid payment1 (payments db)) db in
                let db2 :=
                  match Store.findOne (isActiveOf account.1) (subscriptions db1) with
                  | Some (sid, existingSubscription) =>
                    set_subscriptions
                      (Store.save sid
                         (Subscription.cancel (clock env 1) existingSubscription)
                         (subscriptions db1)) db1
                  | None => db1
                  end in
                let subscription :=
                  {| Subscription.account := account.1;
                     Subscription.plan := PRO;
                     Subscription.status := active;
                     Subscription.startDate := clock env 2;
                     Subscription.endDate := Some (clock env 3 + oneYear);
                     Subscription.cancelledAt := None |} in
                let '(sid, c) := Store.create subscription (subscriptions db2) in
                let db3 := set_subscriptions c db2 in
                let payment2 := Payment.set_subscription (Some sid) payment1 in
                let db4 := set_payments (Store.save pid payment2 (payments db3)) db3 in
                let '(account1, db5) := upgradeToPro account db4 in
                let account2 :=
                  (account1.1, Account.set_currentSubscription (Some sid) account1.2) in
                let db6 :=
                  set_accounts (Store.save account2.1 account2.2 (accounts db5)) db5 in
                (sendResponse 200 true "Subscription upgraded successfully"
                   (UpgradeData account2 (sid, subscription) (pid, payment2)),
                 db6)
            end
        end
      end
  end.

Definition cancelSubscription (env : Env) (db : Db) (ctx : Ctx) : Response * Db :=
  match req_account ctx with
  | None => (sendError 500 "Failed to cancel subscription", db)
  | Some account =>
    match Store.findOne (isActiveOf account.1) (subscriptions db) with
    | None => (sendError 404 "No active subscription found", db)
    | Some (sid, subscription) =>
      let subscription1 := Subscription.cancel (clock env 1) subscription in
      let db1 :=
        set_subscriptions (Store.save sid subscription1 (subscriptions db)) db in
      let account1 :=
        Account.set_currentSubscription None
          (Account.set_limit 3 (Account.set_plan FREE account.2)) in
      let db2 := set_accounts (Store.save account.1 account1 (accounts db1)) db1 in
      (sendResponse 200 true "Subscription cancelled successfully"
         (CancelData (account.1, account1) (sid, subscription1)),
       db2)
    end
  end.

(** [Payment.find({account}).sort({createdAt: -1}).skip(..).limit(..)]. *)
Definition getPaymentHistory (db : Db) (ctx : Ctx) (page limit : positive) : Response :=
  match req_account ctx with
  | None => sendError 500 "Failed to retrieve payment history"
  | Some account =>
    let query := λ (_ : nat) (p : Payment.doc),
      bool_decide (Payment.account p = account.1) in
    let sorted :=
      Store.sortBy (λ x y, Payment.createdAt y.2 <=? Payment.createdAt x.2)
        (Store.find query (payments db)) in
    sendResponse 200 true "Payment history retrieved successfully"
      (PaymentsData
         (take (Pos.to_nat limit)
            (drop ((Pos.to_nat page - 1) * Pos.to_nat limit)%nat sorted))
         (Zpos page) (Zpos limit) (Store.countDocuments query (payments db)))
  end.

(** ** routes/subscription.js *)

Definition tenantGuard (env : Env) (db : Db) (h : Headers) : Outcome Ctx :=
  ctx ← authenticate env db h empty_ctx;
  ctx ← ensureTenantIsolation ctx;
  checkAccountStatus ctx.

Definition GET_subscription (env : Env) (db : Db) (h : Headers) : Response * Db :=
  serve db (ctx ← tenantGuard env db h; ctx ← requireMember ctx;
            attachSubscriptionInfo ctx)
    (λ ctx, (getSubscription db ctx, db)).

Definition POST_subscription_upgrade (env : Env) (db : Db) (h : Headers)
    (slug : string) (paymentMethod : option string) : Response * Db :=
  serve db (ctx ← authenticate env db h empty_ctx;
            ctx ← validateTenantSlug db slug ctx;
            ctx ← checkAccountStatus ctx;
            ctx ← requireAdmin ctx;
            checkUpgradeEligibility ctx)
    (λ ctx, upgradeSubscription env db ctx paymentMethod).

Definition POST_subscription_verify_payment (env : Env) (db : Db) (h : Headers)
    (body : VerifyBody) : Response * Db :=
  serve db (ctx ← tenantGuard env db h; requireAdmin ctx)
    (λ ctx, verifyPaymentAndUpgrade env db ctx body).

Definition GET_subscription_payments (env : Env) (db : Db) (h : Headers)
    (page limit : positive) : Response * Db :=
  serve db (ctx ← tenantGuard env db h; requireMember ctx)
    (λ ctx, (getPaymentHistory db ctx page limit, db)).

Definition POST_subscription_cancel (env : Env) (db : Db) (h : Headers)
  : Response * Db :=
  serve db (ctx ← tenantGuard env db h; requireAdmin ctx)
    (λ ctx, cancelSubscription env db ctx).

(** ** controllers/authController.js and config/passport.js *)

(** Schema setters run when a document is written: [lowercase] and
    [trim]. *)
Definition normalized (s : string) : string := JS.trim (JS.toLowerCase s).

(** Validators of the user schema, run by [save] before the password is
    hashed: [email] and [name] required, [password] of at least six
    characters. *)
Definition validUser (email password name : string) : bool :=
  JS.truthy (normalized email) && JS.truthy (JS.trim name)
  && (6 <=? JS.length password).

(** The unique index on [(email, account)]. *)
Definition emailTaken (account : nat) (email : string) (c : gmap nat User.doc) : bool :=
  bool_decide
    (is_Some (Store.findOne
                (λ _ u, bool_decide (User.account u = account)
                        && bool_decide (User.email u = email)) c)).

(** The loop [while (await Account.findOne({ slug })) { slug =
    `${baseSlug}-${counter}`; counter++ }], bounded by [fuel]
    iterations. *)
Fixpoint freeSlug (c : gmap nat Account.doc) (baseSlug slug : string)
    (counter fuel : nat) : option string :=
  match Store.findOne (λ _ a, bool_decide (Account.slug a = slug)) c with
  | None => Some slug
  | Some _ =>
    match fuel with
    | O => None
    | S fuel' =>
      freeSlug c baseSlug
        (String.append baseSlug (String.append "-" (pretty counter)))
        (S counter) fuel'
    end
  end.

Record RegisterBody := {
  rg_email : string;
  rg_password : string;
  rg_name : string;
  rg_accountName : string
}.

Definition register (env : Env) (db : Db) (body : RegisterBody) : Response * Db :=
  let failed := sendError 500 "Registration failed" in
  if negb (JS.truthy (rg_email body)) || negb (JS.truthy (rg_password body))
     || negb (JS.truthy (rg_name body)) || negb (JS.truthy (rg_accountName body)) then
    (sendError 400 "All fields are required", db)
  else
    match Store.findOne
            (λ _ u, bool_decide (User.email u = JS.toLowerCase (rg_email body))
                    && negb (User.isDeleted u))
            (users db) with
    | Some _ => (sendError 409 "User with this email already exists", db)
    | None =>
      let baseSlug := Helpers.generateSlug env (rg_accountName body) in
      match freeSlug (accounts db) baseSlug baseSlug 1 (S (size (accounts db))) with
      | None => (failed, db)
      | Some slug =>
        let stored := normalized slug in
        if negb (JS.truthy stored)
           || bool_decide (is_Some (Store.findOne
                                      (λ _ a, bool_decide (Account.slug a = stored))
                                      (accounts db))) then
          (failed, db)
        else
          let '(aid, ca) :=
            Store.create {| Account.slug := stored; Account.plan := FREE;
                            Account.limit := 3; Account.noteCount := 0;
                            Account.currentSubscription := None;
                            Account.isActive := true;
                            Account.isDeleted := false |} (accounts db) in
          let db1 := set_accounts ca db in
          let '(rid, cr) :=
            Store.create {| Role.account := aid; Role.roleName := ADMIN |} (roles db1) in
          let db2 := set_roles cr db1 in
          if validUser (rg_email body) (rg_password body) (rg_name body) then
            let '(_, cu) :=
              Store.create
                {| User.account := aid;
                   User.email := normalized (rg_email body);
                   User.password := Helpers.hashPassword env (rg_password body);
                   User.name := JS.trim (rg_name body);
                   User.role := rid;
                   User.isActive := true;
                   User.isDeleted := false;
                   User.tokensInvalidBefore := clock env 1;
                   User.lastLogin := None;
                   User.lastIP := None |} (users db2) in
            (sendResponse 201 true "Account created successfully" NoData,
             set_users cu db2)
          else (failed, db2)
      end
    end.

(** The verify callback of the local strategy: the user it authenticates,
    or the failure message. *)
Inductive Verified :=
| Authenticated (user : PopulatedUser)
| Rejected (message : string).

Definition localStrategy (env : Env) (db : Db) (email password : string)
  : Verified * Db :=
  match Store.findOne
          (λ _ u, bool_decide (User.email u = JS.toLowerCase email)
                  && User.isActive u && negb (User.isDeleted u))
          (users db) with
  | None => (Rejected "Invalid email or password", db)
  | Some (uid, u) =>
    let user := populate_user db uid u in
    match user_account user with
    | None => (Rejected "Account is inactive", db)
    | Some (_, a) =>
      if negb (Account.isActive a) || Account.isDeleted a then
        (Rejected "Account is inactive", db)
      else if negb (Helpers.comparePassword env password (User.password u)) then
        (Rejected "Invalid email or password", db)
      else
        let u1 := User.set_lastLogin (clock env 1) u in
        (Authenticated {| _id := uid; user_doc := u1;
                          user_account := user_account user;
                          user_role := user_role user |},
         set_users (Store.save uid u1 (users db)) db)
    end
  end.

Record LoginBody := {
  lg_email : string;
  lg_password : string
}.

(** [passport.authenticate("local", callback)]: the strategy fails with
    "Missing credentials" before its verify callback when a field is
    empty. *)
Definition login (env : Env) (db : Db) (ip : option string) (body : LoginBody)
  : Response * Db :=
  if negb (JS.truthy (lg_email body)) || negb (JS.truthy (lg_password body)) then
    (sendError 401 "Missing credentials", db)
  else
    match localStrategy env db (lg_email body) (lg_password body) with
    | (Rejected message, db1) =>
      (sendError 401 (if JS.truthy message then message else "Invalid credentials"), db1)
    | (Authenticated user, db1) =>
      let u1 := User.set_lastIP ip (User.set_lastLogin (clock env 2) (user_doc user)) in
      let db2 := set_users (Store.save (_id user) u1 (users db1)) db1 in
      match user_account user, user_role user with
      | Some (aid, _), Some (_, r) =>
        (sendResponse 200 true "Login successful"
           (TokenData (Helpers.generateToken env (clock env 3) (_id user) aid
                         (Role.roleName r))),
         db2)
      | _, _ => (sendError 500 "Login failed", db2)
      end
    end.

Definition getProfile (ctx : Ctx) : Response :=
  match req_user ctx with
  | Some user =>
    match user_role user, user_account user with
    | Some _, Some account =>
      sendResponse 200 true "Profile retrieved successfully"
        (ProfileData (_id user, user_doc user) account)
    | _, _ => sendError 500 "Failed to get profile"
    end
  | None => sendError 500 "Failed to get profile"
  end.

(** The [role] field of an invitation. *)
Inductive RoleField :=
| RoleUndefined
| RoleNamed (r : RoleName)
| RoleUnknown.

Record InviteBody := {
  iv_email : string;
  iv_name : string;
  iv_role : RoleField
}.

Definition inviteUser (env : Env) (db : Db) (ctx : Ctx) (body : InviteBody)
  : Response * Db :=
  let failed := sendError 500 "Failed to invite user" in
  if negb (JS.truthy (iv_email body)) || negb (JS.truthy (iv_name body)) then
    (sendError 400 "Email and name are required", db)
  else
    match (match iv_role body with
           | RoleUndefined => Some MEMBER
           | RoleNamed r => Some r
           | RoleUnknown => None
           end) with
    | None => (sendError 400 "Invalid role", db)
    | Some role =>
      match (adminUser ← req_user ctx; user_account adminUser) with
      | None => (failed, db)
      | Some (aid, _) =>
        match Store.findOne
                (λ _ u, bool_decide (User.email u = JS.toLowerCase (iv_email body))
                        && bool_decide (User.account u = aid)
                        && negb (User.isDeleted u))
                (users db) with
        | Some _ => (sendError 409 "User already exists in this account", db)
        | None =>
          let '(rid, db1) :=
            match Store.findOne
                    (λ _ r, bool_decide (Role.account r = aid)
                            && bool_decide (Role.roleName r = role))
                    (roles db) with
            | Some (rid, _) => (rid, db)
            | None =>
              let '(rid, cr) :=
                Store.create {| Role.account := aid; Role.roleName := role |}
                  (roles db) in
              (rid, set_roles cr db)
            end in
          let tempPassword := Helpers.generateRandomString env 12 in
          if validUser (iv_email body) tempPassword (iv_name body)
             && negb (emailTaken aid (normalized (iv_email body)) (users db1)) then
            let '(_, cu) :=
              Store.create
                {| User.account := aid;
                   User.email := normalized (iv_email body);
                   User.password := Helpers.hashPassword env tempPassword;
                   User.name := JS.trim (iv_name body);
                   User.role := rid;
                   User.isActive := false;
                   User.isDeleted := false;
                   User.tokensInvalidBefore := clock env 1;
                   User.lastLogin := None;
                   User.lastIP := None |} (users db1) in
            (sendResponse 201 true "User invited successfully"
               (InviteData (normalized (iv_email body)) tempPassword),
             set_users cu db1)
          else (failed, db1)
        end
      end
    end.

Record ChangePasswordBody := {
  currentPassword : string;
  newPassword : string
}.

Definition changePassword (env : Env) (db : Db) (ctx : Ctx) (body : ChangePasswordBody)
  : Response * Db :=
  if negb (JS.truthy (currentPassword body)) || negb (JS.truthy (newPassword body)) then
    (sendError 400 "Current password and new password are required", db)
  else
    match req_user ctx with
    | None => (sendError 500 "Failed to change password", db)
    | Some user =>
      let u := user_doc user in
      if negb (Helpers.comparePassword env (currentPassword body) (User.password u)) then
        (sendError 400 "Current password is incorrect", db)
      else if Helpers.comparePassword env (newPassword body) (User.password u) then
        (sendError 400 "New password cannot be the same as the old password", db)
      else if 6 <=? JS.length (newPassword body) then
        let u1 :=
          User.set_tokensInvalidBefore (clock env 1)
            (User.set_password (Helpers.hashPassword env (newPassword body)) u) in
        (sendResponse 200 true "Password changed successfully" NoData,
         set_users (Store.save (_id user) u1 (users db)) db)
      else (sendError 500 "Failed to change password", db)
    end.

Definition logout (env : Env) (db : Db) (ctx : Ctx) : Response * Db :=
  match req_user ctx with
  | None => (sendError 500 "Logout failed", db)
  | Some user =>
    let u1 := User.set_tokensInvalidBefore (clock env 1) (user_doc user) in
    (sendResponse 200 true "Logged out successfully" NoData,
     set_users (Store.save (_id user) u1 (users db)) db)
  end.

(** ** routes/auth.js *)

Definition POST_auth_register (env : Env) (db : Db) (body : RegisterBody)
  : Response * Db :=
  register env db body.

Definition POST_auth_login (env : Env) (db : Db) (ip : option string)
    (body : LoginBody) : Response * Db :=
  login env db ip body.

Definition GET_auth_profile (env : Env) (db : Db) (h : Headers) : Response * Db :=
  serve db (tenantGuard env db h) (λ ctx, (getProfile ctx, db)).

Definition POST_auth_invite (env : Env) (db : Db) (h : Headers) (body : InviteBody)
  : Response * Db :=
  serve db (ctx ← tenantGuard env db h; requireAdmin ctx)
    (λ ctx, inviteUser env db ctx body).

Definition POST_auth_change_password (env : Env) (db : Db) (h : Headers)
    (body : ChangePasswordBody) : Response * Db :=
  serve db (tenantGuard env db h) (λ ctx, changePassword env db ctx body).

Definition POST_auth_logout (env : Env) (db : Db) (h : Headers) : Response * Db :=
  serve db (authenticate env db h empty_ctx) (λ ctx, logout env db ctx).

(** ** The service *)

(** The requests that read or write documents. The remaining routes
    ([/], [/health], [/subscription/plans]) answer without touching a
    collection. *)
Inductive Request :=
| PostAuthSignup (body : RegisterBody)
| PostAuthLogin (ip : option string) (body : LoginBody)
| GetAuthProfile (h : Headers)
| PostAuthInvite (h : Headers) (body : InviteBody)
| PostAuthChangePassword (h : Headers) (body : ChangePasswordBody)
| PostAuthLogout (h : Headers)
| PostNotes (h : Headers) (body : CreateNoteBody)
| GetNotes (h : Headers) (q : ListQuery)
| GetMyNotes (h : Headers) (q : ListQuery)
| GetNote (h : Headers) (id : nat)
| PutNote (h : Headers) (id : nat) (body : UpdateNoteBody)
| DeleteNote (h : Headers) (id : nat)
| GetSubscription (h : Headers)
| PostUpgrade (h : Headers) (slug : string) (paymentMethod : option string)
| PostVerifyPayment (h : Headers) (body : VerifyBody)
| GetPayments (h : Headers) (page limit : positive)
| PostCancel (h : Headers).

Definition handle (env : Env) (db : Db) (r : Request) : Response * Db :=
  match r with
  | PostAuthSignup body => POST_auth_register env db body
  | PostAuthLogin ip body => POST_auth_login env db ip body
  | GetAuthProfile h => GET_auth_profile env db h
  | PostAuthInvite h body => POST_auth_invite env db h body
  | PostAuthChangePassword h body => POST_auth_change_password env db h body
  | PostAuthLogout h => POST_auth_logout env db h
  | PostNotes h body => POST_notes env db h body
  | GetNotes h q => GET_notes env db h q
  | GetMyNotes h q => GET_notes_my_notes env db h q
  | GetNote h id => GET_notes_id env db h id
  | PutNote h id body => PUT_notes_id env db h id body
  | DeleteNote h id => DELETE_notes_id env db h id
  | GetSubscription h => GET_subscription env db h
  | PostUpgrade h slug pm => POST_subscription_upgrade env db h slug pm
  | PostVerifyPayment h body => POST_subscription_verify_payment env db h body
  | GetPayments h page limit => GET_subscription_payments env db h page limit
  | PostCancel h => POST_subscription_cancel env db h
  end.

(** Requests served one after the other, each with its own
    environment. *)
Fixpoint run (db : Db) (trace : list (Env * Request)) : Db :=
  match trace with
  | [] => db
  | (env, r) :: rest => run (handle env db r).2 rest
  end.

(** ** Functions that no route uses *)

(** [PERMISSIONS], the static table from role name to permissions
    (utils/constants.js). *)
Definition PERMISSIONS (r : RoleName) : list string :=
  match r with
  | ADMIN => ["notes:create"; "notes:read"; "notes:update"; "notes:delete";
              "users:invite"; "subscription:upgrade"]
  | MEMBER => ["notes:create"; "notes:read"; "notes:update"; "notes:delete"]
  end.

(** [requirePermission(requiredPermission)] (middleware/rolePermission.js). *)
Definition requirePermission (requiredPermission : string) (ctx : Ctx) : Outcome Ctx :=
  match req_user ctx with
  | None => Reply (sendError 401 "Authentication required")
  | Some user =>
    match user_role user with
    | None => Reply (sendError 401 "Authentication required")
    | Some (_, r) =>
      if negb (existsb (λ p, bool_decide (p = requiredPermission))
                 (PERMISSIONS (Role.roleName r))) then
        Reply (sendError 403 "Insufficient permissions")
      else Next ctx
    end
  end.

(** [requireAnyPermission(requiredPermissions)]. *)
Definition requireAnyPermission (requiredPermissions : list string) (ctx : Ctx)
  : Outcome Ctx :=
  match req_user ctx with
  | None => Reply (sendError 401 "Authentication required")
  | Some user =>
    match user_role user with
    | None => Reply (sendError 401 "Authentication required")
    | Some (_, r) =>
      if negb (existsb (λ permission,
                          existsb (λ p, bool_decide (p = permission))
                            (PERMISSIONS (Role.roleName r)))
                 requiredPermissions) then
        Reply (sendError 403 "Insufficient permissions")
      else Next ctx
    end
  end.

(** [optionalAuth] (middleware/auth.js): without a token the request
    goes on as it is, with one it is authenticated as usual. *)
Definition optionalAuth (env : Env) (db : Db) (h : Headers) (ctx : Ctx) : Outcome Ctx :=
  match extractToken h with
  | None | Some JwtEmpty => Next ctx
  | Some _ => authenticate env db h ctx
  end.

(** [verifyToken(token)] (utils/helpers.js) at time [now]: the payload,
    or [None] when it throws "Invalid token". *)
Definition verifyToken (env : Env) (now : Z) (j : Jwt) : option Token :=
  match j with
  | JwtSigned t =>
    match Helpers.jwt_verify (JWT_SECRET env) now t with
    | inr decoded => Some decoded
    | inl _ => None
    end
  | JwtEmpty | JwtMalformed => None
  end.

(** The [isActive] method of a subscription (models/Subscription.js) at
    time [now]. *)
Definition subscriptionIsActive (now : Z) (s : Subscription.doc) : bool :=
  if negb (bool_decide (Subscription.status s = active)) then false
  else match Subscription.endDate s with
       | Some e => if e <? now then false else true
       | None => true
       end.

(** * Vocabulary of the statements *)

(** A string that does not start with white space. *)
Definition trimmedStart (s : string) : Prop :=
  match s with EmptyString => True | String c _ => Ascii.is_space c = false end.

(** The context [authenticate] builds for the stored user [u] with id
    [uid], whose account document is [a]. *)
Definition authedCtx (db : Db) (uid : nat) (u : User.doc) (a : Account.doc)
    (tenant : option (nat * Account.doc)) (f : option Filter) : Ctx :=
  {| req_user := Some (populate_user db uid u);
     req_account := Some (User.account u, a);
     req_tenant := tenant;
     req_tenantFilter := f |}.

(** The tenant filter set by [ensureTenantIsolation]. *)
Definition tenantOnly (aid : nat) : Filter :=
  {| filter_account := Some aid; filter_user := None |}.

(** What a request that passes [authenticate] establishes. *)
Record Authentic (env : Env) (db : Db) (h : Headers)
    (token : Token) (u : User.doc) (a : Account.doc) : Prop := {
  authentic_token : extractToken h = Some (JwtSigned token);
  authentic_signature : signedWith token = JWT_SECRET env;
  authentic_expiry : clock env 0 / 1000 < exp token;
  authentic_user : users db !! userId token = Some u;
  authentic_user_active : User.isActive u = true;
  authentic_user_not_deleted : User.isDeleted u = false;
  authentic_watermark : User.tokensInvalidBefore u ≤ iat token * 1000;
  authentic_account : accounts db !! User.account u = Some a;
  authentic_account_active : Account.isActive a = true;
  authentic_account_not_deleted : Account.isDeleted a = false
}.

(** The tenant filter after [requireOwnershipOrAdmin]: administrators
    keep the tenant filter, other users get the owner constraint. *)
Definition ownedFilter (aid uid : nat) (r : RoleName) : Filter :=
  if bool_decide (r = ADMIN) then tenantOnly aid
  else {| filter_account := Some aid; filter_user := Some uid |}.

(** ** A concrete scenario

    An environment at time [t] with transparent stand-ins for the
    external functions, and a tenant "acme" with its administrator. *)
Definition demoEnv (t : Z) : Env :=
  {| JWT_SECRET := "jwt-secret";
     JWT_EXPIRE := None;
     RAZORPAY_KEY_ID := "rzp_key";
     RAZORPAY_KEY_SECRET := "rzp_secret";
     hmac_sha256_hex := λ key body, String.append key (String.append ":" body);
     bcrypt_hash := λ password, String.append "hash:" password;
     bcrypt_compare := λ password hash,
       bool_decide (hash = String.append "hash:" password);
     slugify := JS.toLowerCase;
     randomString := λ _, "Temp0Pass1234";
     orders_create := λ _ _ _, Some "order_1";
     payments_fetch := λ _, Some {| gp_method := Some "card" |};
     textScore := λ _ _, None;
     clock := λ _, t |}.

Definition demoSignup : Request :=
  PostAuthSignup {| rg_email := "ann@acme.io"; rg_password := "secret1";
                    rg_name := "Ann"; rg_accountName := "Acme" |}.

(** The store after the tenant registers at time 1000. *)
Definition demoDb : Db := (handle (demoEnv 1000) empty_db demoSignup).2.

(** The token a login at time [t] hands out. *)
Definition demoToken (t : Z) : Token :=
  Helpers.generateToken (demoEnv t) t 0 0 ADMIN.

Definition bearer (token : Token) : Headers :=
  {| authorization := Some (Bearer (JwtSigned token)); cookie_token := None |}.

Definition demoNote : CreateNoteBody :=
  {| cn_title := Some "Groceries"; cn_description := None; cn_tags := TagsUndefined |}.

(** Three notes created by the administrator: the account is on the free
    plan, its [limit] is 3 and its [noteCount] is 3. *)
Definition demoDbFull : Db :=
  run demoDb [(demoEnv 3000, PostNotes (bearer (demoToken 2000)) demoNote);
              (demoEnv 4000, PostNotes (bearer (demoToken 2000)) demoNote);
              (demoEnv 5000, PostNotes (bearer (demoToken 2000)) demoNote)].

(** A context whose user, account and tenant are documents of the
    store: what every middleware chain hands to its handler. *)
Definition ctxOf (db : Db) (ctx : Ctx) : Prop :=
  ∃ uid u a t f,
    ctx = authedCtx db uid u a t f
    ∧ users db !! uid = Some u
    ∧ accounts db !! User.account u = Some a
    ∧ (∀ tid ta, t = Some (tid, ta) → accounts db !! tid = Some ta).

(** Every account has a non-negative note count. *)
Definition noteCountsNonNegative (db : Db) : Prop :=
  map_Forall (λ _ a, 0 ≤ Account.noteCount a) (accounts db).

(** Two stores that differ at most in their tags. *)
Definition sameButTags (db db' : Db) : Prop :=
  accounts db' = accounts db ∧ roles db' = roles db ∧ users db' = users db
  ∧ notes db' = notes db ∧ subscriptions db' = subscriptions db
  ∧ payments db' = payments db.

(** Two stores that differ at most in their notes and tags. *)
Definition sameButNotesAndTags (db db' : Db) : Prop :=
  accounts db' = accounts db ∧ roles db' = roles db ∧ users db' = users db
  ∧ subscriptions db' = subscriptions db ∧ payments db' = payments db.

Definition demoAccount : Account.doc :=
  {| Account.slug := "acme"; Account.plan := FREE; Account.limit := 3;
     Account.noteCount := 0; Account.currentSubscription := None;
     Account.isActive := true; Account.isDeleted := false |}.

(** A registration, a note creation and two deletions of that note: the
    second deletion finds the note already deleted. *)
Definition demoCreateDelete : list (Env * Request) :=
  [(demoEnv 1000, demoSignup);
   (demoEnv 3000, PostNotes (bearer (demoToken 2000)) demoNote);
   (demoEnv 4000, DeleteNote (bearer (demoToken 2000)) 0);
   (demoEnv 5000, DeleteNote (bearer (demoToken 2000)) 0)].

(** [s] is an active subscription of account [aid]. *)
Definition activeOf (aid : nat) (s : Subscription.doc) : Prop :=
  Subscription.account s = aid ∧ Subscription.status s = active.

(** The administrator's context for the demo tenant in store [db]. *)
Definition demoCtx (db : Db) : Ctx :=
  match tenantGuard (demoEnv 2000) db (bearer (demoToken 2000)) with
  | Next ctx => ctx
  | Reply _ => empty_ctx
  end.

(** The demo tenant after an upgrade order and its verified payment. *)
Definition demoVerify : VerifyBody :=
  {| razorpay_order_id := "order_1";
     razorpay_payment_id := "pay_1";
     razorpay_signature := "rzp_secret:order_1|pay_1";
     paymentId := Some 0%nat |}.

Definition demoDbOrdered : Db :=
  run demoDb [(demoEnv 6000, PostUpgrade (bearer (demoToken 2000)) "acme" None)].

Definition demoDbPro : Db :=
  run demoDbOrdered
    [(demoEnv 7000, PostVerifyPayment (bearer (demoToken 2000)) demoVerify)].

Definition demoAccountPro : Account.doc :=
  {| Account.slug := "acme"; Account.plan := PRO; Account.limit := -1;
     Account.noteCount := 0; Account.currentSubscription := Some 0%nat;
     Account.isActive := true; Account.isDeleted := false |}.

Definition demoSubscription : Subscription.doc :=
  {| Subscription.account := 0; Subscription.plan := PRO;
     Subscription.status := active; Subscription.startDate := 7000;
     Subscription.endDate := Some (7000 + oneYear);
     Subscription.cancelledAt := None |}.

(** ** Payment verification *)

(** The request passes the field check and names a pending payment of
    the account for the same gateway order: the lookup of
    [verifyPaymentAndUpgrade] finds the payment [p] with id [pid]. *)
Definition pendingPaymentFound (db : Db) (aid : nat) (body : VerifyBody)
    (pid : nat) (p : Payment.doc) : Prop :=
  paymentId body = Some pid
  ∧ JS.truthy (razorpay_order_id body) = true
  ∧ JS.truthy (razorpay_payment_id body) = true
  ∧ JS.truthy (razorpay_signature body) = true
  ∧ payments db !! pid = Some p
  ∧ Payment.account p = aid
  ∧ Payment.razorpayOrderId p = razorpay_order_id body
  ∧ Payment.status p = PENDING.

(** The supplied signature is the HMAC-SHA256 of [orderId|paymentId]
    under the shared secret. *)
Definition signatureMatches (env : Env) (body : VerifyBody) : Prop :=
  razorpay_signature body
  = hmac_sha256_hex env (RAZORPAY_KEY_SECRET env)
      (String.append (razorpay_order_id body)
         (String.append "|" (razorpay_payment_id body))).

Definition atMostOneActive (db : Db) (aid : nat) : Prop :=
  ∀ i j s s',
    subscriptions db !! i = Some s → activeOf aid s →
    subscriptions db !! j = Some s' → activeOf aid s' → i = j.

(** The state the specification promises after a verified payment, for
    the account [aid], the payment [pid] and the outcome [out] of the call
    made in store [db]. *)
Definition upgraded (env : Env) (db : Db) (aid pid : nat) (out : Response * Db)
  : Prop :=
  ∃ sid p' s' a',
    payments out.2 !! pid = Some p'
    ∧ Payment.status p' = SUCCESS
    ∧ Payment.subscription p' = Some sid
    ∧ subscriptions db !! sid = None
    ∧ subscriptions out.2 !! sid = Some s'
    ∧ activeOf aid s'
    ∧ Subscription.plan s' = PRO
    ∧ Subscription.startDate s' = clock env 2
    ∧ Subscription.endDate s' = Some (clock env 3 + oneYear)
    ∧ (∀ j s, subscriptions db !! j = Some s → activeOf aid s →
         ∃ s1, subscriptions out.2 !! j = Some s1
               ∧ Subscription.status s1 = cancelled
               ∧ is_Some (Subscription.cancelledAt s1))
    ∧ (∀ j s, subscriptions out.2 !! j = Some s → activeOf aid s → j = sid)
    ∧ accounts out.2 !! aid = Some a'
    ∧ Account.plan a' = PRO
    ∧ Account.limit a' = -1
    ∧ Account.currentSubscription a' = Some sid.

Definition demoPayment : Payment.doc :=
  {| Payment.account := 0; Payment.subscription := None;
     Payment.razorpayPaymentId := None; Payment.razorpayOrderId := "order_1";
     Payment.amount := 999; Payment.currency := "INR"; Payment.status := PENDING;
     Payment.method := Some "razorpay"; Payment.errorDescription := None;
     Payment.createdAt := 6000 |}.

Definition demoForged : VerifyBody :=
  {| razorpay_order_id := "order_1";
     razorpay_payment_id := "pay_1";
     razorpay_signature := "forged";
     paymentId := Some 0%nat |}.

(** The demo environment with the gateway failing to return payments. *)
Definition demoEnvGatewayDown (t : Z) : Env :=
  {| JWT_SECRET := JWT_SECRET (demoEnv t);
     JWT_EXPIRE := JWT_EXPIRE (demoEnv t);
     RAZORPAY_KEY_ID := RAZORPAY_KEY_ID (demoEnv t);
     RAZORPAY_KEY_SECRET := RAZORPAY_KEY_SECRET (demoEnv t);
     hmac_sha256_hex := hmac_sha256_hex (demoEnv t);
     bcrypt_hash := bcrypt_hash (demoEnv t);
     bcrypt_compare := bcrypt_compare (demoEnv t);
     slugify := slugify (demoEnv t);
     randomString := randomString (demoEnv t);
     orders_create := orders_create (demoEnv t);
     payments_fetch := λ _, None;
     textScore := textScore (demoEnv t);
     clock := clock (demoEnv t) |}.

(** The demo tenant with a second, active user "bob" holding the member
    role (role 1, user 1). *)
Definition demoMember : User.doc :=
  {| User.account := 0; User.email := "bob@acme.io";
     User.password := "hash:secret2"; User.name := "Bob"; User.role := 1;
     User.isActive := true; User.isDeleted := false;
     User.tokensInvalidBefore := 1000; User.lastLogin := None;
     User.lastIP := None |}.

Definition withMember (db : Db) : Db :=
  set_users (<[1%nat := demoMember]> (users db))
    (set_roles (<[1%nat := {| Role.account := 0; Role.roleName := MEMBER |}]>
                  (roles db)) db).

Definition demoDbTeam : Db := withMember demoDb.

Definition memberToken (t : Z) : Token :=
  Helpers.generateToken (demoEnv t) t 1 0 MEMBER.

Definition noHeaders : Headers :=
  {| authorization := None; cookie_token := None |}.

(** ** How documents may change

    [grows R m m']: every document of [m] is still in [m'], related to
    its old version by [R]. *)
Definition grows {A : Type} (R : A → A → Prop) (m m' : gmap nat A) : Prop :=
  ∀ i x, m !! i = Some x → ∃ x', m' !! i = Some x' ∧ R x x'.

Definition accountKeeps (a a' : Account.doc) : Prop :=
  Account.slug a' = Account.slug a
  ∧ Account.isActive a' = Account.isActive a
  ∧ Account.isDeleted a' = Account.isDeleted a.

Definition userKeeps (u u' : User.doc) : Prop :=
  User.account u' = User.account u
  ∧ User.email u' = User.email u
  ∧ User.name u' = User.name u
  ∧ User.role u' = User.role u
  ∧ User.isActive u' = User.isActive u
  ∧ User.isDeleted u' = User.isDeleted u.

Definition noteKeeps (n n' : Note.doc) : Prop :=
  Note.account n' = Note.account n
  ∧ Note.user n' = Note.user n
  ∧ Note.createdAt n' = Note.createdAt n
  ∧ (Note.isDeleted n = true → n' = n).

Definition subscriptionKeeps (s s' : Subscription.doc) : Prop :=
  Subscription.account s' = Subscription.account s
  ∧ Subscription.plan s' = Subscription.plan s
  ∧ Subscription.startDate s' = Subscription.startDate s
  ∧ Subscription.endDate s' = Subscription.endDate s
  ∧ (Subscription.status s ≠ active → s' = s)
  ∧ (s' = s ∨ Subscription.status s' = cancelled).

Definition paymentKeeps (p p' : Payment.doc) : Prop :=
  Payment.account p' = Payment.account p
  ∧ Payment.razorpayOrderId p' = Payment.razorpayOrderId p
  ∧ Payment.amount p' = Payment.amount p
  ∧ Payment.currency p' = Payment.currency p
  ∧ Payment.createdAt p' = Payment.createdAt p
  ∧ (Payment.status p ≠ PENDING → p' = p)
  ∧ (p' = p ∨ Payment.status p' = SUCCESS ∨ Payment.status p' = FAILED).

(** The store [db'] is a later version of [db]. *)
Definition evolves (db db' : Db) : Prop :=
  grows accountKeeps (accounts db) (accounts db')
  ∧ grows eq (roles db) (roles db')
  ∧ grows userKeeps (users db) (users db')
  ∧ grows noteKeeps (notes db) (notes db')
  ∧ grows eq (tags db) (tags db')
  ∧ grows subscriptionKeeps (subscriptions db) (subscriptions db')
  ∧ grows paymentKeeps (payments db) (payments db').

Definition demoPaymentDone : Payment.doc :=
  {| Payment.account := 0; Payment.subscription := Some 0%nat;
     Payment.razorpayPaymentId := Some "pay_1";
     Payment.razorpayOrderId := "order_1";
     Payment.amount := 999; Payment.currency := "INR"; Payment.status := SUCCESS;
     Payment.method := Some "card"; Payment.errorDescription := None;
     Payment.createdAt := 6000 |}.

(** Requests made after the upgrade: the same verification again, a
    cancellation, a new order. *)
Definition demoAfterUpgrade : list (Env * Request) :=
  [(demoEnv 8000, PostVerifyPayment (bearer (demoToken 2000)) demoVerify);
   (demoEnv 9000, PostCancel (bearer (demoToken 2000)));
   (demoEnv 9500, PostUpgrade (bearer (demoToken 2000)) "acme" None)].

Definition demoAdmin : User.doc :=
  {| User.account := 0; User.email := "ann@acme.io";
     User.password := "hash:secret1"; User.name := "Ann"; User.role := 0;
     User.isActive := true; User.isDeleted := false;
     User.tokensInvalidBefore := 1000; User.lastLogin := None;
     User.lastIP := None |}.

Definition demoStoredNote : Note.doc :=
  {| Note.account := 0; Note.user := 0; Note.title := "Groceries";
     Note.description := ""; Note.tags := []; Note.isDeleted := false;
     Note.createdAt := 3000 |}.

Definition demoDbNote : Db :=
  run demoDb [(demoEnv 3000, PostNotes (bearer (demoToken 2000)) demoNote)].

Definition demoDbDeleted : Db :=
  run demoDbNote [(demoEnv 4000, DeleteNote (bearer (demoToken 2000)) 0)].

Definition demoRename : UpdateNoteBody :=
  {| un_title := Some "Shopping"; un_description := None; un_tags := TagsUndefined |}.

Definition demoAfterDelete : list (Env * Request) :=
  [(demoEnv 5000, PutNote (bearer (demoToken 2000)) 0 demoRename);
   (demoEnv 6000, DeleteNote (bearer (demoToken 2000)) 0);
   (demoEnv 7000, PostNotes (bearer (demoToken 2000)) demoNote)].

(** ** Coherence of plan and subscriptions

    An account on the free plan has the free quota, no current
    subscription and no active subscription; an account on the pro plan
    is unlimited and its current subscription is its one active
    subscription. Every subscription belongs to a stored account. *)
Definition planCoherentAt (db : Db) (aid : nat) (a : Account.doc) : Prop :=
  match Account.plan a with
  | FREE =>
    Account.limit a = Account.default_limit
    ∧ Account.currentSubscription a = None
    ∧ ∀ sid s, subscriptions db !! sid = Some s → ¬ activeOf aid s
  | PRO =>
    Account.limit a = -1
    ∧ ∃ sid s,
        Account.currentSubscription a = Some sid
        ∧ subscriptions db !! sid = Some s
        ∧ activeOf aid s
        ∧ ∀ sid' s', subscriptions db !! sid' = Some s' → activeOf aid s' →
                     sid' = sid
  end.

Definition planCoherent (db : Db) : Prop :=
  (∀ aid a, accounts db !! aid = Some a → planCoherentAt db aid a)
  ∧ (∀ sid s, subscriptions db !! sid = Some s →
              is_Some (accounts db !! Subscription.account s)).

(** The subscription [verifyPaymentAndUpgrade] creates. *)
Definition newSubscription (env : Env) (aid : nat) : Subscription.doc :=
  {| Subscription.account := aid; Subscription.plan := PRO;
     Subscription.status := active; Subscription.startDate := clock env 2;
     Subscription.endDate := Some (clock env 3 + oneYear);
     Subscription.cancelledAt := None |}.

(** The subscriptions after the active one of [aid], if any, has been
    cancelled at time [now]. *)
Definition cancelActive (now : Z) (aid : nat) (subs : gmap nat Subscription.doc)
  : gmap nat Subscription.doc :=
  match Store.findOne (isActiveOf aid) subs with
  | Some (sid0, s0) => <[sid0 := Subscription.cancel now s0]> subs
  | None => subs
  end.

(** ** Well-formed tags

    Every stored tag name is non-empty, at most 50 characters long and
    in normal form (lower case, trimmed), and no two tags of an account
    have the same name. *)
Definition tagsWellFormed (db : Db) : Prop :=
  (∀ i t, tags db !! i = Some t →
     Tag.tagName t = normalized (Tag.tagName t)
     ∧ JS.truthy (Tag.tagName t) = true
     ∧ JS.length (Tag.tagName t) ≤ 50)
  ∧ (∀ i j t t', tags db !! i = Some t → tags db !! j = Some t' →
       Tag.account t = Tag.account t' → Tag.tagName t = Tag.tagName t' → i = j).

(** Every tag a note refers to is a stored tag of the note's account. *)
Definition noteTagsScoped (db : Db) : Prop :=
  ∀ i n, notes db !! i = Some n →
    ∀ t, t ∈ Note.tags n →
      ∃ tg, tags db !! t = Some tg ∧ Tag.account tg = Note.account n.

(** ** Note handlers, as changes of the store *)

(** The tag names [createNote] iterates over. *)
Definition tagInputs (f : TagsField) : list (option string) :=
  match f with
  | TagsArray l => l
  | TagsString s => chars s
  | TagsUndefined | TagsOther => []
  end.

(** The note [createNote] saves. *)
Definition noteToCreate (env : Env) (aid uid : nat) (title : string)
    (body : CreateNoteBody) (tagIds : list nat) : Note.doc :=
  {| Note.account := aid; Note.user := uid; Note.title := JS.trim title;
     Note.description :=
       match cn_description body with
       | Some d => if JS.truthy d then JS.trim d else ""
       | None => ""
       end;
     Note.tags := tagIds; Note.isDeleted := false;
     Note.createdAt := clock env 1 |}.

(** The number of notes of account [aid] that are not deleted. *)
Definition liveNotes (aid : nat) (m : gmap nat Note.doc) : nat :=
  size (filter (λ kv : nat * Note.doc,
                  Note.account kv.2 = aid ∧ Note.isDeleted kv.2 = false) m).

(** Every account's note count is the number of its live notes, and
    every note belongs to a stored account. *)
Definition noteCountsAccurate (db : Db) : Prop :=
  (∀ aid a, accounts db !! aid = Some a →
     Account.noteCount a = Z.of_nat (liveNotes aid (notes db)))
  ∧ (∀ i n, notes db !! i = Some n → is_Some (accounts db !! Note.account n)).


(** One when the note counts as a live note of account [aid]. *)
Definition live (aid : nat) (n : Note.doc) : nat :=
  if decide (Note.account n = aid ∧ Note.isDeleted n = false) then 1%nat else 0%nat.

(** The context of a notes route: the authenticated user of a stored
    account, with a tenant filter that pins that account. *)
Definition scopedCtx (db : Db) (ctx : Ctx) : Prop :=
  ∃ uid u a r f,
    ctx = authedCtx db uid u a None (Some f)
    ∧ users db !! uid = Some u
    ∧ accounts db !! User.account u = Some a
    ∧ roles db !! User.role u = Some r
    ∧ filter_account f = Some (User.account u).





(** The note [n] stored under [id] is one the user [uid] may address by
    id: it is not deleted, it belongs to the user's account, and the user
    is an administrator or its author. *)
Definition visibleTo (db : Db) (uid : nat) (u : User.doc) (r : Role.doc)
    (id : nat) (n : Note.doc) : Prop :=
  notes db !! id = Some n
  ∧ Note.isDeleted n = false
  ∧ Note.account n = User.account u
  ∧ (Role.roleName r = ADMIN ∨ Note.user n = uid).





Definition demoNewPassword : ChangePasswordBody :=
  {| currentPassword := "secret1"; newPassword := "secret22" |}.




(** An invitation sent by the administrator of the demo tenant. *)
Definition demoInvite : InviteBody :=
  {| iv_email := "Bob@Acme.io"; iv_name := "Bob"; iv_role := RoleUndefined |}.

Definition demoDbInvited : Db :=
  run demoDb [(demoEnv 2500, PostAuthInvite (bearer (demoToken 2000)) demoInvite)].

Definition demoInvited : User.doc :=
  {| User.account := 0; User.email := "bob@acme.io";
     User.password := "hash:Temp0Pass1234"; User.name := "Bob"; User.role := 1;
     User.isActive := false; User.isDeleted := false;
     User.tokensInvalidBefore := 2500; User.lastLogin := None;
     User.lastIP := None |}.



Definition adminRoleOf (aid : nat) : Role.doc :=
  {| Role.account := aid; Role.roleName := ADMIN |}.



(** The first page of at most ten notes, without search or tag filter. *)
Definition demoQuery : ListQuery :=
  {| q_page := 1; q_limit := 10; q_search := None; q_tags := NoTags |}.





(** * Properties *)

(** ** The store *)

Section StoreFacts.
Context {A : Type}.
Implicit Types (c : gmap nat A) (q : nat → A → bool).

Lemma findOne_Some q c i d :
  Store.findOne q c = Some (i, d) → c !! i = Some d ∧ q i d = true.
Proof.
  unfold Store.findOne. intros H. apply find_some in H as [Hin Hq].
  split; [|done]. by apply elem_of_map_to_list, list_elem_of_In.
Qed.

Lemma findOne_None q c i d :
  Store.findOne q c = None → c !! i = Some d → q i d = false.
Proof.
  unfold Store.findOne. intros H Hl.
  apply (find_none _ _ H (i, d)).
  by apply list_elem_of_In, elem_of_map_to_list.
Qed.

Lemma findOne_is_Some q c i d :
  c !! i = Some d → q i d = true → is_Some (Store.findOne q c).
Proof.
  intros Hl Hq. destruct (Store.findOne q c) eqn:E; [eauto|].
  rewrite (findOne_None _ _ _ _ E Hl) in Hq. done.
Qed.


Lemma newId_fresh c : c !! Store.newId c = None.
Proof. apply not_elem_of_dom, is_fresh. Qed.

Lemma findById_Some i c j d :
  Store.findById i c = Some (j, d) ↔ j = i ∧ c !! i = Some d.
Proof.
  unfold Store.findById. destruct (c !! i); naive_solver.
Qed.


End StoreFacts.

(** ** Strings *)

Section Strings.
Implicit Types (s t acc : string) (c : ascii).

Lemma lower_ascii_idem c : JS.lower_ascii (JS.lower_ascii c) = JS.lower_ascii c.
Proof. by destruct c as [[] [] [] [] [] [] [] []]. Qed.

Lemma is_space_lower_ascii c : Ascii.is_space (JS.lower_ascii c) = Ascii.is_space c.
Proof. by destruct c as [[] [] [] [] [] [] [] []]. Qed.

Lemma toLowerCase_idem s : JS.toLowerCase (JS.toLowerCase s) = JS.toLowerCase s.
Proof. induction s; simpl; [done|]. by rewrite lower_ascii_idem, IHs. Qed.

Lemma toLowerCase_rev_app s acc :
  JS.toLowerCase (String.rev_app s acc)
  = String.rev_app (JS.toLowerCase s) (JS.toLowerCase acc).
Proof. revert acc. induction s; intros acc; simpl; [done|]. by rewrite IHs. Qed.

Lemma toLowerCase_trimStart s :
  JS.toLowerCase (JS.trimStart s) = JS.trimStart (JS.toLowerCase s).
Proof.
  induction s as [|c s IH]; simpl; [done|].
  rewrite is_space_lower_ascii. by destruct (Ascii.is_space c).
Qed.

Lemma toLowerCase_trim s : JS.toLowerCase (JS.trim s) = JS.trim (JS.toLowerCase s).
Proof.
  unfold JS.trim, JS.trimEnd, String.rev.
  by rewrite !toLowerCase_rev_app, !toLowerCase_trimStart, !toLowerCase_rev_app,
    !toLowerCase_trimStart.
Qed.

Lemma trimStart_trimmed s : trimmedStart (JS.trimStart s).
Proof.
  induction s as [|c s IH]; simpl; [done|].
  destruct (Ascii.is_space c) eqn:E; [done|]. by simpl.
Qed.

Lemma trimStart_id s : trimmedStart s → JS.trimStart s = s.
Proof. destruct s; simpl; [done|]. by intros ->. Qed.

Lemma append_empty_r s : String.append s "" = s.
Proof.
  induction s as [|c s IH]; [done|].
  change (String c (String.append s "") = String c s). by rewrite IH.
Qed.

Lemma rev_app_rev_app s acc t :
  String.rev_app (String.rev_app s acc) t = String.rev_app acc (String.append s t).
Proof.
  revert acc. induction s as [|c s IH]; intros acc; [done|].
  change (String.rev_app (String.rev_app s (String c acc)) t
          = String.rev_app (String c acc) (String.append s t)).
  by rewrite IH.
Qed.

Lemma rev_involutive s : String.rev (String.rev s) = s.
Proof. unfold String.rev. by rewrite rev_app_rev_app, append_empty_r. Qed.

Lemma rev_app_append s t acc :
  String.rev_app (String.append s t) acc = String.rev_app t (String.rev_app s acc).
Proof.
  revert acc. induction s as [|c s IH]; intros acc; [done|].
  change (String.rev_app (String.append s t) (String c acc)
          = String.rev_app t (String.rev_app s (String c acc))).
  by rewrite IH.
Qed.

Lemma trimStart_rev_app x s acc :
  trimmedStart x →
  (∃ a, acc = String.rev_app a x) →
  (∃ a', JS.trimStart acc = String.rev_app a' x) →
  ∃ a', JS.trimStart (String.rev_app s acc) = String.rev_app a' x.
Proof.
  intros Hx. revert acc. induction s as [|k s IH]; intros acc Hacc Htrim; simpl.
  - done.
  - apply IH.
    + destruct Hacc as [a ->]. exists (String.append a (String k "")).
      by rewrite rev_app_append.
    + simpl. destruct (Ascii.is_space k); [done|].
      destruct Hacc as [a ->]. exists (String.append a (String k "")).
      by rewrite rev_app_append.
Qed.


Lemma trimEnd_trimmed s : trimmedStart s → trimmedStart (JS.trimEnd s).
Proof.
  destruct s as [|c s]; [done|]. intros Hc. unfold JS.trimEnd, String.rev. simpl.
  destruct (trimStart_rev_app (String c "") s (String c "")) as [a' ->].
  - done.
  - by exists "".
  - exists "". simpl in *. by rewrite Hc.
  - rewrite rev_app_rev_app. done.
Qed.

Lemma trim_idem s : JS.trim (JS.trim s) = JS.trim s.
Proof.
  unfold JS.trim.
  rewrite (trimStart_id (JS.trimEnd _)) by apply trimEnd_trimmed, trimStart_trimmed.
  unfold JS.trimEnd. rewrite rev_involutive.
  by rewrite (trimStart_id (JS.trimStart _)) by apply trimStart_trimmed.
Qed.

Lemma trim_empty_truthy s : JS.truthy (JS.trim s) = false → JS.trim s = "".
Proof. by destruct (JS.trim s). Qed.
End Strings.

(** ** The middleware chain *)

Lemma authenticate_Next env db h c0 ctx :
  authenticate env db h c0 = Next ctx →
  ∃ token u a,
    Authentic env db h token u a
    ∧ ctx = authedCtx db (userId token) u a (req_tenant c0) (req_tenantFilter c0).
Proof.
  unfold authenticate, Helpers.jwt_verify, populate_user. intros H.
  destruct (extractToken h) as [[| |token]|] eqn:Htok; try done.
  destruct (bool_decide (signedWith token = JWT_SECRET env)) eqn:Hsig; simpl in H;
    [|done].
  destruct (exp token <=? clock env 0 / 1000) eqn:Hexp; [done|].
  destruct (users db !! userId token) as [u|] eqn:Hu; [|done].
  destruct (User.isActive u) eqn:Hact; [|done].
  destruct (User.isDeleted u) eqn:Hdel; [done|]. simpl in H.
  destruct (iat token * 1000 <? User.tokensInvalidBefore u) eqn:Hw; [done|].
  unfold Store.findById in H.
  destruct (accounts db !! User.account u) as [a|] eqn:Ha; [|done].
  destruct (Account.isActive a) eqn:Haa; [|done].
  destruct (Account.isDeleted a) eqn:Had; [done|]. simpl in H.
  exists token, u, a. split.
  - apply bool_decide_eq_true in Hsig. split; try done; lia.
  - unfold authedCtx, populate_user, Store.findById. rewrite Ha. congruence.
Qed.

Lemma authenticate_Reply env db h c0 r :
  authenticate env db h c0 = Reply r → statusCode r = 401.
Proof.
  unfold authenticate. intros H.
  repeat case_match; simplify_eq; done.
Qed.

Lemma authenticate_Authentic env db h c0 token u a :
  Authentic env db h token u a →
  authenticate env db h c0
  = Next (authedCtx db (userId token) u a (req_tenant c0) (req_tenantFilter c0)).
Proof.
  intros [Htok Hsig Hexp Hu Hact Hdel Hw Ha Haa Had].
  unfold authenticate, Helpers.jwt_verify. rewrite Htok.
  rewrite (bool_decide_eq_true_2 _ Hsig). simpl.
  destruct (exp token <=? clock env 0 / 1000) eqn:E; [lia|].
  rewrite Hu, Hact, Hdel. simpl.
  destruct (iat token * 1000 <? User.tokensInvalidBefore u) eqn:E'; [lia|].
  unfold Store.findById. rewrite Ha, Haa, Had. simpl.
  unfold authedCtx, populate_user, Store.findById. by rewrite Ha.
Qed.

Lemma tenantGuard_Next env db h ctx :
  tenantGuard env db h = Next ctx →
  ∃ token u a,
    Authentic env db h token u a
    ∧ ctx = authedCtx db (userId token) u a None (Some (tenantOnly (User.account u))).
Proof.
  unfold tenantGuard. intros H.
  destruct (authenticate env db h empty_ctx) as [r|c1] eqn:Hauth; [done|].
  apply authenticate_Next in Hauth as (token & u & a & HA & ->).
  exists token, u, a. split; [done|].
  assert (Ha := authentic_account _ _ _ _ _ _ HA).
  assert (Haa := authentic_account_active _ _ _ _ _ _ HA).
  assert (Had := authentic_account_not_deleted _ _ _ _ _ _ HA).
  revert H. unfold mbind, Outcome_bind, andThen, ensureTenantIsolation,
    checkAccountStatus, account_or_tenant, authedCtx, populate_user,
    Store.findById; simpl.
  rewrite Ha. simpl. rewrite Haa, Had. simpl. by intros [= <-].
Qed.

Lemma tenantGuard_Reply env db h r :
  tenantGuard env db h = Reply r → statusCode r = 401.
Proof.
  unfold tenantGuard. intros H.
  destruct (authenticate env db h empty_ctx) as [r1|c1] eqn:Hauth.
  - simpl in H. simplify_eq. by eapply authenticate_Reply.
  - apply authenticate_Next in Hauth as (token & u & a & HA & ->).
    assert (Ha := authentic_account _ _ _ _ _ _ HA).
    assert (Haa := authentic_account_active _ _ _ _ _ _ HA).
    assert (Had := authentic_account_not_deleted _ _ _ _ _ _ HA).
    revert H. unfold mbind, Outcome_bind, andThen, ensureTenantIsolation,
      checkAccountStatus, account_or_tenant, authedCtx, populate_user,
      Store.findById; simpl.
    rewrite Ha. simpl. rewrite Haa, Had. done.
Qed.

Lemma notesGuard_tenantGuard env db h : notesGuard env db h = tenantGuard env db h.
Proof. reflexivity. Qed.

Lemma requireMember_authed db uid u a t f :
  requireMember (authedCtx db uid u a t f)
  = match roles db !! User.role u with
    | Some _ => Next (authedCtx db uid u a t f)
    | None => Reply (sendError 401 "Authentication required")
    end.
Proof.
  unfold requireMember, authedCtx, populate_user, Store.findById; simpl.
  destruct (roles db !! User.role u) as [[ra []]|]; done.
Qed.

Lemma requireAdmin_authed db uid u a t f :
  requireAdmin (authedCtx db uid u a t f)
  = match roles db !! User.role u with
    | Some r =>
      if bool_decide (Role.roleName r = ADMIN) then Next (authedCtx db uid u a t f)
      else Reply (sendError 403 "Access denied - admin role required")
    | None => Reply (sendError 401 "Authentication required")
    end.
Proof.
  unfold requireAdmin, requireRole, authedCtx, populate_user, Store.findById; simpl.
  destruct (roles db !! User.role u) as [[ra []]|]; done.
Qed.

Lemma requireOwnershipOrAdmin_authed db uid u a t aid :
  requireOwnershipOrAdmin (authedCtx db uid u a t (Some (tenantOnly aid)))
  = match roles db !! User.role u with
    | Some r =>
      Next (authedCtx db uid u a t (Some (ownedFilter aid uid (Role.roleName r))))
    | None => Reply (sendError 401 "Authentication required")
    end.
Proof.
  unfold requireOwnershipOrAdmin, authedCtx, populate_user, Store.findById,
    ownedFilter; simpl.
  destruct (roles db !! User.role u) as [[ra []]|]; done.
Qed.

(** ** The note quota gate *)

(** The gate reads the plan table, never the account's own [limit]. *)
Lemma checkNoteLimit_spec ctx i a :
  req_account ctx = Some (i, a) →
  checkNoteLimit ctx
  = match Account.plan a with
    | PRO => Next ctx
    | FREE =>
      if 20 <=? Account.noteCount a then
        Reply (sendResponse 403 false "Note limit exceeded for your current plan"
                 (LimitDetails FREE (Account.noteCount a) 20 true))
      else Next ctx
    end.
Proof.
  intros H. unfold checkNoteLimit. rewrite H. by destruct (Account.plan a) eqn:E.
Qed.

(** C3 (the code at the failing input): an account on the free plan
    whose quota [limit] is 3 and which already holds 3 notes is reported
    as unable to create a note by its [canCreateNote] virtual, yet the
    gate lets the fourth creation through: the request is answered 201
    and the count becomes 4. *)
Theorem gate_passes_beyond_account_limit :
  let request := PostNotes (bearer (demoToken 2000)) demoNote in
  (∃ a, accounts demoDbFull !! 0%nat = Some a
        ∧ Account.plan a = FREE ∧ Account.limit a = 3 ∧ Account.noteCount a = 3
        ∧ Account.canCreateNote a = false)
  ∧ statusCode (handle (demoEnv 6000) demoDbFull request).1 = 201
  ∧ (∃ a, accounts (handle (demoEnv 6000) demoDbFull request).2 !! 0%nat = Some a
          ∧ Account.noteCount a = 4).
Proof.
  split; [|split].
  - eexists. split; [vm_compute; reflexivity|]. by vm_compute.
  - by vm_compute.
  - eexists. split; [vm_compute; reflexivity|]. by vm_compute.
Qed.

(** ** Contexts built by the chains *)

Lemma bind_Next {A B} (m : Outcome A) (k : A → Outcome B) b :
  m ≫= k = Next b → ∃ a, m = Next a ∧ k a = Next b.
Proof. destruct m as [r|a]; [done|]. intros H. by exists a. Qed.

Lemma bind_Reply {A B} (m : Outcome A) (k : A → Outcome B) r :
  m ≫= k = Reply r → m = Reply r ∨ ∃ a, m = Next a ∧ k a = Reply r.
Proof.
  destruct m as [r'|a]; intros H; [left; by injection H as ->|].
  right. by exists a.
Qed.

Lemma serve_Reply {A} db (chain : Outcome A) handler r :
  chain = Reply r → serve db chain handler = (r, db).
Proof. by intros ->. Qed.

Lemma serve_Next {A} db (chain : Outcome A) handler a :
  chain = Next a → serve db chain handler = handler a.
Proof. by intros ->. Qed.

Lemma authenticate_ctxOf env db h ctx :
  authenticate env db h empty_ctx = Next ctx → ctxOf db ctx.
Proof.
  intros (token & u & a & HA & ->)%authenticate_Next.
  exists (userId token), u, a, None, None. destruct HA. by repeat split.
Qed.

(** Rewrites with the lookups known from the hypotheses. *)
Ltac rewrite_lookups :=
  repeat match goal with
         | H : ?l = Some _ |- context [?l] => rewrite H
         | H : ?l = None |- context [?l] => rewrite H
         end.

(** A middleware that only lets the request through or adjusts the
    tenant filter keeps the context one of the store. *)
Ltac ctxOf_step :=
  let H := fresh in
  intros (uid & u & a & t & f & -> & Hu & Ha & Ht) H;
  revert H; unfold authedCtx, populate_user, Store.findById; simpl;
  rewrite ?Ha; simpl; intros H;
  repeat case_match; simplify_eq/=;
  eexists uid, u, a, _, _;
  (split; [unfold authedCtx, populate_user, Store.findById; rewrite_lookups;
           reflexivity|]);
  repeat split; try done.

Lemma ensureTenantIsolation_ctxOf db ctx ctx' :
  ctxOf db ctx → ensureTenantIsolation ctx = Next ctx' → ctxOf db ctx'.
Proof. unfold ensureTenantIsolation. ctxOf_step. Qed.

Lemma checkAccountStatus_ctxOf db ctx ctx' :
  ctxOf db ctx → checkAccountStatus ctx = Next ctx' → ctxOf db ctx'.
Proof. unfold checkAccountStatus, account_or_tenant. ctxOf_step. Qed.

Lemma requireMember_ctxOf db ctx ctx' :
  ctxOf db ctx → requireMember ctx = Next ctx' → ctxOf db ctx'.
Proof. unfold requireMember. ctxOf_step. Qed.

Lemma requireAdmin_ctxOf db ctx ctx' :
  ctxOf db ctx → requireAdmin ctx = Next ctx' → ctxOf db ctx'.
Proof. unfold requireAdmin, requireRole. ctxOf_step. Qed.

Lemma requireOwnershipOrAdmin_ctxOf db ctx ctx' :
  ctxOf db ctx → requireOwnershipOrAdmin ctx = Next ctx' → ctxOf db ctx'.
Proof. unfold requireOwnershipOrAdmin. ctxOf_step. Qed.

Lemma checkNoteLimit_ctxOf db ctx ctx' :
  ctxOf db ctx → checkNoteLimit ctx = Next ctx' → ctxOf db ctx'.
Proof. unfold checkNoteLimit. ctxOf_step. Qed.

Lemma checkUpgradeEligibility_ctxOf db ctx ctx' :
  ctxOf db ctx → checkUpgradeEligibility ctx = Next ctx' → ctxOf db ctx'.
Proof. unfold checkUpgradeEligibility, account_or_tenant. ctxOf_step. Qed.

Lemma attachSubscriptionInfo_ctxOf db ctx ctx' :
  ctxOf db ctx → attachSubscriptionInfo ctx = Next ctx' → ctxOf db ctx'.
Proof. unfold attachSubscriptionInfo. ctxOf_step. Qed.

Lemma validateTenantSlug_ctxOf db slug ctx ctx' :
  ctxOf db ctx → validateTenantSlug db slug ctx = Next ctx' → ctxOf db ctx'.
Proof.
  unfold validateTenantSlug.
  intros (uid & u & a & t & f & -> & Hu & Ha & Ht) H.
  revert H; unfold authedCtx, populate_user, Store.findById; simpl.
  rewrite Ha; simpl; intros H.
  repeat case_match; simplify_eq/=;
    match goal with H : Store.findOne _ _ = Some _ |- _ =>
      apply findOne_Some in H as [Hl _] end;
    eexists uid, u, a, _, _;
    (split; [unfold authedCtx, populate_user, Store.findById; rewrite_lookups;
             reflexivity|]);
    repeat split; try done; by intros ?? [= <- <-].
Qed.

(** Splits a chain that let the request through into its stages. *)
Ltac chain_Next H :=
  repeat match goal with
         | H' : _ ≫= _ = Next _ |- _ =>
           let c := fresh "c" in
           let H1 := fresh "Hstage" in
           apply bind_Next in H' as (c & H1 & H'); cbv beta in H'
         end.

(** Carries [ctxOf] forward through the stages of a chain. *)
Ltac ctx_forward :=
  repeat match goal with
         | H : authenticate _ _ _ empty_ctx = Next _ |- _ =>
           apply authenticate_ctxOf in H
         | Hc : ctxOf ?db ?c, H : ensureTenantIsolation ?c = Next _ |- _ =>
           apply (ensureTenantIsolation_ctxOf _ _ _ Hc) in H
         | Hc : ctxOf ?db ?c, H : checkAccountStatus ?c = Next _ |- _ =>
           apply (checkAccountStatus_ctxOf _ _ _ Hc) in H
         | Hc : ctxOf ?db ?c, H : requireMember ?c = Next _ |- _ =>
           apply (requireMember_ctxOf _ _ _ Hc) in H
         | Hc : ctxOf ?db ?c, H : requireAdmin ?c = Next _ |- _ =>
           apply (requireAdmin_ctxOf _ _ _ Hc) in H
         | Hc : ctxOf ?db ?c, H : requireOwnershipOrAdmin ?c = Next _ |- _ =>
           apply (requireOwnershipOrAdmin_ctxOf _ _ _ Hc) in H
         | Hc : ctxOf ?db ?c, H : checkNoteLimit ?c = Next _ |- _ =>
           apply (checkNoteLimit_ctxOf _ _ _ Hc) in H
         | Hc : ctxOf ?db ?c, H : checkUpgradeEligibility ?c = Next _ |- _ =>
           apply (checkUpgradeEligibility_ctxOf _ _ _ Hc) in H
         | Hc : ctxOf ?db ?c, H : attachSubscriptionInfo ?c = Next _ |- _ =>
           apply (attachSubscriptionInfo_ctxOf _ _ _ Hc) in H
         | Hc : ctxOf ?db ?c, H : validateTenantSlug ?db _ ?c = Next _ |- _ =>
           apply (validateTenantSlug_ctxOf _ _ _ _ Hc) in H
         end.

Lemma tenantGuard_ctxOf env db h ctx :
  tenantGuard env db h = Next ctx → ctxOf db ctx.
Proof. unfold tenantGuard. intros H. chain_Next H. by ctx_forward. Qed.

(** ** Tag resolution touches only the tags *)

Lemma sameButTags_refl db : sameButTags db db.
Proof. by repeat split. Qed.

Lemma sameButTags_trans db1 db2 db3 :
  sameButTags db1 db2 → sameButTags db2 db3 → sameButTags db1 db3.
Proof.
  intros (?&?&?&?&?&?) (?&?&?&?&?&?). repeat split; congruence.
Qed.

Lemma findOrCreate_frame account tagName db i db' :
  findOrCreate account tagName db = Some (i, db') → sameButTags db db'.
Proof.
  unfold findOrCreate, Store.create. intros H.
  repeat case_match; simplify_eq/=; by repeat split.
Qed.

Lemma resolveTags_frame account names tagIds db :
  sameButTags db (resolveTags account names tagIds db).2.
Proof.
  revert tagIds db. induction names as [|[tagName|] names IH]; intros tagIds db;
    simpl; [apply sameButTags_refl| |apply IH].
  destruct (JS.truthy (JS.trim tagName)); [|apply IH].
  destruct account as [aid|]; [|apply sameButTags_refl].
  destruct (findOrCreate aid (JS.trim tagName) db) as [[i db']|] eqn:E;
    [|apply sameButTags_refl].
  eapply sameButTags_trans; [by eapply findOrCreate_frame|apply IH].
Qed.

(** ** The note count never goes below zero *)

Lemma incrementNoteCount_count a db :
  Account.noteCount (incrementNoteCount a db).1.2 = Account.noteCount a.2 + 1.
Proof. reflexivity. Qed.

Lemma decrementNoteCount_count a db :
  Account.noteCount (decrementNoteCount a db).1.2
  = if 0 <? Account.noteCount a.2 then Account.noteCount a.2 - 1
    else Account.noteCount a.2.
Proof. unfold decrementNoteCount. by destruct (0 <? Account.noteCount a.2). Qed.

Lemma decrementNoteCount_zero a db :
  Account.noteCount a.2 ≤ 0 → decrementNoteCount a db = (a, db).
Proof.
  intros H. unfold decrementNoteCount.
  destruct (0 <? Account.noteCount a.2) eqn:E; [lia|done].
Qed.

Lemma noteCounts_save db i a :
  0 ≤ Account.noteCount a → noteCountsNonNegative db →
  noteCountsNonNegative (set_accounts (Store.save i a (accounts db)) db).
Proof. intros Ha Hdb. by apply map_Forall_insert_2. Qed.

Lemma noteCounts_same db db' :
  accounts db' = accounts db → noteCountsNonNegative db → noteCountsNonNegative db'.
Proof. unfold noteCountsNonNegative. by intros ->. Qed.

Lemma ctxOf_account_count db ctx i a :
  ctxOf db ctx → noteCountsNonNegative db → req_account ctx = Some (i, a) →
  0 ≤ Account.noteCount a.
Proof.
  intros (uid & u & a' & t & f & -> & Hu & Ha & Ht) Hdb [= <- <-].
  by apply (Hdb _ _ Ha).
Qed.

Lemma createNote_noteCounts env db ctx body :
  ctxOf db ctx → noteCountsNonNegative db →
  noteCountsNonNegative (createNote env db ctx body).2.
Proof.
  intros Hctx Hdb. unfold createNote.
  destruct (cn_title body) as [[|c title]|]; try done.
  match goal with |- context [resolveTags ?x ?y ?z ?w] =>
    pose proof (resolveTags_frame x y z w) as Hframe;
    destruct (resolveTags x y z w) as [[tagIds|] db1] end;
    destruct Hframe as (Hacc & _); simpl in *;
    [|by eapply noteCounts_same].
  destruct (req_user ctx) as [user|]; [|by eapply noteCounts_same].
  destruct (req_account ctx) as [[aid a]|] eqn:Hreq; [|by eapply noteCounts_same].
  case_match; [|by eapply noteCounts_same].
  unfold Store.create, incrementNoteCount. simpl.
  apply map_Forall_insert_2; simpl.
  - pose proof (ctxOf_account_count _ _ _ _ Hctx Hdb Hreq). lia.
  - by rewrite Hacc.
Qed.

Lemma deleteNote_noteCounts db ctx id :
  ctxOf db ctx → noteCountsNonNegative db →
  noteCountsNonNegative (deleteNote db ctx id).2.
Proof.
  intros Hctx Hdb. unfold deleteNote.
  repeat case_match; simplify_eq/=; try done.
  match goal with H : decrementNoteCount _ _ = _ |- _ =>
    revert H; unfold decrementNoteCount end.
  match goal with H : req_account ctx = Some ?p |- _ =>
    destruct p as [aid a];
    pose proof (ctxOf_account_count _ _ _ _ Hctx Hdb H) end.
  simpl. case_match; intros [= <- <-]; [|done].
  apply map_Forall_insert_2; simpl; [lia|done].
Qed.

Lemma sameButTags_notes db db' :
  sameButTags db db' → sameButNotesAndTags db db'.
Proof. intros (?&?&?&?&?&?). by repeat split. Qed.

Lemma updateNote_frame db ctx id body :
  sameButNotesAndTags db (updateNote db ctx id body).2.
Proof.
  unfold updateNote.
  destruct (findNote id (tenantFilter_or_empty ctx) db) as [[nid note]|];
    [|by repeat split].
  destruct (req_user ctx) as [user|]; [|by repeat split].
  destruct (notOwnerNorAdmin user note) as [[]|]; try by repeat split.
  destruct (un_title body) as [title|];
    [destruct (negb (JS.truthy (JS.trim title))); [by repeat split|]|].
  all: destruct (un_tags body) as [|l|s|]; simpl;
    try (case_match; by repeat split).
  all: pose proof (resolveTags_frame (fst <$> user_account user) l [] db) as Hf;
    apply sameButTags_notes in Hf;
    destruct (resolveTags (fst <$> user_account user) l [] db) as [[tagIds|] db1];
    simpl in *; [case_match; simpl|]; done.
Qed.

Lemma verifyPaymentAndUpgrade_noteCounts env db ctx body :
  ctxOf db ctx → noteCountsNonNegative db →
  noteCountsNonNegative (verifyPaymentAndUpgrade env db ctx body).2.
Proof.
  intros Hctx Hdb. unfold verifyPaymentAndUpgrade.
  destruct (paymentId body) as [pid|]; [|done].
  case_match; [done|].
  destruct (req_account ctx) as [[aid a]|] eqn:Hreq; [|done].
  pose proof (ctxOf_account_count _ _ _ _ Hctx Hdb Hreq) as Hcount.
  case_match; [|done]. destruct p as [pid' payment].
  case_match; [done|].
  case_match; [|done].
  case_match; [done|].
  unfold Store.create, upgradeToPro, Store.save. simpl.
  repeat (apply map_Forall_insert_2; simpl; [done|]).
  case_match; [case_match|]; done.
Qed.

Lemma cancelSubscription_noteCounts env db ctx :
  ctxOf db ctx → noteCountsNonNegative db →
  noteCountsNonNegative (cancelSubscription env db ctx).2.
Proof.
  intros Hctx Hdb. unfold cancelSubscription.
  destruct (req_account ctx) as [[aid a]|] eqn:Hreq; [|done].
  pose proof (ctxOf_account_count _ _ _ _ Hctx Hdb Hreq) as Hcount.
  case_match; [|done]. destruct p as [sid s]. simpl.
  by apply map_Forall_insert_2.
Qed.

Lemma register_noteCounts env db body :
  noteCountsNonNegative db → noteCountsNonNegative (register env db body).2.
Proof.
  intros Hdb. unfold register, Store.create.
  repeat case_match; simplify_eq/=; try done;
    by apply map_Forall_insert_2.
Qed.

Lemma upgradeSubscription_accounts env db ctx pm :
  accounts (upgradeSubscription env db ctx pm).2 = accounts db.
Proof. unfold upgradeSubscription. by repeat case_match. Qed.

Lemma login_accounts env db ip body :
  accounts (login env db ip body).2 = accounts db.
Proof.
  unfold login, localStrategy. repeat case_match; simplify_eq/=; done.
Qed.

Lemma inviteUser_accounts env db ctx body :
  accounts (inviteUser env db ctx body).2 = accounts db.
Proof.
  unfold inviteUser, Store.create. repeat case_match; simplify_eq/=; done.
Qed.

Lemma changePassword_accounts env db ctx body :
  accounts (changePassword env db ctx body).2 = accounts db.
Proof. unfold changePassword. by repeat case_match. Qed.

Lemma logout_accounts env db ctx :
  accounts (logout env db ctx).2 = accounts db.
Proof. unfold logout. by repeat case_match. Qed.

(** A property of the store that every handler of a chain preserves is
    preserved by the route. *)
Lemma serve_preserves {A} (P : Db → Prop) db (chain : Outcome A) handler :
  P db → (∀ a, chain = Next a → P (handler a).2) → P (serve db chain handler).2.
Proof. intros Hdb Hh. destruct chain as [r|a]; simpl; [done|]. by apply Hh. Qed.

(** Derives [ctxOf] for the context a chain passes on. *)
Ltac chain_ctxOf H :=
  unfold notesGuard, tenantGuard in H; chain_Next H; ctx_forward; try assumption.

Lemma handle_noteCounts env db r :
  noteCountsNonNegative db → noteCountsNonNegative (handle env db r).2.
Proof.
  intros Hdb. destruct r; simpl;
    unfold POST_auth_register, POST_auth_login, GET_auth_profile, POST_auth_invite,
      POST_auth_change_password, POST_auth_logout, POST_notes, GET_notes,
      GET_notes_my_notes, GET_notes_id, PUT_notes_id, DELETE_notes_id,
      GET_subscription, POST_subscription_upgrade,
      POST_subscription_verify_payment, GET_subscription_payments,
      POST_subscription_cancel;
    try (apply serve_preserves; [done|]; intros ctx Hchain; simpl; try done).
  - by apply register_noteCounts.
  - eapply noteCounts_same; [apply login_accounts|done].
  - eapply noteCounts_same; [apply inviteUser_accounts|done].
  - eapply noteCounts_same; [apply changePassword_accounts|done].
  - eapply noteCounts_same; [apply logout_accounts|done].
  - apply createNote_noteCounts; [|done]. chain_ctxOf Hchain.
  - eapply noteCounts_same; [|done].
    by destruct (updateNote_frame db ctx id body) as (?&_).
  - apply deleteNote_noteCounts; [|done]. chain_ctxOf Hchain.
  - eapply noteCounts_same; [apply upgradeSubscription_accounts|done].
  - apply verifyPaymentAndUpgrade_noteCounts; [|done]. chain_ctxOf Hchain.
  - apply cancelSubscription_noteCounts; [|done]. chain_ctxOf Hchain.
Qed.

Lemma run_noteCounts db trace :
  noteCountsNonNegative db → noteCountsNonNegative (run db trace).
Proof.
  revert db. induction trace as [|[env r] trace IH]; intros db Hdb; simpl; [done|].
  by apply IH, handle_noteCounts.
Qed.

(** C9: [incrementNoteCount] adds one to the count and stores it;
    [decrementNoteCount] subtracts one when the count is positive and
    leaves a zero count (and the store) as it is; and no sequence of
    requests, note creations and deletions included, takes a store whose
    note counts are non-negative to one with a negative note count. *)
Theorem noteCount_never_negative (db : Db) (trace : list (Env * Request))
    (a : nat * Account.doc) :
  noteCountsNonNegative db →
  0 ≤ Account.noteCount a.2 →
  (Account.noteCount (incrementNoteCount a db).1.2 = Account.noteCount a.2 + 1
   ∧ accounts (incrementNoteCount a db).2 !! a.1 = Some (incrementNoteCount a db).1.2)
  ∧ (0 < Account.noteCount a.2 →
     Account.noteCount (decrementNoteCount a db).1.2 = Account.noteCount a.2 - 1
     ∧ accounts (decrementNoteCount a db).2 !! a.1
       = Some (decrementNoteCount a db).1.2)
  ∧ (Account.noteCount a.2 = 0 → decrementNoteCount a db = (a, db))
  ∧ 0 ≤ Account.noteCount (decrementNoteCount a db).1.2
  ∧ noteCountsNonNegative (run db trace).
Proof.
  intros Hdb Ha. repeat split.
  - unfold incrementNoteCount, Store.save. simpl. by rewrite lookup_insert_eq.
  - rewrite decrementNoteCount_count. destruct (0 <? _) eqn:E; lia.
  - unfold decrementNoteCount, Store.save.
    destruct (0 <? _) eqn:E; [|lia]. simpl. by rewrite lookup_insert_eq.
  - intros H0. apply decrementNoteCount_zero. lia.
  - rewrite decrementNoteCount_count. destruct (0 <? _) eqn:E; lia.
  - by apply run_noteCounts.
Qed.

Lemma noteCount_never_negative_witness :
  noteCountsNonNegative empty_db
  ∧ 0 ≤ Account.noteCount demoAccount
  ∧ noteCountsNonNegative (run empty_db demoCreateDelete).
Proof.
  split; [apply map_Forall_empty|]. split; [simpl; lia|].
  apply (noteCount_never_negative empty_db demoCreateDelete (0%nat, demoAccount)).
  - apply map_Forall_empty.
  - simpl; lia.
Defined.

(** ** Cancelling a subscription *)

Lemma isActiveOf_true aid i s : isActiveOf aid i s = true ↔ activeOf aid s.
Proof.
  unfold isActiveOf, activeOf.
  rewrite andb_true_iff, !bool_decide_eq_true. done.
Qed.

Lemma isActiveOf_false aid i s : isActiveOf aid i s = false ↔ ¬ activeOf aid s.
Proof.
  rewrite <- isActiveOf_true with (i := i). destruct (isActiveOf aid i s); naive_solver.
Qed.

(** C7: when the account has an active subscription, [cancelSubscription]
    answers 200, marks an active subscription of the account cancelled
    with [cancelledAt] the time of the call, leaves every other
    subscription alone, and stores the account with plan free, the
    free-tier quota (the schema default 3) and no current subscription,
    whatever the subscription's [endDate]; when the account has no active
    subscription it answers 404 and the store is unchanged. *)
Theorem cancelSubscription_downgrades (env : Env) (db : Db) (ctx : Ctx)
    (aid : nat) (a : Account.doc) :
  req_account ctx = Some (aid, a) →
  let out := cancelSubscription env db ctx in
  ((∃ sid0 s0, subscriptions db !! sid0 = Some s0 ∧ activeOf aid s0) →
   statusCode out.1 = 200
   ∧ ∃ sid s a',
       subscriptions db !! sid = Some s ∧ activeOf aid s
       ∧ subscriptions out.2 !! sid = Some (Subscription.cancel (clock env 1) s)
       ∧ Subscription.status (Subscription.cancel (clock env 1) s) = cancelled
       ∧ Subscription.cancelledAt (Subscription.cancel (clock env 1) s)
         = Some (clock env 1)
       ∧ Subscription.endDate (Subscription.cancel (clock env 1) s)
         = Subscription.endDate s
       ∧ (∀ j, j ≠ sid → subscriptions out.2 !! j = subscriptions db !! j)
       ∧ accounts out.2 !! aid = Some a'
       ∧ Account.plan a' = FREE
       ∧ Account.limit a' = Account.default_limit
       ∧ Account.currentSubscription a' = None
       ∧ Account.noteCount a' = Account.noteCount a)
  ∧ ((∀ sid s, subscriptions db !! sid = Some s → ¬ activeOf aid s) →
     out = (sendError 404 "No active subscription found", db)).
Proof.
  intros Hreq out. subst out. unfold cancelSubscription. rewrite Hreq. simpl.
  destruct (Store.findOne (isActiveOf aid) (subscriptions db)) as [[sid s]|] eqn:E.
  - apply findOne_Some in E as [Hl Hq%isActiveOf_true]. split.
    + intros _. split; [done|]. exists sid, s. eexists.
      simpl. unfold Store.save. rewrite !lookup_insert_eq.
      repeat split; try done; try apply Hq.
      intros j Hj. by rewrite lookup_insert_ne.
    + intros Hnone. by destruct (Hnone _ _ Hl).
  - split; [|done].
    intros (sid0 & s0 & Hl & Hact).
    apply (findOne_None _ _ _ _ E) in Hl. by apply isActiveOf_false in Hl.
Qed.

Lemma cancelSubscription_downgrades_witness :
  req_account (demoCtx demoDbPro) = Some (0%nat, demoAccountPro)
  ∧ subscriptions demoDbPro !! 0%nat = Some demoSubscription
  ∧ activeOf 0 demoSubscription
  ∧ statusCode
      (cancelSubscription (demoEnv 9000) demoDbPro (demoCtx demoDbPro)).1 = 200.
Proof.
  assert (H1 : req_account (demoCtx demoDbPro) = Some (0%nat, demoAccountPro))
    by (vm_compute; reflexivity).
  assert (H2 : subscriptions demoDbPro !! 0%nat = Some demoSubscription)
    by (vm_compute; reflexivity).
  assert (H3 : activeOf 0 demoSubscription) by (split; reflexivity).
  split; [exact H1|]. split; [exact H2|]. split; [exact H3|].
  destruct (cancelSubscription_downgrades (demoEnv 9000) demoDbPro
              (demoCtx demoDbPro) 0 demoAccountPro H1) as [Hcancel _].
  apply Hcancel. exists 0%nat, demoSubscription. split; assumption.
Defined.

(** ** Payment verification *)

Lemma findOne_at {A} (q : nat → A → bool) (c : gmap nat A) k d :
  (∀ i d', q i d' = true → i = k) → c !! k = Some d → q k d = true →
  Store.findOne q c = Some (k, d).
Proof.
  intros Hk Hl Hq.
  destruct (findOne_is_Some q c k d Hl Hq) as [[i d'] E].
  destruct (findOne_Some _ _ _ _ E) as [Hl' Hq'].
  apply Hk in Hq' as ->. congruence.
Qed.

Lemma pendingPayment_lookup db aid body pid p :
  pendingPaymentFound db aid body pid p →
  Store.findOne
    (λ i p, bool_decide (i = pid) && bool_decide (Payment.account p = aid)
            && bool_decide (Payment.razorpayOrderId p = razorpay_order_id body)
            && bool_decide (Payment.status p = PENDING))
    (payments db) = Some (pid, p).
Proof.
  intros (_ & _ & _ & _ & Hl & Hacc & Hord & Hst).
  apply findOne_at; [|done|].
  - intros i d. rewrite !andb_true_iff, !bool_decide_eq_true. naive_solver.
  - rewrite !andb_true_iff, !bool_decide_eq_true. done.
Qed.

Lemma verifyPaymentSignature_true env body :
  verifyPaymentSignature env (razorpay_order_id body) (razorpay_payment_id body)
    (razorpay_signature body) = true ↔ signatureMatches env body.
Proof.
  unfold verifyPaymentSignature, signatureMatches.
  rewrite bool_decide_eq_true. naive_solver.
Qed.

(** C2: when the pending payment is found but the signature is not the
    HMAC of [orderId|paymentId], the call answers 400 "Payment
    verification failed", the payment is stored as failed with the
    description "Invalid payment signature", and nothing else changes:
    accounts (plan, limit, note count, current subscription) and
    subscriptions are the same maps as before. *)
Theorem forged_signature_rejected (env : Env) (db : Db) (ctx : Ctx)
    (body : VerifyBody) (aid : nat) (a : Account.doc) (pid : nat) (p : Payment.doc) :
  req_account ctx = Some (aid, a) →
  pendingPaymentFound db aid body pid p →
  ¬ signatureMatches env body →
  let out := verifyPaymentAndUpgrade env db ctx body in
  out.1 = sendError 400 "Payment verification failed"
  ∧ statusCode out.1 = 400
  ∧ payments out.2 !! pid
    = Some (Payment.set_errorDescription (Some "Invalid payment signature")
              (Payment.set_status FAILED p))
  ∧ (∀ j, j ≠ pid → payments out.2 !! j = payments db !! j)
  ∧ accounts out.2 = accounts db
  ∧ subscriptions out.2 = subscriptions db
  ∧ users out.2 = users db ∧ roles out.2 = roles db
  ∧ notes out.2 = notes db ∧ tags out.2 = tags db.
Proof.
  intros Hreq Hfound Hsig out. subst out.
  pose proof (pendingPayment_lookup _ _ _ _ _ Hfound) as Hlookup.
  destruct Hfound as (Hpid & Ho & Hp & Hs & Hl & _).
  unfold verifyPaymentAndUpgrade. rewrite Hpid, Ho, Hp, Hs, Hreq. simpl.
  rewrite Hlookup.
  destruct (verifyPaymentSignature env _ _ _) eqn:E.
  { by apply verifyPaymentSignature_true in E. }
  simpl. unfold Store.save. rewrite lookup_insert_eq.
  repeat split; try done.
  intros j Hj. by rewrite lookup_insert_ne.
Qed.

Lemma demo_pendingPaymentFound body :
  paymentId body = Some 0%nat → razorpay_order_id body = "order_1" →
  JS.truthy (razorpay_payment_id body) = true →
  JS.truthy (razorpay_signature body) = true →
  pendingPaymentFound demoDbOrdered 0 body 0 demoPayment.
Proof.
  intros H1 H2 H3 H4. unfold pendingPaymentFound. rewrite H1, H2, H3, H4.
  repeat split; try (vm_compute; reflexivity).
Qed.

Lemma forged_signature_rejected_witness :
  statusCode
    (verifyPaymentAndUpgrade (demoEnv 7000) demoDbOrdered (demoCtx demoDbOrdered)
       demoForged).1 = 400.
Proof.
  eapply (forged_signature_rejected (demoEnv 7000) demoDbOrdered
            (demoCtx demoDbOrdered) demoForged 0 demoAccount 0 demoPayment).
  - vm_compute. reflexivity.
  - by apply demo_pendingPaymentFound.
  - unfold signatureMatches. vm_compute. discriminate.
Defined.

Lemma paymentIdTaken_false pid gid (c : gmap nat Payment.doc) :
  (∀ j p', c !! j = Some p' → j ≠ pid → Payment.razorpayPaymentId p' ≠ Some gid) →
  paymentIdTaken pid gid c = false.
Proof.
  intros H. unfold paymentIdTaken. apply bool_decide_eq_false. intros [[j p'] E].
  apply findOne_Some in E as [Hl Hq].
  apply andb_true_iff in Hq as [Hne Heq].
  apply negb_true_iff, bool_decide_eq_false in Hne.
  apply bool_decide_eq_true in Heq. by apply (H j p').
Qed.

Theorem verified_payment_upgrades (env : Env) (db : Db) (ctx : Ctx)
    (body : VerifyBody) (aid : nat) (a : Account.doc) (pid : nat) (p : Payment.doc)
    (details : GatewayPayment) :
  req_account ctx = Some (aid, a) →
  pendingPaymentFound db aid body pid p →
  signatureMatches env body →
  payments_fetch env (razorpay_payment_id body) = Some details →
  (∀ j p', payments db !! j = Some p' → j ≠ pid →
           Payment.razorpayPaymentId p' ≠ Some (razorpay_payment_id body)) →
  atMostOneActive db aid →
  let out := verifyPaymentAndUpgrade env db ctx body in
  statusCode out.1 = 200 ∧ upgraded env db aid pid out.
Proof.
  intros Hreq Hfound Hsig Hfetch Huniq Hone out. subst out.
  pose proof (pendingPayment_lookup _ _ _ _ _ Hfound) as Hlookup.
  destruct Hfound as (Hpid & Ho & Hp & Hs & Hl & _).
  apply verifyPaymentSignature_true in Hsig.
  unfold verifyPaymentAndUpgrade, getPaymentDetails.
  rewrite Hpid, Ho, Hp, Hs, Hreq. cbn [negb orb fst snd].
  rewrite Hlookup, Hsig, Hfetch, (paymentIdTaken_false _ _ _ Huniq).
  cbn [negb]. simpl (subscriptions (set_payments _ _)).
  destruct (Store.findOne (isActiveOf aid) (subscriptions db)) as [[sid0 s0]|] eqn:E;
    unfold Store.create, upgradeToPro, Store.save; simpl; (split; [done|]).
  - apply findOne_Some in E as [Hl0 Hact0%isActiveOf_true].
    set (subs := <[sid0:=Subscription.cancel (clock env 1) s0]> (subscriptions db)).
    assert (Hfresh : subs !! Store.newId subs = None) by apply newId_fresh.
    assert (Hne : Store.newId subs ≠ sid0).
    { intros Heq. rewrite Heq in Hfresh. subst subs.
      by rewrite lookup_insert_eq in Hfresh. }
    exists (Store.newId subs). do 3 eexists. simpl.
    rewrite !lookup_insert_eq.
    split; [reflexivity|]. split; [reflexivity|]. split; [reflexivity|].
    split. { subst subs. by rewrite lookup_insert_ne in Hfresh. }
    split; [reflexivity|]. split; [by split|].
    split; [reflexivity|]. split; [reflexivity|]. split; [reflexivity|].
    split.
    { intros j s Hj Hact. assert (j = sid0) as -> by by eapply Hone.
      rewrite lookup_insert_ne by done. subst subs. rewrite lookup_insert_eq.
      eexists. split; [reflexivity|]. by split. }
    split.
    { intros j s Hj Hact. destruct (decide (j = Store.newId subs)) as [|Hj']; [done|].
      rewrite lookup_insert_ne in Hj by done. subst subs.
      destruct (decide (j = sid0)) as [->|Hj0].
      - rewrite lookup_insert_eq in Hj. injection Hj as <-.
        by destruct Hact as [_ Hact].
      - rewrite lookup_insert_ne in Hj by done.
        by destruct Hj0; eapply Hone. }
    by repeat split.
  - assert (Hnone : ∀ j s, subscriptions db !! j = Some s → ¬ activeOf aid s).
    { intros j s Hj. eapply isActiveOf_false, findOne_None; done. }
    exists (Store.newId (subscriptions db)). do 3 eexists. simpl.
    rewrite !lookup_insert_eq.
    split; [reflexivity|]. split; [reflexivity|]. split; [reflexivity|].
    split; [apply newId_fresh|].
    split; [reflexivity|]. split; [by split|].
    split; [reflexivity|]. split; [reflexivity|]. split; [reflexivity|].
    split. { intros j s Hj Hact. by destruct (Hnone _ _ Hj). }
    split.
    { intros j s Hj Hact.
      destruct (decide (j = Store.newId (subscriptions db))) as [|Hj']; [done|].
      rewrite lookup_insert_ne in Hj by done. by destruct (Hnone _ _ Hj). }
    by repeat split.
Qed.

(** * Further properties of the code *)

(** ** Tokens *)

(** X1: a token made by [generateToken] at time [now] is returned
    unchanged by [verifyToken] when the verifying process has the same
    secret and the time is before the expiry (issue second plus the
    configured lifetime, seven days by default); otherwise [verifyToken]
    throws. *)
Theorem token_round_trip (env env' : Env) (now now' : Z) (uid aid : nat)
    (r : RoleName) :
  let token := Helpers.generateToken env now uid aid r in
  verifyToken env' now' (JwtSigned token)
  = if bool_decide (JWT_SECRET env = JWT_SECRET env')
       && (now' / 1000 <? now / 1000 + Helpers.expiresIn env)
    then Some token else None.
Proof.
  simpl. unfold verifyToken, Helpers.jwt_verify, Helpers.generateToken. simpl.
  destruct (bool_decide (JWT_SECRET env = JWT_SECRET env')); simpl; [|done].
  destruct (now / 1000 + Helpers.expiresIn env <=? now' / 1000) eqn:E1;
    destruct (now' / 1000 <? now / 1000 + Helpers.expiresIn env) eqn:E2;
    try done; lia.
Qed.

(** ** The guards *)

(** X2: behind [authenticate], the account-status check never fires:
    every rejection by the common guard (authenticate, tenant isolation,
    account status) is a 401, and a request the guard lets through comes
    from an active user of an active account. *)
Theorem guard_rejects_with_401 (env : Env) (db : Db) (h : Headers) :
  match tenantGuard env db h with
  | Reply r => statusCode r = 401
  | Next ctx =>
    ∃ token u a,
      Authentic env db h token u a
      ∧ ctx = authedCtx db (userId token) u a None
                (Some (tenantOnly (User.account u)))
  end.
Proof.
  destruct (tenantGuard env db h) as [r|ctx] eqn:E.
  - by eapply tenantGuard_Reply.
  - by apply tenantGuard_Next.
Qed.

(** X3: [optionalAuth] lets a request without a token through as it
    is; a request that presents a token goes on only when the token
    authenticates, and is otherwise answered 401 rather than treated as
    anonymous. *)
Theorem optionalAuth_spec (env : Env) (db : Db) (h : Headers) (ctx : Ctx) :
  match optionalAuth env db h ctx with
  | Next ctx' =>
    ((extractToken h = None ∨ extractToken h = Some JwtEmpty) ∧ ctx' = ctx)
    ∨ ∃ token u a,
        Authentic env db h token u a
        ∧ ctx' = authedCtx db (userId token) u a (req_tenant ctx)
                   (req_tenantFilter ctx)
  | Reply r =>
    statusCode r = 401
    ∧ extractToken h ≠ None ∧ extractToken h ≠ Some JwtEmpty
  end.
Proof.
  unfold optionalAuth.
  destruct (extractToken h) as [[| |token]|] eqn:E; try (left; split; [auto|done]).
  - destruct (authenticate env db h ctx) as [r|ctx'] eqn:Ea.
    + split; [by eapply authenticate_Reply|done].
    + right. by apply authenticate_Next.
  - destruct (authenticate env db h ctx) as [r|ctx'] eqn:Ea.
    + split; [by eapply authenticate_Reply|done].
    + right. by apply authenticate_Next.
Qed.

(** ** Role checks *)

Lemma tenantGuard_Authentic env db h token u a :
  Authentic env db h token u a →
  tenantGuard env db h
  = Next (authedCtx db (userId token) u a None (Some (tenantOnly (User.account u)))).
Proof.
  intros HA. unfold tenantGuard.
  rewrite (authenticate_Authentic _ _ _ empty_ctx _ _ _ HA).
  destruct HA as [_ _ _ _ _ _ _ Ha Haa Had].
  unfold mbind, Outcome_bind, andThen, ensureTenantIsolation, checkAccountStatus,
    account_or_tenant, authedCtx, populate_user, Store.findById; simpl.
  rewrite Ha. simpl. rewrite Haa, Had. done.
Qed.

(** X4: an authenticated user whose role is member is refused by every
    administrator-only route: inviting a user, verifying a payment and
    cancelling the subscription answer 403 "Access denied - admin role
    required", starting an upgrade is never answered 200, and none of
    them changes the store. *)
Theorem member_refused_on_admin_routes (env : Env) (db : Db) (h : Headers)
    (token : Token) (u : User.doc) (a : Account.doc) (r : Role.doc) :
  Authentic env db h token u a →
  roles db !! User.role u = Some r →
  Role.roleName r = MEMBER →
  (∀ body, POST_auth_invite env db h body
           = (sendError 403 "Access denied - admin role required", db))
  ∧ (∀ body, POST_subscription_verify_payment env db h body
             = (sendError 403 "Access denied - admin role required", db))
  ∧ POST_subscription_cancel env db h
    = (sendError 403 "Access denied - admin role required", db)
  ∧ (∀ slug pm,
       (POST_subscription_upgrade env db h slug pm).2 = db
       ∧ statusCode (POST_subscription_upgrade env db h slug pm).1 ≠ 200).
Proof.
  intros HA Hr Hm.
  assert (Hadmin : ∀ t f, requireAdmin (authedCtx db (userId token) u a t f)
                          = Reply (sendError 403 "Access denied - admin role required")).
  { intros t f. rewrite requireAdmin_authed, Hr, Hm. done. }
  unfold POST_auth_invite, POST_subscription_verify_payment,
    POST_subscription_cancel, POST_subscription_upgrade.
  rewrite (tenantGuard_Authentic _ _ _ _ _ _ HA).
  rewrite (authenticate_Authentic _ _ _ empty_ctx _ _ _ HA).
  unfold mbind, Outcome_bind, andThen. rewrite Hadmin.
  repeat split; try done.
  - destruct (validateTenantSlug db slug _) as [r'|c] eqn:E; [done|].
    destruct (checkAccountStatus c) as [r'|c'] eqn:E'; [done|].
    assert (c' = c) as ->.
    { revert E'. unfold checkAccountStatus. by repeat case_match; intros [= ->]. }
    assert (∃ t f, c = authedCtx db (userId token) u a t f) as (t & f & ->).
    { revert E. unfold validateTenantSlug, authedCtx. simpl.
      repeat case_match; intros [= <-]; eexists _, _; reflexivity. }
    by rewrite Hadmin.
  - destruct (validateTenantSlug db slug _) as [r'|c] eqn:E.
    { simpl. revert E. unfold validateTenantSlug.
      repeat case_match; intros [= <-]; done. }
    destruct (checkAccountStatus c) as [r'|c'] eqn:E'.
    { simpl. revert E'. unfold checkAccountStatus.
      repeat case_match; intros [= <-]; done. }
    assert (c' = c) as ->.
    { revert E'. unfold checkAccountStatus. by repeat case_match; intros [= ->]. }
    assert (∃ t f, c = authedCtx db (userId token) u a t f) as (t & f & ->).
    { revert E. unfold validateTenantSlug, authedCtx. simpl.
      repeat case_match; intros [= <-]; eexists _, _; reflexivity. }
    by rewrite Hadmin.
Qed.

(** Closes an [Authentic] goal on concrete data by evaluation. *)
Ltac authentic_by_compute := split; by vm_compute.

Lemma demoMember_Authentic t :
  Authentic (demoEnv t) demoDbTeam (bearer (memberToken 2000)) (memberToken 2000)
    demoMember demoAccount
  ↔ t / 1000 < 604802.
Proof.
  split.
  - intros [_ _ Hexp _ _ _ _ _ _ _]. exact Hexp.
  - intros Ht. split; first [exact Ht | by vm_compute].
Qed.

Lemma member_refused_on_admin_routes_witness :
  POST_subscription_cancel (demoEnv 3000) demoDbTeam (bearer (memberToken 2000))
  = (sendError 403 "Access denied - admin role required", demoDbTeam).
Proof.
  assert (HA : Authentic (demoEnv 3000) demoDbTeam (bearer (memberToken 2000))
                 (memberToken 2000) demoMember demoAccount)
    by (apply demoMember_Authentic; by vm_compute).
  assert (Hr : roles demoDbTeam !! User.role demoMember
               = Some {| Role.account := 0; Role.roleName := MEMBER |})
    by by vm_compute.
  apply (member_refused_on_admin_routes _ _ _ _ _ _ _ HA Hr eq_refl).
Defined.

Lemma existsb_elem_of (p : string) (l : list string) :
  existsb (λ x, bool_decide (x = p)) l = true ↔ p ∈ l.
Proof.
  rewrite existsb_exists. split.
  - intros (x & Hx%list_elem_of_In & ->%bool_decide_eq_true). done.
  - intros Hp. exists p. split; [by apply list_elem_of_In|by apply bool_decide_eq_true].
Qed.

(** X5: for a user whose role document is present, [requirePermission]
    lets the request through exactly when the permission is in the
    role's row of the table, [requireAnyPermission] exactly when one of
    the listed permissions is, so with an empty list it refuses everyone;
    a member's permissions are all permissions of an administrator, and
    inviting users and upgrading the subscription are not among them. *)
Theorem permission_checks (db : Db) (uid : nat) (u : User.doc) (a : Account.doc)
    (t : option (nat * Account.doc)) (f : option Filter) (r : Role.doc) :
  roles db !! User.role u = Some r →
  let ctx := authedCtx db uid u a t f in
  (∀ p, requirePermission p ctx = Next ctx ↔ p ∈ PERMISSIONS (Role.roleName r))
  ∧ (∀ p, p ∉ PERMISSIONS (Role.roleName r) →
          requirePermission p ctx = Reply (sendError 403 "Insufficient permissions"))
  ∧ (∀ ps, (requireAnyPermission ps ctx = Next ctx)
           ↔ (∃ p, p ∈ ps ∧ p ∈ PERMISSIONS (Role.roleName r)))
  ∧ requireAnyPermission [] ctx = Reply (sendError 403 "Insufficient permissions")
  ∧ (∀ p, p ∈ PERMISSIONS MEMBER → p ∈ PERMISSIONS ADMIN)
  ∧ ("users:invite" ∉ PERMISSIONS MEMBER)
  ∧ ("subscription:upgrade" ∉ PERMISSIONS MEMBER).
Proof.
  intros Hr ctx. subst ctx.
  assert (Hp : ∀ p, requirePermission p (authedCtx db uid u a t f)
                    = if existsb (λ x, bool_decide (x = p))
                           (PERMISSIONS (Role.roleName r))
                      then Next (authedCtx db uid u a t f)
                      else Reply (sendError 403 "Insufficient permissions")).
  { intros p. unfold requirePermission, authedCtx, populate_user, Store.findById.
    simpl. rewrite Hr. by destruct (existsb _ _). }
  assert (Hany : ∀ ps, requireAnyPermission ps (authedCtx db uid u a t f)
                    = if existsb (λ permission,
                                    existsb (λ x, bool_decide (x = permission))
                                      (PERMISSIONS (Role.roleName r))) ps
                      then Next (authedCtx db uid u a t f)
                      else Reply (sendError 403 "Insufficient permissions")).
  { intros ps. unfold requireAnyPermission, authedCtx, populate_user,
      Store.findById. simpl. rewrite Hr. by destruct (existsb _ _). }
  split; [|split; [|split; [|split; [|split; [|split]]]]].
  - intros p. rewrite Hp, <- existsb_elem_of. by destruct (existsb _ _).
  - intros p Hnot. rewrite Hp. destruct (existsb _ _) eqn:E; [|done].
    by apply existsb_elem_of in E.
  - intros ps. rewrite Hany. destruct (existsb _ ps) eqn:E.
    + split; [intros _|done]. apply existsb_exists in E as (p & Hin & Hp').
      exists p. split; [by apply list_elem_of_In|by apply existsb_elem_of].
    + split; [done|]. intros (p & Hin & Hp').
      assert (existsb (λ permission,
                         existsb (λ x, bool_decide (x = permission))
                           (PERMISSIONS (Role.roleName r))) ps = true); [|congruence].
      apply existsb_exists. exists p.
      split; [by apply list_elem_of_In|by apply existsb_elem_of].
  - by rewrite Hany.
  - intros p. simpl. set_solver.
  - simpl. set_solver.
  - simpl. set_solver.
Qed.

Lemma permission_checks_witness :
  requireAnyPermission []
    (authedCtx demoDbTeam 1 demoMember demoAccount None None)
  = Reply (sendError 403 "Insufficient permissions").
Proof.
  apply (permission_checks demoDbTeam 1 demoMember demoAccount None None
           {| Role.account := 0; Role.roleName := MEMBER |}).
  by vm_compute.
Defined.

(** ** How documents change *)

Section Grows.
Context {A : Type} (R : A → A → Prop).
Implicit Types (m : gmap nat A).

Lemma grows_refl m : (∀ x, R x x) → grows R m m.
Proof. intros HR i x Hl. eauto. Qed.

Lemma grows_trans m1 m2 m3 :
  (∀ x y z, R x y → R y z → R x z) →
  grows R m1 m2 → grows R m2 m3 → grows R m1 m3.
Proof.
  intros HR H12 H23 i x Hl.
  destruct (H12 _ _ Hl) as (y & Hy & Hxy).
  destruct (H23 _ _ Hy) as (z & Hz & Hyz). eauto.
Qed.

Lemma grows_create m d : (∀ x, R x x) → grows R m (Store.create d m).2.
Proof.
  intros HR i x Hl. simpl. exists x. split; [|done].
  rewrite lookup_insert_ne; [done|]. intros <-. by rewrite newId_fresh in Hl.
Qed.

Lemma grows_save m k d d' :
  (∀ x, R x x) → m !! k = Some d → R d d' → grows R m (Store.save k d' m).
Proof.
  intros HR Hk Hd i x Hl. unfold Store.save.
  destruct (decide (i = k)) as [->|Hne].
  - rewrite lookup_insert_eq. exists d'. split; [done|]. congruence.
  - rewrite lookup_insert_ne by done. eauto.
Qed.
End Grows.

Lemma accountKeeps_refl a : accountKeeps a a.
Proof. by repeat split. Qed.
Lemma userKeeps_refl u : userKeeps u u.
Proof. by repeat split. Qed.
Lemma noteKeeps_refl n : noteKeeps n n.
Proof. by repeat split. Qed.
Lemma subscriptionKeeps_refl s : subscriptionKeeps s s.
Proof. repeat split; auto. Qed.
Lemma paymentKeeps_refl p : paymentKeeps p p.
Proof. repeat split; auto. Qed.

Lemma accountKeeps_trans a b c : accountKeeps a b → accountKeeps b c → accountKeeps a c.
Proof. intros (?&?&?) (?&?&?). repeat split; congruence. Qed.
Lemma userKeeps_trans a b c : userKeeps a b → userKeeps b c → userKeeps a c.
Proof. intros (?&?&?&?&?&?) (?&?&?&?&?&?). repeat split; congruence. Qed.
Lemma noteKeeps_trans a b c : noteKeeps a b → noteKeeps b c → noteKeeps a c.
Proof.
  intros (?&?&?&Hd) (?&?&?&Hd'). repeat split; try congruence.
  intros Ha. specialize (Hd Ha). subst b. auto.
Qed.
Lemma subscriptionKeeps_trans a b c :
  subscriptionKeeps a b → subscriptionKeeps b c → subscriptionKeeps a c.
Proof.
  intros (?&?&?&?&Hn&Hs) (?&?&?&?&Hn'&Hs'). repeat split; try congruence.
  - intros Ha. specialize (Hn Ha). subst b. auto.
  - destruct Hs as [->|Hs]; [done|]. right.
    rewrite Hn'; [done|]. by rewrite Hs.
Qed.
Lemma paymentKeeps_trans a b c : paymentKeeps a b → paymentKeeps b c → paymentKeeps a c.
Proof.
  intros (?&?&?&?&?&Hn&Hs) (?&?&?&?&?&Hn'&Hs'). repeat split; try congruence.
  - intros Ha. specialize (Hn Ha). subst b. auto.
  - destruct Hs as [->|Hs]; [done|]. right.
    rewrite Hn'; [done|]. destruct Hs as [Hs|Hs]; by rewrite Hs.
Qed.

Lemma evolves_refl db : evolves db db.
Proof.
  repeat split; apply grows_refl; auto using accountKeeps_refl, userKeeps_refl,
    noteKeeps_refl, subscriptionKeeps_refl, paymentKeeps_refl.
Qed.

Lemma evolves_trans db1 db2 db3 : evolves db1 db2 → evolves db2 db3 → evolves db1 db3.
Proof.
  intros (?&?&?&?&?&?&?) (?&?&?&?&?&?&?).
  repeat split; eapply grows_trans; eauto using accountKeeps_trans,
    userKeeps_trans, noteKeeps_trans, subscriptionKeeps_trans, paymentKeeps_trans.
  all: intros; congruence.
Qed.

Lemma evolves_accounts db c :
  grows accountKeeps (accounts db) c → evolves db (set_accounts c db).
Proof. intros H. destruct (evolves_refl db) as (?&?&?&?&?&?&?). by repeat split. Qed.
Lemma evolves_roles db c : grows eq (roles db) c → evolves db (set_roles c db).
Proof. intros H. destruct (evolves_refl db) as (?&?&?&?&?&?&?). by repeat split. Qed.
Lemma evolves_users db c : grows userKeeps (users db) c → evolves db (set_users c db).
Proof. intros H. destruct (evolves_refl db) as (?&?&?&?&?&?&?). by repeat split. Qed.
Lemma evolves_notes db c : grows noteKeeps (notes db) c → evolves db (set_notes c db).
Proof. intros H. destruct (evolves_refl db) as (?&?&?&?&?&?&?). by repeat split. Qed.
Lemma evolves_tags db c : grows eq (tags db) c → evolves db (set_tags c db).
Proof. intros H. destruct (evolves_refl db) as (?&?&?&?&?&?&?). by repeat split. Qed.
Lemma evolves_subscriptions db c :
  grows subscriptionKeeps (subscriptions db) c → evolves db (set_subscriptions c db).
Proof. intros H. destruct (evolves_refl db) as (?&?&?&?&?&?&?). by repeat split. Qed.
Lemma evolves_payments db c :
  grows paymentKeeps (payments db) c → evolves db (set_payments c db).
Proof. intros H. destruct (evolves_refl db) as (?&?&?&?&?&?&?). by repeat split. Qed.

Lemma findOrCreate_evolves account tagName db i db' :
  findOrCreate account tagName db = Some (i, db') → evolves db db'.
Proof.
  unfold findOrCreate. intros H.
  destruct (Store.findOne _ _) as [[j t]|]; [injection H as <- <-; apply evolves_refl|].
  destruct (_ && _); [|done]. injection H as <- <-.
  apply evolves_tags. by apply (grows_create eq (tags db)).
Qed.

Lemma resolveTags_evolves account names tagIds db :
  evolves db (resolveTags account names tagIds db).2.
Proof.
  revert tagIds db. induction names as [|[tagName|] names IH]; intros tagIds db;
    simpl; [apply evolves_refl| |apply IH].
  destruct (JS.truthy (JS.trim tagName)); [|apply IH].
  destruct account as [aid|]; [|apply evolves_refl].
  destruct (findOrCreate aid (JS.trim tagName) db) as [[i db']|] eqn:E;
    [|apply evolves_refl].
  eapply evolves_trans; [by eapply findOrCreate_evolves|apply IH].
Qed.

(** The documents of a context of the store. *)
Lemma ctxOf_docs db ctx :
  ctxOf db ctx →
  (∀ user, req_user ctx = Some user → users db !! _id user = Some (user_doc user))
  ∧ (∀ i a, req_account ctx = Some (i, a) → accounts db !! i = Some a)
  ∧ (∀ i a, req_tenant ctx = Some (i, a) → accounts db !! i = Some a).
Proof.
  intros (uid & u & a & t & f & -> & Hu & Ha & Ht). simpl. repeat split.
  - by intros user [= <-].
  - by intros i a' [= <- <-].
  - intros i a' ->. by eapply Ht.
Qed.

Lemma createNote_evolves env db ctx body :
  ctxOf db ctx → evolves db (createNote env db ctx body).2.
Proof.
  intros Hctx. destruct (ctxOf_docs _ _ Hctx) as (_ & Hacc & _).
  unfold createNote.
  destruct (cn_title body) as [[|c title]|]; try apply evolves_refl.
  match goal with |- context [resolveTags ?x ?y ?z ?w] =>
    pose proof (resolveTags_evolves x y z w) as Hev;
    pose proof (resolveTags_frame x y z w) as Hframe;
    destruct (resolveTags x y z w) as [[tagIds|] db1] end;
    destruct Hframe as (Haccs & _); simpl in *; [|done].
  destruct (req_user ctx) as [user|]; [|done].
  destruct (req_account ctx) as [[aid a]|] eqn:Hreq; [|done].
  case_match; [|done].
  unfold incrementNoteCount. simpl.
  eapply evolves_trans; [exact Hev|].
  eapply evolves_trans.
  - apply evolves_notes. apply (grows_create noteKeeps (notes db1)).
    apply noteKeeps_refl.
  - apply (evolves_accounts (set_notes _ db1)). simpl.
    eapply grows_save;
      [apply accountKeeps_refl|rewrite Haccs; by apply Hacc|by repeat split].
Qed.

Lemma findNote_Some id f db i n :
  findNote id f db = Some (i, n) →
  i = id ∧ notes db !! id = Some n ∧ matchesFilter f n = true
  ∧ Note.isDeleted n = false.
Proof.
  unfold findNote. destruct (notes db !! id) as [n'|]; [|done].
  destruct (matchesFilter f n') eqn:Hm; [|done].
  destruct (Note.isDeleted n') eqn:Hd; [done|]. simpl. by intros [= <- <-].
Qed.

Lemma updateNote_evolves db ctx id body :
  ctxOf db ctx → evolves db (updateNote db ctx id body).2.
Proof.
  intros Hctx. unfold updateNote.
  destruct (findNote id (tenantFilter_or_empty ctx) db) as [[nid note]|] eqn:Hfind;
    [|apply evolves_refl].
  apply findNote_Some in Hfind as (-> & Hl & _ & Hdel).
  destruct (req_user ctx) as [user|]; [|apply evolves_refl].
  destruct (notOwnerNorAdmin user note) as [[]|]; try apply evolves_refl.
  set (keeps := λ n' : Note.doc,
         Note.account n' = Note.account note ∧ Note.user n' = Note.user note
         ∧ Note.createdAt n' = Note.createdAt note).
  assert (Hsave : ∀ db1 n', evolves db db1 → notes db1 = notes db → keeps n' →
            evolves db (set_notes (Store.save id n' (notes db1)) db1)).
  { intros db1 n' Hev Hn (?&?&?). eapply evolves_trans; [exact Hev|].
    apply evolves_notes. eapply grows_save; [apply noteKeeps_refl|by rewrite Hn|].
    repeat split; try done. congruence. }
  destruct (un_title body) as [title|];
    [destruct (negb (JS.truthy (JS.trim title))); [apply evolves_refl|]|].
  all: destruct (un_description body) as [d|].
  all: destruct (un_tags body) as [|l|s|]; simpl.
  all: try (case_match; [apply Hsave; [apply evolves_refl|done|by repeat split]
                        |apply evolves_refl]).
  all: pose proof (resolveTags_evolves (fst <$> user_account user) l [] db) as Hev;
    pose proof (resolveTags_frame (fst <$> user_account user) l [] db) as Hf;
    destruct (resolveTags (fst <$> user_account user) l [] db) as [[tagIds|] db1];
    simpl in *; [|done];
    destruct Hf as (_&_&_&Hn&_);
    (case_match; [apply Hsave; [done|done|by repeat split]|done]).
Qed.

Lemma deleteNote_evolves db ctx id :
  ctxOf db ctx → evolves db (deleteNote db ctx id).2.
Proof.
  intros Hctx. destruct (ctxOf_docs _ _ Hctx) as (_ & Hacc & _).
  unfold deleteNote.
  destruct (findNote id (tenantFilter_or_empty ctx) db) as [[nid note]|] eqn:Hfind;
    [|apply evolves_refl].
  apply findNote_Some in Hfind as (-> & Hl & _ & Hdel).
  destruct (req_user ctx) as [user|]; [|apply evolves_refl].
  destruct (notOwnerNorAdmin user note) as [[]|]; try apply evolves_refl.
  assert (Hn : evolves db
                 (set_notes (Store.save id (Note.set_isDeleted true note) (notes db)) db)).
  { apply evolves_notes. eapply grows_save; [apply noteKeeps_refl|done|].
    repeat split. congruence. }
  destruct (req_account ctx) as [[aid a]|] eqn:Hreq; [|done].
  unfold decrementNoteCount. simpl.
  destruct (0 <? Account.noteCount a); simpl; [|done].
  eapply evolves_trans; [exact Hn|].
  apply (evolves_accounts (set_notes _ db)). simpl.
  eapply grows_save; [apply accountKeeps_refl|by apply Hacc|by repeat split].
Qed.

Lemma grows_insert_fresh {A} (R : A → A → Prop) (m : gmap nat A) d :
  (∀ x, R x x) → grows R m (<[fresh (dom m) := d]> m).
Proof. apply (grows_create R m d). Qed.

Lemma upgradeSubscription_evolves env db ctx pm :
  evolves db (upgradeSubscription env db ctx pm).2.
Proof.
  unfold upgradeSubscription.
  destruct (req_tenant ctx) as [account|]; [|apply evolves_refl].
  destruct (createOrder env 999 "INR" _) as [orderId|]; [|apply evolves_refl].
  simpl. apply evolves_payments.
  apply (grows_create paymentKeeps (payments db)). apply paymentKeeps_refl.
Qed.

Lemma verifyPaymentAndUpgrade_evolves env db ctx body :
  ctxOf db ctx → evolves db (verifyPaymentAndUpgrade env db ctx body).2.
Proof.
  intros Hctx. destruct (ctxOf_docs _ _ Hctx) as (_ & Hacc & _).
  unfold verifyPaymentAndUpgrade.
  destruct (paymentId body) as [pid|]; [|apply evolves_refl].
  destruct (_ || _); [apply evolves_refl|].
  destruct (req_account ctx) as [[aid a]|] eqn:Hreq; [|apply evolves_refl].
  specialize (Hacc _ _ eq_refl).
  destruct (Store.findOne _ (payments db)) as [[pid' p]|] eqn:Hfind;
    [|apply evolves_refl].
  apply findOne_Some in Hfind as [Hp Hq].
  rewrite !andb_true_iff, !bool_decide_eq_true in Hq.
  destruct Hq as (((-> & _) & _) & Hpending).
  destruct (negb (verifyPaymentSignature env _ _ _)).
  { simpl. apply evolves_payments.
    eapply grows_save; [apply paymentKeeps_refl|done|].
    repeat split; simpl; auto. congruence. }
  destruct (getPaymentDetails env _) as [details|]; [|apply evolves_refl].
  destruct (paymentIdTaken _ _ _); [apply evolves_refl|].
  cbv zeta. simpl (subscriptions (set_payments _ _)).
  assert (Hpay : ∀ sid,
            grows paymentKeeps (payments db)
              (<[pid:=Payment.set_subscription (Some sid)
                        (Payment.set_method (gp_method details)
                           (Payment.set_status SUCCESS
                              (Payment.set_razorpayPaymentId
                                 (Some (razorpay_payment_id body)) p)))]>
                 (payments db))).
  { intros sid. eapply (grows_save paymentKeeps); [apply paymentKeeps_refl|done|].
    repeat split; simpl; auto. congruence. }
  destruct (Store.findOne (isActiveOf aid) (subscriptions db)) as [[sid0 s0]|] eqn:E;
    unfold Store.create, upgradeToPro, Store.save; simpl;
    rewrite ?E; simpl; rewrite !insert_insert_eq.
  - apply findOne_Some in E as [Hl0 [_ Hst]%isActiveOf_true].
    repeat split; simpl;
      try (apply grows_refl; auto using userKeeps_refl, noteKeeps_refl); try apply Hpay.
    + eapply (grows_save accountKeeps); [apply accountKeeps_refl|done|by repeat split].
    + apply (grows_trans _ _
               (<[sid0:=Subscription.cancel (clock env 1) s0]> (subscriptions db)));
        [apply subscriptionKeeps_trans| |].
      * apply (grows_save subscriptionKeeps (subscriptions db) sid0 s0);
          [apply subscriptionKeeps_refl|done|].
        repeat split; simpl; auto; congruence.
      * apply grows_insert_fresh, subscriptionKeeps_refl.
  - repeat split; simpl;
      try (apply grows_refl; auto using userKeeps_refl, noteKeeps_refl); try apply Hpay.
    + eapply (grows_save accountKeeps); [apply accountKeeps_refl|done|by repeat split].
    + apply grows_insert_fresh, subscriptionKeeps_refl.
Qed.

Lemma cancelSubscription_evolves env db ctx :
  ctxOf db ctx → evolves db (cancelSubscription env db ctx).2.
Proof.
  intros Hctx. destruct (ctxOf_docs _ _ Hctx) as (_ & Hacc & _).
  unfold cancelSubscription.
  destruct (req_account ctx) as [[aid a]|] eqn:Hreq; [|apply evolves_refl].
  specialize (Hacc _ _ eq_refl). cbn [fst snd].
  destruct (Store.findOne (isActiveOf aid) (subscriptions db)) as [[sid s]|] eqn:E;
    [|apply evolves_refl].
  apply findOne_Some in E as [Hl [_ Hst]%isActiveOf_true]. simpl.
  apply (evolves_trans _
           (set_subscriptions
              (Store.save sid (Subscription.cancel (clock env 1) s)
                 (subscriptions db)) db)).
  - apply evolves_subscriptions.
    apply (grows_save _ _ _ s); [apply subscriptionKeeps_refl|done|].
    repeat split; simpl; auto; congruence.
  - apply (evolves_accounts (set_subscriptions _ db)). simpl.
    eapply grows_save; [apply accountKeeps_refl|done|by repeat split].
Qed.

Lemma evolves_create_account db d :
  evolves db (set_accounts (Store.create d (accounts db)).2 db).
Proof. apply evolves_accounts, grows_create, accountKeeps_refl. Qed.

Lemma evolves_create_role db d :
  evolves db (set_roles (Store.create d (roles db)).2 db).
Proof. apply evolves_roles. by apply grows_create. Qed.

Lemma evolves_create_user db d :
  evolves db (set_users (Store.create d (users db)).2 db).
Proof. apply evolves_users, grows_create, userKeeps_refl. Qed.

Lemma register_evolves env db body : evolves db (register env db body).2.
Proof.
  unfold register.
  destruct (_ || _); [apply evolves_refl|].
  destruct (Store.findOne _ (users db)); [apply evolves_refl|].
  destruct (freeSlug _ _ _ _ _) as [slug|]; [|apply evolves_refl].
  destruct (_ || _); [apply evolves_refl|].
  cbv zeta.
  match goal with |- context [Store.create ?d (accounts db)] =>
    pose proof (evolves_create_account db d) as H1;
    destruct (Store.create d (accounts db)) as [aid ca] end.
  simpl in H1.
  match goal with |- context [Store.create ?d (roles ?x)] =>
    pose proof (evolves_create_role x d) as H2;
    destruct (Store.create d (roles x)) as [rid cr] end.
  simpl in H2.
  destruct (validUser _ _ _).
  - match goal with |- context [Store.create ?d (users ?x)] =>
      pose proof (evolves_create_user x d) as H3;
      destruct (Store.create d (users x)) as [uid cu] end.
    simpl in *. eauto using evolves_trans.
  - simpl. eauto using evolves_trans.
Qed.

Lemma localStrategy_evolves env db email password :
  evolves db (localStrategy env db email password).2.
Proof.
  unfold localStrategy.
  destruct (Store.findOne _ (users db)) as [[uid u]|] eqn:E; [|apply evolves_refl].
  apply findOne_Some in E as [Hl _].
  destruct (user_account _) as [[aid a]|]; [|apply evolves_refl].
  destruct (_ || _); [apply evolves_refl|].
  destruct (negb _); [apply evolves_refl|]. simpl.
  apply evolves_users. apply (grows_save _ _ _ u); [apply userKeeps_refl|done|].
  by repeat split.
Qed.

Lemma localStrategy_user env db email password user db' :
  localStrategy env db email password = (Authenticated user, db') →
  users db' !! _id user = Some (user_doc user).
Proof.
  unfold localStrategy. intros H. repeat case_match; simplify_eq/=.
  unfold Store.save. by rewrite lookup_insert_eq.
Qed.

Lemma login_evolves env db ip body : evolves db (login env db ip body).2.
Proof.
  unfold login. destruct (_ || _); [apply evolves_refl|].
  pose proof (localStrategy_evolves env db (lg_email body) (lg_password body)) as Hev.
  destruct (localStrategy env db (lg_email body) (lg_password body))
    as [[user|message] db1] eqn:E; [|done].
  apply localStrategy_user in E. simpl in Hev.
  assert (evolves db1
            (set_users
               (Store.save (_id user)
                  (User.set_lastIP ip (User.set_lastLogin (clock env 2) (user_doc user)))
                  (users db1)) db1)).
  { apply evolves_users.
    apply (grows_save _ _ _ (user_doc user)); [apply userKeeps_refl|done|].
    by repeat split. }
  repeat case_match; simpl; eauto using evolves_trans.
Qed.

Lemma inviteUser_evolves env db ctx body : evolves db (inviteUser env db ctx body).2.
Proof.
  unfold inviteUser.
  destruct (_ || _); [apply evolves_refl|].
  destruct (match iv_role body with RoleUndefined => _ | _ => _ end) as [role|];
    [|apply evolves_refl].
  destruct (req_user ctx ≫= _) as [[aid a]|]; [|apply evolves_refl].
  destruct (Store.findOne _ (users db)); [apply evolves_refl|].
  assert (Hrole : ∃ rid db1,
            match Store.findOne
                    (λ _ r, bool_decide (Role.account r = aid)
                            && bool_decide (Role.roleName r = role)) (roles db) with
            | Some (rid, _) => (rid, db)
            | None =>
              let '(rid, cr) :=
                Store.create {| Role.account := aid; Role.roleName := role |}
                  (roles db) in
              (rid, set_roles cr db)
            end = (rid, db1) ∧ evolves db db1).
  { destruct (Store.findOne _ (roles db)) as [[rid r]|].
    - eexists _, _. split; [reflexivity|apply evolves_refl].
    - eexists _, _. split; [reflexivity|]. apply evolves_create_role. }
  destruct Hrole as (rid & db1 & -> & Hev).
  destruct (_ && _); [|done].
  match goal with |- context [Store.create ?d (users db1)] =>
    pose proof (evolves_create_user db1 d) as H3;
    destruct (Store.create d (users db1)) as [uid cu] end.
  simpl in *. eauto using evolves_trans.
Qed.

Lemma changePassword_evolves env db ctx body :
  ctxOf db ctx → evolves db (changePassword env db ctx body).2.
Proof.
  intros Hctx. destruct (ctxOf_docs _ _ Hctx) as (Hu & _ & _).
  unfold changePassword.
  destruct (_ || _); [apply evolves_refl|].
  destruct (req_user ctx) as [user|]; [|apply evolves_refl].
  specialize (Hu _ eq_refl).
  repeat case_match; try apply evolves_refl. simpl.
  apply evolves_users.
  apply (grows_save _ _ _ (user_doc user)); [apply userKeeps_refl|done|].
  by repeat split.
Qed.

Lemma logout_evolves env db ctx :
  ctxOf db ctx → evolves db (logout env db ctx).2.
Proof.
  intros Hctx. destruct (ctxOf_docs _ _ Hctx) as (Hu & _ & _).
  unfold logout.
  destruct (req_user ctx) as [user|]; [|apply evolves_refl].
  specialize (Hu _ eq_refl). simpl.
  apply evolves_users.
  apply (grows_save _ _ _ (user_doc user)); [apply userKeeps_refl|done|].
  by repeat split.
Qed.

Lemma handle_evolves env db r : evolves db (handle env db r).2.
Proof.
  destruct r; simpl;
    unfold POST_auth_register, POST_auth_login, GET_auth_profile, POST_auth_invite,
      POST_auth_change_password, POST_auth_logout, POST_notes, GET_notes,
      GET_notes_my_notes, GET_notes_id, PUT_notes_id, DELETE_notes_id,
      GET_subscription, POST_subscription_upgrade,
      POST_subscription_verify_payment, GET_subscription_payments,
      POST_subscription_cancel;
    try (apply (serve_preserves (evolves db)); [apply evolves_refl|];
         intros ctx Hchain; simpl; try apply evolves_refl).
  - apply register_evolves.
  - apply login_evolves.
  - apply inviteUser_evolves.
  - apply changePassword_evolves. chain_ctxOf Hchain.
  - apply logout_evolves. chain_ctxOf Hchain.
  - apply createNote_evolves. chain_ctxOf Hchain.
  - apply updateNote_evolves. chain_ctxOf Hchain.
  - apply deleteNote_evolves. chain_ctxOf Hchain.
  - apply upgradeSubscription_evolves.
  - apply verifyPaymentAndUpgrade_evolves. chain_ctxOf Hchain.
  - apply cancelSubscription_evolves. chain_ctxOf Hchain.
Qed.

Lemma run_evolves db trace : evolves db (run db trace).
Proof.
  revert db. induction trace as [|[env r] trace IH]; intros db; simpl.
  - apply evolves_refl.
  - eapply evolves_trans; [apply handle_evolves|apply IH].
Qed.

Lemma grows_dom {A} (R : A → A → Prop) (m m' : gmap nat A) :
  grows R m m' → dom m ⊆ dom m'.
Proof.
  intros H i [x Hx]%elem_of_dom. destruct (H _ _ Hx) as (x' & Hx' & _).
  apply elem_of_dom. eauto.
Qed.

(** X6: no sequence of requests removes a document from any
    collection, and role and tag documents are never modified once
    stored. *)
Theorem documents_are_never_removed (db : Db) (trace : list (Env * Request)) :
  dom (accounts db) ⊆ dom (accounts (run db trace))
  ∧ dom (roles db) ⊆ dom (roles (run db trace))
  ∧ dom (users db) ⊆ dom (users (run db trace))
  ∧ dom (notes db) ⊆ dom (notes (run db trace))
  ∧ dom (tags db) ⊆ dom (tags (run db trace))
  ∧ dom (subscriptions db) ⊆ dom (subscriptions (run db trace))
  ∧ dom (payments db) ⊆ dom (payments (run db trace))
  ∧ (∀ i r, roles db !! i = Some r → roles (run db trace) !! i = Some r)
  ∧ (∀ i t, tags db !! i = Some t → tags (run db trace) !! i = Some t).
Proof.
  destruct (run_evolves db trace) as (Ha & Hr & Hu & Hn & Ht & Hs & Hp).
  repeat split; try by eapply grows_dom.
  - intros i r Hl. by destruct (Hr _ _ Hl) as (? & ? & <-).
  - intros i t Hl. by destruct (Ht _ _ Hl) as (? & ? & <-).
Qed.

Lemma documents_are_never_removed_witness :
  roles (run demoDb demoCreateDelete) !! 0%nat
  = Some {| Role.account := 0; Role.roleName := ADMIN |}.
Proof.
  apply (documents_are_never_removed demoDb demoCreateDelete). by vm_compute.
Defined.

(** X7: through any sequence of requests a payment keeps its account,
    gateway order id, amount, currency and creation time; its status only
    ever moves from pending to success or failed, and a payment that is
    no longer pending is never modified again. *)
Theorem payment_outcome_is_final (db : Db) (trace : list (Env * Request))
    (i : nat) (p : Payment.doc) :
  payments db !! i = Some p →
  ∃ p', payments (run db trace) !! i = Some p'
        ∧ paymentKeeps p p'
        ∧ (Payment.status p ≠ PENDING → p' = p).
Proof.
  intros Hl. destruct (run_evolves db trace) as (_&_&_&_&_&_&Hp).
  destruct (Hp _ _ Hl) as (p' & Hp' & Hk). exists p'. split; [done|].
  split; [done|]. by destruct Hk as (_&_&_&_&_&Hfin&_).
Qed.

Lemma payment_outcome_is_final_witness :
  ∃ p', payments (run demoDbPro demoAfterUpgrade) !! 0%nat = Some p'
        ∧ paymentKeeps demoPaymentDone p'
        ∧ (Payment.status demoPaymentDone ≠ PENDING → p' = demoPaymentDone).
Proof.
  apply (payment_outcome_is_final demoDbPro demoAfterUpgrade 0 demoPaymentDone).
  by vm_compute.
Defined.

(** X8: through any sequence of requests a note keeps its account, its
    owner and its creation time, and a note that has been soft-deleted is
    never modified or restored. *)
Theorem deleted_note_is_final (db : Db) (trace : list (Env * Request))
    (i : nat) (n : Note.doc) :
  notes db !! i = Some n →
  ∃ n', notes (run db trace) !! i = Some n'
        ∧ Note.account n' = Note.account n
        ∧ Note.user n' = Note.user n
        ∧ Note.createdAt n' = Note.createdAt n
        ∧ (Note.isDeleted n = true → n' = n).
Proof.
  intros Hl. destruct (run_evolves db trace) as (_&_&_&Hn&_).
  destruct (Hn _ _ Hl) as (n' & Hn' & Hk). by exists n'.
Qed.

(** X9: through any sequence of requests a subscription keeps its
    account, plan, start and end dates; the only change of status is from
    active to cancelled, and a subscription that is not active is never
    modified again. *)
Theorem subscription_only_gets_cancelled (db : Db) (trace : list (Env * Request))
    (i : nat) (s : Subscription.doc) :
  subscriptions db !! i = Some s →
  ∃ s', subscriptions (run db trace) !! i = Some s'
        ∧ Subscription.account s' = Subscription.account s
        ∧ Subscription.plan s' = Subscription.plan s
        ∧ Subscription.startDate s' = Subscription.startDate s
        ∧ Subscription.endDate s' = Subscription.endDate s
        ∧ (Subscription.status s ≠ active → s' = s)
        ∧ (s' = s ∨ Subscription.status s' = cancelled).
Proof.
  intros Hl. destruct (run_evolves db trace) as (_&_&_&_&_&Hs&_).
  destruct (Hs _ _ Hl) as (s' & Hs' & Hk). by exists s'.
Qed.

Lemma subscription_only_gets_cancelled_witness :
  ∃ s', subscriptions (run demoDbPro demoAfterUpgrade) !! 0%nat = Some s'
        ∧ Subscription.account s' = 0%nat
        ∧ Subscription.plan s' = PRO
        ∧ Subscription.startDate s' = 7000
        ∧ Subscription.endDate s' = Some (7000 + oneYear)
        ∧ (Subscription.status demoSubscription ≠ active → s' = demoSubscription)
        ∧ (s' = demoSubscription ∨ Subscription.status s' = cancelled).
Proof.
  apply (subscription_only_gets_cancelled demoDbPro demoAfterUpgrade 0
           demoSubscription).
  by vm_compute.
Defined.

(** X10: no sequence of requests changes the account, email, name,
    role, active flag or deleted flag of a stored user, nor the slug,
    active flag or deleted flag of a stored account: no endpoint
    deactivates, deletes or moves users or accounts. *)
Theorem identity_fields_never_change (db : Db) (trace : list (Env * Request)) :
  (∀ i u, users db !! i = Some u →
     ∃ u', users (run db trace) !! i = Some u' ∧ userKeeps u u')
  ∧ (∀ i a, accounts db !! i = Some a →
       ∃ a', accounts (run db trace) !! i = Some a' ∧ accountKeeps a a').
Proof.
  destruct (run_evolves db trace) as (Ha&_&Hu&_). by split.
Qed.

Lemma identity_fields_never_change_witness :
  ∃ u', users (run demoDb demoCreateDelete) !! 0%nat = Some u'
        ∧ userKeeps demoAdmin u'.
Proof.
  apply (identity_fields_never_change demoDb demoCreateDelete). by vm_compute.
Defined.

Lemma deleted_note_is_final_witness :
  ∃ n', notes (run demoDbDeleted demoAfterDelete) !! 0%nat = Some n'
        ∧ Note.account n' = 0%nat
        ∧ Note.user n' = 0%nat
        ∧ Note.createdAt n' = 3000
        ∧ (true = true → n' = Note.set_isDeleted true demoStoredNote).
Proof.
  apply (deleted_note_is_final demoDbDeleted demoAfterDelete 0
           (Note.set_isDeleted true demoStoredNote)).
  by vm_compute.
Defined.

(** ** Plan and subscriptions stay coherent *)

Lemma verifyPaymentAndUpgrade_effect env db ctx body aid a :
  req_account ctx = Some (aid, a) →
  let out := verifyPaymentAndUpgrade env db ctx body in
  (accounts out.2 = accounts db ∧ subscriptions out.2 = subscriptions db
   ∧ statusCode out.1 ≠ 200)
  ∨ (statusCode out.1 = 200
     ∧ accounts out.2
       = <[aid := Account.set_currentSubscription
                    (Some (Store.newId (cancelActive (clock env 1) aid
                                          (subscriptions db))))
                    (Account.set_limit (-1) (Account.set_plan PRO a))]>
           (accounts db)
     ∧ subscriptions out.2
       = <[Store.newId (cancelActive (clock env 1) aid (subscriptions db))
             := newSubscription env aid]>
           (cancelActive (clock env 1) aid (subscriptions db))).
Proof.
  intros Hreq out. subst out. unfold verifyPaymentAndUpgrade.
  destruct (paymentId body) as [pid|]; [|by left].
  destruct (_ || _); [by left|]. rewrite Hreq. cbn [fst snd].
  destruct (Store.findOne _ (payments db)) as [[pid' p]|]; [|by left].
  destruct (negb (verifyPaymentSignature env _ _ _)); [by left|].
  destruct (getPaymentDetails env _) as [details|]; [|by left].
  destruct (paymentIdTaken _ _ _); [by left|].
  right. cbv zeta. simpl (subscriptions (set_payments _ _)).
  unfold cancelActive, newSubscription.
  destruct (Store.findOne (isActiveOf aid) (subscriptions db)) as [[sid0 s0]|] eqn:E;
    unfold Store.create, upgradeToPro, Store.save; simpl; rewrite ?E; simpl;
    rewrite !insert_insert_eq; done.
Qed.

Lemma cancelSubscription_effect env db ctx aid a :
  req_account ctx = Some (aid, a) →
  let out := cancelSubscription env db ctx in
  (out.2 = db ∧ Store.findOne (isActiveOf aid) (subscriptions db) = None)
  ∨ (∃ sid s,
       Store.findOne (isActiveOf aid) (subscriptions db) = Some (sid, s)
       ∧ accounts out.2
         = <[aid := Account.set_currentSubscription None
                      (Account.set_limit 3 (Account.set_plan FREE a))]>
             (accounts db)
       ∧ subscriptions out.2
         = <[sid := Subscription.cancel (clock env 1) s]> (subscriptions db)).
Proof.
  intros Hreq out. subst out. unfold cancelSubscription. rewrite Hreq. cbn [fst snd].
  destruct (Store.findOne (isActiveOf aid) (subscriptions db)) as [[sid s]|] eqn:E.
  - right. by exists sid, s.
  - by left.
Qed.

Lemma cancel_not_active now s aid : ¬ activeOf aid (Subscription.cancel now s).
Proof. by intros [_ ?]. Qed.

Lemma cancelActive_lookup now aid subs i s :
  cancelActive now aid subs !! i = Some s →
  subs !! i = Some s
  ∨ (Subscription.status s = cancelled ∧ Subscription.account s = aid
     ∧ ∃ s0, subs !! i = Some s0 ∧ activeOf aid s0).
Proof.
  unfold cancelActive.
  destruct (Store.findOne (isActiveOf aid) subs) as [[sid0 s0]|] eqn:E; [|by left].
  apply findOne_Some in E as [Hl Hact%isActiveOf_true].
  destruct (decide (i = sid0)) as [->|Hne].
  - rewrite lookup_insert_eq. intros [= <-]. right.
    split; [done|]. split; [apply Hact|]. eauto.
  - rewrite lookup_insert_ne by done. by left.
Qed.

Lemma cancelActive_none now aid subs :
  (∀ i j s s', subs !! i = Some s → activeOf aid s →
               subs !! j = Some s' → activeOf aid s' → i = j) →
  ∀ i s, cancelActive now aid subs !! i = Some s → ¬ activeOf aid s.
Proof.
  intros Hone i s Hl Hact. unfold cancelActive in Hl.
  destruct (Store.findOne (isActiveOf aid) subs) as [[sid0 s0]|] eqn:E.
  - apply findOne_Some in E as [Hl0 Hact0%isActiveOf_true].
    destruct (decide (i = sid0)) as [->|Hne].
    + rewrite lookup_insert_eq in Hl. injection Hl as <-.
      by apply cancel_not_active in Hact.
    + rewrite lookup_insert_ne in Hl by done. by destruct Hne; eapply Hone.
  - eapply isActiveOf_false; [|done]. by eapply findOne_None.
Qed.

Lemma cancelActive_other now aid subs aid' i s :
  aid' ≠ aid →
  (cancelActive now aid subs !! i = Some s ∧ activeOf aid' s)
  ↔ (subs !! i = Some s ∧ activeOf aid' s).
Proof.
  intros Hne. unfold cancelActive.
  destruct (Store.findOne (isActiveOf aid) subs) as [[sid0 s0]|] eqn:E; [|done].
  apply findOne_Some in E as [Hl0 [Hacc0 Hst0]%isActiveOf_true].
  destruct (decide (i = sid0)) as [->|Hne'].
  - rewrite lookup_insert_eq. split.
    + intros [[= <-] [_ Hst]]. done.
    + intros [Hl [Hacc _]]. congruence.
  - by rewrite lookup_insert_ne.
Qed.

Lemma planCoherent_atMostOne db aid a :
  planCoherentAt db aid a → atMostOneActive db aid.
Proof.
  unfold planCoherentAt. intros H i j s s' Hi Hs Hj Hs'.
  destruct (Account.plan a).
  - destruct H as (_ & _ & Hnone). by destruct (Hnone _ _ Hi).
  - destruct H as (_ & sid & s0 & _ & _ & _ & Huniq).
    rewrite (Huniq _ _ Hi Hs). by rewrite (Huniq _ _ Hj Hs').
Qed.

Lemma planCoherentAt_subs db db' aid a :
  subscriptions db' = subscriptions db →
  planCoherentAt db aid a → planCoherentAt db' aid a.
Proof. unfold planCoherentAt. by intros ->. Qed.

Lemma planCoherentAt_fields db aid a a' :
  Account.plan a' = Account.plan a → Account.limit a' = Account.limit a →
  Account.currentSubscription a' = Account.currentSubscription a →
  planCoherentAt db aid a → planCoherentAt db aid a'.
Proof. unfold planCoherentAt. by intros -> -> ->. Qed.

Lemma planCoherent_same db db' :
  accounts db' = accounts db → subscriptions db' = subscriptions db →
  planCoherent db → planCoherent db'.
Proof.
  intros Ha Hs [H1 H2]. split.
  - intros aid a Hl. rewrite Ha in Hl.
    eapply planCoherentAt_subs; [done|]. by apply H1.
  - intros sid s Hl. rewrite Hs in Hl. rewrite Ha. by eapply H2.
Qed.

Lemma planCoherent_save_account db db' aid a a' :
  accounts db' = <[aid := a']> (accounts db) →
  subscriptions db' = subscriptions db →
  accounts db !! aid = Some a →
  Account.plan a' = Account.plan a → Account.limit a' = Account.limit a →
  Account.currentSubscription a' = Account.currentSubscription a →
  planCoherent db → planCoherent db'.
Proof.
  intros Ha Hs Hl Hp Hlim Hcs [H1 H2]. split.
  - intros i x Hx. rewrite Ha in Hx.
    eapply planCoherentAt_subs; [done|].
    destruct (decide (i = aid)) as [->|Hne].
    + rewrite lookup_insert_eq in Hx. injection Hx as <-.
      eapply planCoherentAt_fields; eauto.
    + rewrite lookup_insert_ne in Hx by done. by apply H1.
  - intros sid s Hx. rewrite Hs in Hx. rewrite Ha.
    destruct (H2 _ _ Hx) as [x Hx'].
    destruct (decide (Subscription.account s = aid)) as [->|Hne].
    + rewrite lookup_insert_eq. eauto.
    + rewrite lookup_insert_ne by done. eauto.
Qed.

Lemma planCoherent_new_account db db' a' :
  accounts db' = <[Store.newId (accounts db) := a']> (accounts db) →
  subscriptions db' = subscriptions db →
  Account.plan a' = FREE → Account.limit a' = Account.default_limit →
  Account.currentSubscription a' = None →
  planCoherent db → planCoherent db'.
Proof.
  intros Ha Hs Hp Hlim Hcs [H1 H2]. split.
  - intros i x Hx. rewrite Ha in Hx.
    eapply planCoherentAt_subs; [done|].
    destruct (decide (i = Store.newId (accounts db))) as [->|Hne].
    + rewrite lookup_insert_eq in Hx. injection Hx as <-.
      unfold planCoherentAt. rewrite Hp. repeat split; try done.
      intros sid s Hl [Hacc _]. destruct (H2 _ _ Hl) as [x Hx].
      rewrite Hacc, newId_fresh in Hx. done.
    + rewrite lookup_insert_ne in Hx by done. by apply H1.
  - intros sid s Hx. rewrite Hs in Hx. rewrite Ha.
    destruct (H2 _ _ Hx) as [x Hx'].
    rewrite lookup_insert_ne; [eauto|]. intros Heq.
    rewrite <- Heq, newId_fresh in Hx'. done.
Qed.

Lemma createNote_planCoherent env db ctx body :
  ctxOf db ctx → planCoherent db → planCoherent (createNote env db ctx body).2.
Proof.
  intros Hctx Hdb. destruct (ctxOf_docs _ _ Hctx) as (_ & Hacc & _).
  unfold createNote.
  destruct (cn_title body) as [[|c title]|]; try done.
  match goal with |- context [resolveTags ?x ?y ?z ?w] =>
    pose proof (resolveTags_frame x y z w) as Hframe;
    destruct (resolveTags x y z w) as [[tagIds|] db1] end;
    destruct Hframe as (Ha & _ & _ & _ & Hs & _); simpl in *;
    [|by eapply planCoherent_same].
  destruct (req_user ctx) as [user|]; [|by eapply planCoherent_same].
  destruct (req_account ctx) as [[aid a]|] eqn:Hreq; [|by eapply planCoherent_same].
  case_match; [|by eapply planCoherent_same].
  unfold Store.create, incrementNoteCount, Store.save. simpl.
  apply (planCoherent_save_account db _ aid a
           (Account.set_noteCount (Account.noteCount a + 1) a)); simpl; auto.
  by rewrite Ha.
Qed.

Lemma deleteNote_planCoherent db ctx id :
  ctxOf db ctx → planCoherent db → planCoherent (deleteNote db ctx id).2.
Proof.
  intros Hctx Hdb. destruct (ctxOf_docs _ _ Hctx) as (_ & Hacc & _).
  unfold deleteNote.
  destruct (findNote id (tenantFilter_or_empty ctx) db) as [[nid note]|]; [|done].
  destruct (req_user ctx) as [user|]; [|done].
  destruct (notOwnerNorAdmin user note) as [[]|]; try done.
  destruct (req_account ctx) as [[aid a]|] eqn:Hreq;
    [|by eapply planCoherent_same].
  unfold decrementNoteCount, Store.save. simpl.
  destruct (0 <? Account.noteCount a); simpl; [|by eapply planCoherent_same].
  apply (planCoherent_save_account db _ aid a
           (Account.set_noteCount (Account.noteCount a - 1) a)); simpl; auto.
Qed.

Lemma register_planCoherent env db body :
  planCoherent db → planCoherent (register env db body).2.
Proof.
  intros Hdb. unfold register.
  destruct (_ || _); [done|].
  destruct (Store.findOne _ (users db)); [done|].
  destruct (freeSlug _ _ _ _ _) as [slug|]; [|done].
  destruct (_ || _); [done|].
  unfold Store.create. simpl.
  destruct (validUser _ _ _); simpl;
    by eapply (planCoherent_new_account db).
Qed.

Lemma verifyPaymentAndUpgrade_planCoherent env db ctx body :
  ctxOf db ctx → planCoherent db →
  planCoherent (verifyPaymentAndUpgrade env db ctx body).2.
Proof.
  intros Hctx Hdb. destruct (ctxOf_docs _ _ Hctx) as (_ & Hacc & _).
  destruct (req_account ctx) as [[aid a]|] eqn:Hreq.
  2: { unfold verifyPaymentAndUpgrade. rewrite Hreq. by repeat case_match. }
  specialize (Hacc _ _ eq_refl).
  destruct (verifyPaymentAndUpgrade_effect env db ctx body aid a Hreq)
    as [(Ha & Hs & _)|(_ & Ha & Hs)]; [by eapply planCoherent_same|].
  destruct Hdb as [H1 H2].
  pose proof (planCoherent_atMostOne _ _ _ (H1 _ _ Hacc)) as Hone.
  set (subs := cancelActive (clock env 1) aid (subscriptions db)) in *.
  assert (Hfresh : subs !! Store.newId subs = None) by apply newId_fresh.
  split.
  - intros i x Hx. rewrite Ha in Hx.
    destruct (decide (i = aid)) as [->|Hne].
    + rewrite lookup_insert_eq in Hx. injection Hx as <-.
      unfold planCoherentAt. simpl. split; [done|].
      exists (Store.newId subs), (newSubscription env aid).
      rewrite Hs, lookup_insert_eq. repeat split.
      intros sid' s' Hl' Hact'.
      destruct (decide (sid' = Store.newId subs)) as [|Hne']; [done|].
      rewrite lookup_insert_ne in Hl' by done.
      by destruct (cancelActive_none _ _ _ Hone _ _ Hl').
    + rewrite lookup_insert_ne in Hx by done.
      assert (Hiff : ∀ sid s, subscriptions
                       (verifyPaymentAndUpgrade env db ctx body).2 !! sid = Some s
                     ∧ activeOf i s
                     ↔ subscriptions db !! sid = Some s ∧ activeOf i s).
      { intros sid s. rewrite Hs.
        destruct (decide (sid = Store.newId subs)) as [->|Hne'].
        - rewrite lookup_insert_eq. split.
          + intros [[= <-] [Hacc' _]]. done.
          + intros [Hl Hact]. exfalso.
            assert (subs !! Store.newId subs = Some s); [|congruence].
            by apply (cancelActive_other (clock env 1) aid _ i).
        - rewrite lookup_insert_ne by done.
          by apply cancelActive_other. }
      specialize (H1 _ _ Hx). unfold planCoherentAt in *.
      destruct (Account.plan x).
      * destruct H1 as (? & ? & Hnone). repeat split; try done.
        intros sid s Hl Hact. destruct (proj1 (Hiff sid s) (conj Hl Hact)) as [Hl' _].
        by destruct (Hnone _ _ Hl').
      * destruct H1 as (? & sid & s & ? & Hl & Hact & Huniq). split; [done|].
        exists sid, s. destruct (proj2 (Hiff sid s) (conj Hl Hact)) as [Hl' _].
        repeat split; try done; try apply Hact.
        intros sid' s' Hl'' Hact'.
        destruct (proj1 (Hiff sid' s') (conj Hl'' Hact')) as [Hl3 _]. eauto.
  - intros sid s Hx. rewrite Hs in Hx. rewrite Ha.
    assert (Hin : is_Some (accounts db !! Subscription.account s)).
    { destruct (decide (sid = Store.newId subs)) as [->|Hne'].
      - rewrite lookup_insert_eq in Hx. injection Hx as <-. simpl. eauto.
      - rewrite lookup_insert_ne in Hx by done.
        destruct (cancelActive_lookup _ _ _ _ _ Hx) as [Hl|(_ & -> & _)];
          [by eapply H2|eauto]. }
    destruct Hin as [x Hx'].
    destruct (decide (Subscription.account s = aid)) as [->|Hne].
    + rewrite lookup_insert_eq. eauto.
    + rewrite lookup_insert_ne by done. eauto.
Qed.

Lemma cancelSubscription_planCoherent env db ctx :
  ctxOf db ctx → planCoherent db → planCoherent (cancelSubscription env db ctx).2.
Proof.
  intros Hctx Hdb. destruct (ctxOf_docs _ _ Hctx) as (_ & Hacc & _).
  destruct (req_account ctx) as [[aid a]|] eqn:Hreq.
  2: { unfold cancelSubscription. by rewrite Hreq. }
  specialize (Hacc _ _ eq_refl).
  destruct (cancelSubscription_effect env db ctx aid a Hreq)
    as [[-> _]|(sid & s & Hfind & Ha & Hs)]; [done|].
  apply findOne_Some in Hfind as [Hl Hact%isActiveOf_true].
  destruct Hdb as [H1 H2].
  pose proof (planCoherent_atMostOne _ _ _ (H1 _ _ Hacc)) as Hone.
  split.
  - intros i x Hx. rewrite Ha in Hx.
    destruct (decide (i = aid)) as [->|Hne].
    + rewrite lookup_insert_eq in Hx. injection Hx as <-.
      unfold planCoherentAt. simpl. repeat split.
      intros sid' s' Hl' Hact'. rewrite Hs in Hl'.
      destruct (decide (sid' = sid)) as [->|Hne'].
      * rewrite lookup_insert_eq in Hl'. injection Hl' as <-.
        by apply cancel_not_active in Hact'.
      * rewrite lookup_insert_ne in Hl' by done. by destruct Hne'; eapply Hone.
    + rewrite lookup_insert_ne in Hx by done.
      assert (Hiff : ∀ sid' s', subscriptions (cancelSubscription env db ctx).2
                                  !! sid' = Some s' ∧ activeOf i s'
                                ↔ subscriptions db !! sid' = Some s' ∧ activeOf i s').
      { intros sid' s'. rewrite Hs.
        destruct (decide (sid' = sid)) as [->|Hne'].
        - rewrite lookup_insert_eq. destruct Hact as [Hacc' _]. split.
          + intros [[= <-] [_ Hst]]. done.
          + intros [Hl' [Hacc'' _]]. congruence.
        - by rewrite lookup_insert_ne. }
      specialize (H1 _ _ Hx). unfold planCoherentAt in *.
      destruct (Account.plan x).
      * destruct H1 as (? & ? & Hnone). repeat split; try done.
        intros sid' s' Hl' Hact'.
        destruct (proj1 (Hiff sid' s') (conj Hl' Hact')) as [Hl'' _].
        by destruct (Hnone _ _ Hl'').
      * destruct H1 as (? & sid0 & s0 & ? & Hl0 & Hact0 & Huniq). split; [done|].
        exists sid0, s0. destruct (proj2 (Hiff sid0 s0) (conj Hl0 Hact0)) as [Hl' _].
        repeat split; try done; try apply Hact0.
        intros sid' s' Hl'' Hact'.
        destruct (proj1 (Hiff sid' s') (conj Hl'' Hact')) as [Hl3 _]. eauto.
  - intros sid' s' Hx. rewrite Hs in Hx. rewrite Ha.
    assert (Hin : is_Some (accounts db !! Subscription.account s')).
    { destruct (decide (sid' = sid)) as [->|Hne'].
      - rewrite lookup_insert_eq in Hx. injection Hx as <-. simpl. by eapply H2.
      - rewrite lookup_insert_ne in Hx by done. by eapply H2. }
    destruct Hin as [x Hx'].
    destruct (decide (Subscription.account s' = aid)) as [->|Hne].
    + rewrite lookup_insert_eq. eauto.
    + rewrite lookup_insert_ne by done. eauto.
Qed.

Lemma upgradeSubscription_subscriptions env db ctx pm :
  subscriptions (upgradeSubscription env db ctx pm).2 = subscriptions db.
Proof. unfold upgradeSubscription. by repeat case_match. Qed.

Lemma login_subscriptions env db ip body :
  subscriptions (login env db ip body).2 = subscriptions db.
Proof.
  unfold login, localStrategy. repeat case_match; simplify_eq/=; done.
Qed.

Lemma inviteUser_subscriptions env db ctx body :
  subscriptions (inviteUser env db ctx body).2 = subscriptions db.
Proof.
  unfold inviteUser, Store.create. repeat case_match; simplify_eq/=; done.
Qed.

Lemma changePassword_subscriptions env db ctx body :
  subscriptions (changePassword env db ctx body).2 = subscriptions db.
Proof. unfold changePassword. by repeat case_match. Qed.

Lemma logout_subscriptions env db ctx :
  subscriptions (logout env db ctx).2 = subscriptions db.
Proof. unfold logout. by repeat case_match. Qed.

Lemma handle_planCoherent env db r :
  planCoherent db → planCoherent (handle env db r).2.
Proof.
  intros Hdb. destruct r; simpl;
    unfold POST_auth_register, POST_auth_login, GET_auth_profile, POST_auth_invite,
      POST_auth_change_password, POST_auth_logout, POST_notes, GET_notes,
      GET_notes_my_notes, GET_notes_id, PUT_notes_id, DELETE_notes_id,
      GET_subscription, POST_subscription_upgrade,
      POST_subscription_verify_payment, GET_subscription_payments,
      POST_subscription_cancel;
    try (apply serve_preserves; [done|]; intros ctx Hchain; simpl; try done).
  - by apply register_planCoherent.
  - eapply planCoherent_same; [apply login_accounts|apply login_subscriptions|done].
  - eapply planCoherent_same;
      [apply inviteUser_accounts|apply inviteUser_subscriptions|done].
  - eapply planCoherent_same;
      [apply changePassword_accounts|apply changePassword_subscriptions|done].
  - eapply planCoherent_same; [apply logout_accounts|apply logout_subscriptions|done].
  - apply createNote_planCoherent; [|done]. chain_ctxOf Hchain.
  - destruct (updateNote_frame db ctx id body) as (?&?&?&?&?).
    by eapply planCoherent_same.
  - apply deleteNote_planCoherent; [|done]. chain_ctxOf Hchain.
  - eapply planCoherent_same;
      [apply upgradeSubscription_accounts|apply upgradeSubscription_subscriptions
      |done].
  - apply verifyPaymentAndUpgrade_planCoherent; [|done]. chain_ctxOf Hchain.
  - apply cancelSubscription_planCoherent; [|done]. chain_ctxOf Hchain.
Qed.

Lemma run_planCoherent db trace : planCoherent db → planCoherent (run db trace).
Proof.
  revert db. induction trace as [|[env r] trace IH]; intros db Hdb; simpl; [done|].
  by apply IH, handle_planCoherent.
Qed.

Lemma planCoherent_empty : planCoherent empty_db.
Proof. split; intros ?? Hl; simpl in Hl; by rewrite lookup_empty in Hl. Qed.

(** X11: in every state the service reaches from the empty store, an
    account on the free plan has the free quota 3, no current
    subscription and no active subscription, and an account on the pro
    plan has the unlimited quota -1 and a current subscription that is
    its only active subscription; so no account ever has two active
    subscriptions. *)
Theorem plan_and_subscriptions_coherent (trace : list (Env * Request))
    (aid : nat) (a : Account.doc) :
  accounts (run empty_db trace) !! aid = Some a →
  planCoherentAt (run empty_db trace) aid a
  ∧ atMostOneActive (run empty_db trace) aid
  ∧ (Account.plan a = PRO ↔ Account.limit a = -1)
  ∧ (Account.plan a = FREE ↔ Account.currentSubscription a = None).
Proof.
  intros Hl.
  destruct (run_planCoherent empty_db trace planCoherent_empty) as [H1 _].
  specialize (H1 _ _ Hl). split; [done|]. split; [by eapply planCoherent_atMostOne|].
  unfold planCoherentAt, Account.default_limit in H1.
  destruct (Account.plan a).
  - destruct H1 as (-> & -> & _). by repeat split.
  - destruct H1 as (-> & sid & s & -> & _). by repeat split.
Qed.

Lemma plan_and_subscriptions_coherent_witness :
  atMostOneActive
    (run empty_db
       [(demoEnv 1000, demoSignup);
        (demoEnv 6000, PostUpgrade (bearer (demoToken 2000)) "acme" None);
        (demoEnv 7000, PostVerifyPayment (bearer (demoToken 2000)) demoVerify)])
    0.
Proof.
  eapply (plan_and_subscriptions_coherent _ 0 demoAccountPro). by vm_compute.
Defined.

(** ** Handlers that leave notes and tags alone *)

Lemma verifyPaymentAndUpgrade_notes_tags env db ctx body :
  notes (verifyPaymentAndUpgrade env db ctx body).2 = notes db
  ∧ tags (verifyPaymentAndUpgrade env db ctx body).2 = tags db.
Proof.
  unfold verifyPaymentAndUpgrade.
  destruct (paymentId body) as [pid|]; [|done].
  destruct (_ || _); [done|].
  destruct (req_account ctx) as [[aid a]|]; [|done].
  destruct (Store.findOne _ (payments db)) as [[pid' p]|]; [|done].
  destruct (negb (verifyPaymentSignature env _ _ _)); [done|].
  destruct (getPaymentDetails env _) as [details|]; [|done].
  destruct (paymentIdTaken _ _ _); [done|].
  cbv zeta. simpl (subscriptions (set_payments _ _)).
  destruct (Store.findOne (isActiveOf _) (subscriptions db)) as [[sid0 s0]|] eqn:E;
    unfold Store.create, upgradeToPro, Store.save; simpl; rewrite ?E; done.
Qed.

Lemma cancelSubscription_notes_tags env db ctx :
  notes (cancelSubscription env db ctx).2 = notes db
  ∧ tags (cancelSubscription env db ctx).2 = tags db.
Proof. unfold cancelSubscription. by repeat case_match. Qed.

Lemma register_notes_tags env db body :
  notes (register env db body).2 = notes db
  ∧ tags (register env db body).2 = tags db.
Proof. unfold register, Store.create. by repeat case_match. Qed.

Lemma login_notes_tags env db ip body :
  notes (login env db ip body).2 = notes db ∧ tags (login env db ip body).2 = tags db.
Proof. unfold login, localStrategy. repeat case_match; simplify_eq/=; done. Qed.

Lemma inviteUser_notes_tags env db ctx body :
  notes (inviteUser env db ctx body).2 = notes db
  ∧ tags (inviteUser env db ctx body).2 = tags db.
Proof. unfold inviteUser, Store.create. repeat case_match; simplify_eq/=; done. Qed.

Lemma changePassword_notes_tags env db ctx body :
  notes (changePassword env db ctx body).2 = notes db
  ∧ tags (changePassword env db ctx body).2 = tags db.
Proof. unfold changePassword. by repeat case_match. Qed.

Lemma logout_notes_tags env db ctx :
  notes (logout env db ctx).2 = notes db ∧ tags (logout env db ctx).2 = tags db.
Proof. unfold logout. by repeat case_match. Qed.

Lemma upgradeSubscription_notes_tags env db ctx pm :
  notes (upgradeSubscription env db ctx pm).2 = notes db
  ∧ tags (upgradeSubscription env db ctx pm).2 = tags db.
Proof. unfold upgradeSubscription. by repeat case_match. Qed.

Lemma deleteNote_tags db ctx id : tags (deleteNote db ctx id).2 = tags db.
Proof.
  unfold deleteNote, decrementNoteCount. repeat case_match; simplify_eq/=; done.
Qed.

(** ** Tags *)

Lemma normalized_idem s : normalized (normalized s) = normalized s.
Proof.
  unfold normalized. by rewrite toLowerCase_trim, toLowerCase_idem, trim_idem.
Qed.

Lemma findOrCreate_spec account tagName db i db' :
  findOrCreate account tagName db = Some (i, db') →
  ∃ t, tags db' !! i = Some t
       ∧ Tag.account t = account ∧ Tag.tagName t = normalized tagName
       ∧ ((db' = db)
          ∨ (tags db !! i = None
             ∧ (∀ j t', tags db !! j = Some t' →
                  ¬ (Tag.account t' = account ∧ Tag.tagName t' = normalized tagName))
             ∧ JS.truthy (normalized tagName) = true
             ∧ JS.length (normalized tagName) ≤ 50
             ∧ db' = set_tags (<[i := t]> (tags db)) db)).
Proof.
  unfold findOrCreate, normalized. intros H.
  destruct (Store.findOne _ (tags db)) as [[j t]|] eqn:E.
  - injection H as <- <-. apply findOne_Some in E as [Hl Hq].
    apply andb_true_iff in Hq as [?%bool_decide_eq_true ?%bool_decide_eq_true].
    exists t. repeat split; try done. by left.
  - destruct (JS.truthy _) eqn:Ht; [|done].
    destruct (_ <=? 50) eqn:Hlen; [|done]. simpl in H. injection H as <- <-.
    eexists. simpl. rewrite lookup_insert_eq. repeat split. right.
    split; [apply newId_fresh|]. split.
    { intros j t' Hl [Hacc Hname].
      pose proof (findOne_None _ _ _ _ E Hl) as Hq. simpl in Hq.
      rewrite Hacc, Hname in Hq.
      by rewrite !bool_decide_eq_true_2 in Hq. }
    split; [done|]. split; [lia|done].
Qed.

Lemma findOrCreate_tagsWellFormed account tagName db i db' :
  findOrCreate account tagName db = Some (i, db') →
  tagsWellFormed db → tagsWellFormed db'.
Proof.
  intros H [Hwf Huniq].
  destruct (findOrCreate_spec _ _ _ _ _ H)
    as (t & Hl & Hacc & Hname & [->|(Hfresh & Hnone & Htruthy & Hlen & ->)]);
    [done|].
  simpl in *. clear Hl. split; simpl.
  - intros j t' Hj. destruct (decide (j = i)) as [->|Hne].
    + rewrite lookup_insert_eq in Hj. injection Hj as <-.
      rewrite Hname. by rewrite normalized_idem.
    + rewrite lookup_insert_ne in Hj by done. by eapply Hwf.
  - intros j k t1 t2 Hj Hk Ha Hn.
    destruct (decide (j = i)) as [->|Hj']; destruct (decide (k = i)) as [->|Hk'];
      try done.
    + rewrite lookup_insert_eq in Hj. rewrite lookup_insert_ne in Hk by done.
      injection Hj as <-. destruct (Hnone _ _ Hk). split; congruence.
    + rewrite lookup_insert_eq in Hk. rewrite lookup_insert_ne in Hj by done.
      injection Hk as <-. destruct (Hnone _ _ Hj). split; congruence.
    + rewrite lookup_insert_ne in Hj, Hk by done. by eapply Huniq.
Qed.

Lemma resolveTags_tagsWellFormed account names tagIds db :
  tagsWellFormed db → tagsWellFormed (resolveTags account names tagIds db).2.
Proof.
  revert tagIds db. induction names as [|[tagName|] names IH]; intros tagIds db Hdb;
    simpl; [done| |by apply IH].
  destruct (JS.truthy (JS.trim tagName)); [|by apply IH].
  destruct account as [aid|]; [|done].
  destruct (findOrCreate aid (JS.trim tagName) db) as [[i db']|] eqn:E; [|done].
  apply IH. by eapply findOrCreate_tagsWellFormed.
Qed.

Lemma tagsWellFormed_same db db' :
  tags db' = tags db → tagsWellFormed db → tagsWellFormed db'.
Proof. unfold tagsWellFormed. by intros ->. Qed.

Lemma createNote_tags env db ctx body :
  tags (createNote env db ctx body).2
  = tags (resolveTags (fst <$> req_account ctx)
            (match cn_tags body with
             | TagsArray l => l
             | TagsString s => chars s
             | TagsUndefined | TagsOther => []
             end) [] db).2
  ∨ tags (createNote env db ctx body).2 = tags db.
Proof.
  unfold createNote.
  destruct (cn_title body) as [[|c title]|]; try by right.
  left. destruct (resolveTags _ _ _ _) as [[tagIds|] db1]; [|done].
  simpl. unfold Store.create, incrementNoteCount.
  repeat case_match; simplify_eq/=; done.
Qed.

Lemma updateNote_tags db ctx id body :
  (∃ l user, tags (updateNote db ctx id body).2
           = tags (resolveTags (fst <$> user_account user) l [] db).2)
  ∨ tags (updateNote db ctx id body).2 = tags db.
Proof.
  unfold updateNote.
  destruct (findNote id (tenantFilter_or_empty ctx) db) as [[nid note]|]; [|by right].
  destruct (req_user ctx) as [user|]; [|by right].
  destruct (notOwnerNorAdmin user note) as [[]|]; try by right.
  destruct (un_title body) as [title|];
    [destruct (negb (JS.truthy (JS.trim title))); [by right|]|].
  all: destruct (un_tags body) as [|l|s|]; simpl;
    try (right; by case_match).
  all: left; exists l, user;
    destruct (resolveTags (fst <$> user_account user) l [] db) as [[tagIds|] db1];
    simpl; [by case_match|done].
Qed.

Lemma handle_tagsWellFormed env db r :
  tagsWellFormed db → tagsWellFormed (handle env db r).2.
Proof.
  intros Hdb. destruct r; simpl;
    unfold POST_auth_register, POST_auth_login, GET_auth_profile, POST_auth_invite,
      POST_auth_change_password, POST_auth_logout, POST_notes, GET_notes,
      GET_notes_my_notes, GET_notes_id, PUT_notes_id, DELETE_notes_id,
      GET_subscription, POST_subscription_upgrade,
      POST_subscription_verify_payment, GET_subscription_payments,
      POST_subscription_cancel;
    try (apply serve_preserves; [done|]; intros ctx Hchain; simpl; try done).
  - eapply tagsWellFormed_same; [apply register_notes_tags|done].
  - eapply tagsWellFormed_same; [apply login_notes_tags|done].
  - eapply tagsWellFormed_same; [apply inviteUser_notes_tags|done].
  - eapply tagsWellFormed_same; [apply changePassword_notes_tags|done].
  - eapply tagsWellFormed_same; [apply logout_notes_tags|done].
  - destruct (createNote_tags env db ctx body) as [H|H].
    + eapply tagsWellFormed_same; [exact H|]. by apply resolveTags_tagsWellFormed.
    + by eapply tagsWellFormed_same.
  - destruct (updateNote_tags db ctx id body) as [(l & user & H)|H].
    + eapply tagsWellFormed_same; [exact H|]. by apply resolveTags_tagsWellFormed.
    + by eapply tagsWellFormed_same.
  - eapply tagsWellFormed_same; [apply deleteNote_tags|done].
  - eapply tagsWellFormed_same; [apply upgradeSubscription_notes_tags|done].
  - eapply tagsWellFormed_same; [apply verifyPaymentAndUpgrade_notes_tags|done].
  - eapply tagsWellFormed_same; [apply cancelSubscription_notes_tags|done].
Qed.

Lemma run_tagsWellFormed db trace :
  tagsWellFormed db → tagsWellFormed (run db trace).
Proof.
  revert db. induction trace as [|[env r] trace IH]; intros db Hdb; simpl; [done|].
  by apply IH, handle_tagsWellFormed.
Qed.


(** ** The notes routes, stage by stage *)

Lemma checkNoteLimit_Next ctx ctx' : checkNoteLimit ctx = Next ctx' → ctx' = ctx.
Proof. unfold checkNoteLimit. by repeat case_match; intros [= ->]. Qed.

Lemma createRoute_Next env db h ctx :
  (ctx ← notesGuard env db h; ctx ← requireMember ctx; checkNoteLimit ctx) = Next ctx →
  ∃ token u a r,
    Authentic env db h token u a
    ∧ roles db !! User.role u = Some r
    ∧ ctx = authedCtx db (userId token) u a None (Some (tenantOnly (User.account u))).
Proof.
  intros H. apply bind_Next in H as (c1 & Hg & H).
  rewrite notesGuard_tenantGuard in Hg.
  apply tenantGuard_Next in Hg as (token & u & a & HA & ->).
  apply bind_Next in H as (c2 & Hm & H). rewrite requireMember_authed in Hm.
  destruct (roles db !! User.role u) as [r|] eqn:Hr; [|done]. injection Hm as <-.
  apply checkNoteLimit_Next in H as ->. by exists token, u, a, r.
Qed.

Lemma memberRoute_Next env db h ctx :
  (ctx ← notesGuard env db h; requireMember ctx) = Next ctx →
  ∃ token u a r,
    Authentic env db h token u a
    ∧ roles db !! User.role u = Some r
    ∧ ctx = authedCtx db (userId token) u a None (Some (tenantOnly (User.account u))).
Proof.
  intros H. apply bind_Next in H as (c1 & Hg & Hm).
  rewrite notesGuard_tenantGuard in Hg.
  apply tenantGuard_Next in Hg as (token & u & a & HA & ->).
  rewrite requireMember_authed in Hm.
  destruct (roles db !! User.role u) as [r|] eqn:Hr; [|done]. injection Hm as <-.
  by exists token, u, a, r.
Qed.

Lemma noteRoute_Next env db h ctx :
  (ctx ← notesGuard env db h; ctx ← requireMember ctx; requireOwnershipOrAdmin ctx)
  = Next ctx →
  ∃ token u a r,
    Authentic env db h token u a
    ∧ roles db !! User.role u = Some r
    ∧ ctx = authedCtx db (userId token) u a None
              (Some (ownedFilter (User.account u) (userId token) (Role.roleName r))).
Proof.
  intros H. apply bind_Next in H as (c1 & Hg & H).
  rewrite notesGuard_tenantGuard in Hg.
  apply tenantGuard_Next in Hg as (token & u & a & HA & ->).
  apply bind_Next in H as (c2 & Hm & H). rewrite requireMember_authed in Hm.
  destruct (roles db !! User.role u) as [r|] eqn:Hr; [|done]. injection Hm as <-.
  rewrite requireOwnershipOrAdmin_authed, Hr in H. injection H as <-.
  by exists token, u, a, r.
Qed.

Lemma noteRoute_Reply env db h r :
  (ctx ← notesGuard env db h; ctx ← requireMember ctx; requireOwnershipOrAdmin ctx)
  = Reply r → statusCode r = 401.
Proof.
  intros H. apply bind_Reply in H as [Hg|(c1 & Hg & H)].
  { rewrite notesGuard_tenantGuard in Hg. by eapply tenantGuard_Reply. }
  rewrite notesGuard_tenantGuard in Hg.
  apply tenantGuard_Next in Hg as (token & u & a & HA & ->).
  apply bind_Reply in H as [Hm|(c2 & Hm & H)].
  - rewrite requireMember_authed in Hm.
    destruct (roles db !! User.role u); [done|]. by injection Hm as <-.
  - rewrite requireMember_authed in Hm.
    destruct (roles db !! User.role u) as [r'|] eqn:Hr; [|done]. injection Hm as <-.
    rewrite requireOwnershipOrAdmin_authed, Hr in H. done.
Qed.

Lemma matchesFilter_owned aid uid rn n :
  matchesFilter (ownedFilter aid uid rn) n = true ↔
  Note.account n = aid ∧ (rn ≠ ADMIN → Note.user n = uid).
Proof.
  unfold matchesFilter, ownedFilter, tenantOnly.
  destruct (bool_decide (rn = ADMIN)) eqn:E; simpl.
  - apply bool_decide_eq_true in E. rewrite andb_true_r, bool_decide_eq_true.
    naive_solver.
  - apply bool_decide_eq_false in E.
    rewrite andb_true_iff, !bool_decide_eq_true. naive_solver.
Qed.

Lemma matchesFilter_tenantOnly aid n :
  matchesFilter (tenantOnly aid) n = true ↔ Note.account n = aid.
Proof.
  unfold matchesFilter, tenantOnly. simpl.
  by rewrite andb_true_r, bool_decide_eq_true.
Qed.

(** ** The note count is the number of live notes *)

Lemma liveNotes_insert aid (m : gmap nat Note.doc) i n' :
  (liveNotes aid (<[i:=n']> m) + from_option (live aid) 0 (m !! i)
   = liveNotes aid m + live aid n')%nat.
Proof.
  unfold liveNotes, live. rewrite map_filter_insert.
  set (P := λ kv : nat * Note.doc,
              Note.account kv.2 = aid ∧ Note.isDeleted kv.2 = false).
  destruct (decide (P (i, n'))) as [Hn'|Hn'].
  - rewrite decide_True by exact Hn'.
    destruct (decide (Note.account n' = aid ∧ Note.isDeleted n' = false))
      as [_|[]]; [|exact Hn'].
    rewrite map_size_insert.
    destruct (m !! i) as [n|] eqn:Hi; simpl.
    + destruct (decide (Note.account n = aid ∧ Note.isDeleted n = false)) as [Hn|Hn].
      * assert (filter P m !! i = Some n) as ->
          by (by apply map_lookup_filter_Some). simpl. lia.
      * assert (filter P m !! i = None) as ->.
        { apply map_lookup_filter_None. right. intros x Hx [? ?]. simplify_eq. by apply Hn. }
        lia.
    + assert (filter P m !! i = None) as ->
        by (apply map_lookup_filter_None; by left).
      lia.
  - rewrite decide_False by exact Hn'.
    destruct (decide (Note.account n' = aid ∧ Note.isDeleted n' = false))
      as [Hl|_]; [by destruct Hn'|].
    rewrite map_filter_delete, map_size_delete.
    destruct (m !! i) as [n|] eqn:Hi; simpl.
    + destruct (decide (Note.account n = aid ∧ Note.isDeleted n = false)) as [Hn|Hn].
      * assert (filter P m !! i = Some n) as Hf
          by (by apply map_lookup_filter_Some).
        rewrite Hf.
        assert (size (filter P m) ≠ 0%nat).
        { intros H0%map_size_empty_iff. by rewrite H0, lookup_empty in Hf. }
        lia.
      * assert (filter P m !! i = None) as ->.
        { apply map_lookup_filter_None. right. intros x Hx [? ?]. simplify_eq. by apply Hn. }
        simpl. lia.
    + assert (filter P m !! i = None) as ->
        by (apply map_lookup_filter_None; by left).
      simpl. lia.
Qed.

Lemma liveNotes_none aid (m : gmap nat Note.doc) :
  (∀ i n, m !! i = Some n → Note.account n ≠ aid) → liveNotes aid m = 0%nat.
Proof.
  intros H. unfold liveNotes.
  rewrite map_empty_filter_2; [apply map_size_empty|].
  intros i n Hi [Ha _]. by eapply H.
Qed.


Lemma liveNotes_save aid (m : gmap nat Note.doc) i n n' :
  m !! i = Some n →
  (liveNotes aid (Store.save i n' m) + live aid n = liveNotes aid m + live aid n')%nat.
Proof.
  intros Hi. unfold Store.save.
  pose proof (liveNotes_insert aid m i n') as H. by rewrite Hi in H.
Qed.

(** A step that leaves the notes alone, keeps every account's count and
    adds accounts only with a zero count keeps the counts accurate. *)
Lemma accurate_frame db db' :
  notes db' = notes db →
  (∀ aid a', accounts db' !! aid = Some a' →
     (∃ a, accounts db !! aid = Some a ∧ Account.noteCount a' = Account.noteCount a)
     ∨ (accounts db !! aid = None ∧ Account.noteCount a' = 0)) →
  (∀ aid, is_Some (accounts db !! aid) → is_Some (accounts db' !! aid)) →
  noteCountsAccurate db → noteCountsAccurate db'.
Proof.
  intros Hn Ha Hdom [H1 H2]. split.
  - intros aid a' Hl. rewrite Hn. destruct (Ha _ _ Hl) as [(a & Hl' & ->)|[Hl' ->]].
    + by apply H1.
    + rewrite liveNotes_none; [done|].
      intros i n Hi <-. destruct (H2 _ _ Hi) as [x Hx]. by rewrite Hl' in Hx.
  - intros i n Hi. rewrite Hn in Hi. by apply Hdom, (H2 i).
Qed.

Lemma accurate_same db db' :
  notes db' = notes db → accounts db' = accounts db →
  noteCountsAccurate db → noteCountsAccurate db'.
Proof.
  intros Hn Ha. apply accurate_frame; [done| |].
  - intros aid a'. rewrite Ha. eauto.
  - intros aid. by rewrite Ha.
Qed.

(** Saving an account with the count it had keeps the counts accurate. *)
Lemma accurate_save_account db db' aid a a' :
  notes db' = notes db → accounts db !! aid = Some a →
  accounts db' = <[aid := a']> (accounts db) →
  Account.noteCount a' = Account.noteCount a →
  noteCountsAccurate db → noteCountsAccurate db'.
Proof.
  intros Hn Hl Ha Hc. apply accurate_frame; [done| |].
  - intros i x. rewrite Ha. destruct (decide (i = aid)) as [->|Hne].
    + rewrite lookup_insert_eq. intros [= <-]. left. eauto.
    + rewrite lookup_insert_ne by done. eauto.
  - intros i. rewrite Ha. destruct (decide (i = aid)) as [->|Hne].
    + rewrite lookup_insert_eq. eauto.
    + by rewrite lookup_insert_ne.
Qed.

Lemma scopedCtx_ctxOf db ctx : scopedCtx db ctx → ctxOf db ctx.
Proof.
  intros (uid & u & a & r & f & -> & Hu & Ha & Hr & Hf).
  exists uid, u, a, None, (Some f). by repeat split.
Qed.

Lemma createRoute_scoped env db h ctx :
  (ctx ← notesGuard env db h; ctx ← requireMember ctx; checkNoteLimit ctx) = Next ctx →
  scopedCtx db ctx.
Proof.
  intros (token & u & a & r & [] & Hr & ->)%createRoute_Next.
  by exists (userId token), u, a, r, (tenantOnly (User.account u)).
Qed.

Lemma noteRoute_scoped env db h ctx :
  (ctx ← notesGuard env db h; ctx ← requireMember ctx; requireOwnershipOrAdmin ctx)
  = Next ctx →
  scopedCtx db ctx.
Proof.
  intros (token & u & a & r & [] & Hr & ->)%noteRoute_Next.
  exists (userId token), u, a, r,
    (ownedFilter (User.account u) (userId token) (Role.roleName r)).
  repeat split; try done. unfold ownedFilter. by case_bool_decide.
Qed.

Lemma matchesFilter_account f aid n :
  filter_account f = Some aid → matchesFilter f n = true → Note.account n = aid.
Proof.
  unfold matchesFilter. intros ->. rewrite andb_true_iff, bool_decide_eq_true.
  by intros [? _].
Qed.

Lemma live_other aid n : Note.account n ≠ aid → live aid n = 0%nat.
Proof. intros H. unfold live. by rewrite decide_False by (by intros [? _]). Qed.

(** Writing one note of account [aid] together with that account, the
    count moving as the liveness of the note does. *)
Lemma accurate_step db db' aid a a' i n' :
  accounts db !! aid = Some a →
  accounts db' = <[aid := a']> (accounts db) →
  notes db' = <[i := n']> (notes db) →
  Note.account n' = aid →
  (∀ n, notes db !! i = Some n → Note.account n = aid) →
  Account.noteCount a' + Z.of_nat (from_option (live aid) 0%nat (notes db !! i))
  = Account.noteCount a + Z.of_nat (live aid n') →
  noteCountsAccurate db → noteCountsAccurate db'.
Proof.
  intros Hl Ha Hn Hacc Hold Hcount [H1 H2]. split.
  - intros j x Hx. rewrite Ha in Hx. rewrite Hn.
    pose proof (liveNotes_insert j (notes db) i n') as Hins.
    destruct (decide (j = aid)) as [->|Hne].
    + rewrite lookup_insert_eq in Hx. injection Hx as <-.
      rewrite (H1 _ _ Hl) in Hcount. lia.
    + rewrite lookup_insert_ne in Hx by done.
      rewrite (H1 _ _ Hx).
      rewrite (live_other j n') in Hins by congruence.
      destruct (notes db !! i) as [n|] eqn:Hi; simpl in Hins.
      * rewrite (live_other j n) in Hins; [lia|].
        rewrite (Hold n eq_refl). congruence.
      * lia.
  - intros j n Hj. rewrite Hn in Hj. rewrite Ha.
    destruct (decide (j = i)) as [->|Hne].
    + rewrite lookup_insert_eq in Hj. injection Hj as <-.
      rewrite Hacc, lookup_insert_eq. eauto.
    + rewrite lookup_insert_ne in Hj by done.
      destruct (decide (Note.account n = aid)) as [->|Hne'].
      * rewrite lookup_insert_eq. eauto.
      * rewrite lookup_insert_ne by done. by eapply H2.
Qed.

Lemma scopedCtx_fields db ctx :
  scopedCtx db ctx →
  ∃ uid u a r f,
    req_user ctx = Some (populate_user db uid u)
    ∧ req_account ctx = Some (User.account u, a)
    ∧ req_tenantFilter ctx = Some f
    ∧ users db !! uid = Some u
    ∧ accounts db !! User.account u = Some a
    ∧ roles db !! User.role u = Some r
    ∧ filter_account f = Some (User.account u).
Proof.
  intros (uid & u & a & r & f & -> & Hu & Ha & Hr & Hf).
  by exists uid, u, a, r, f.
Qed.

Lemma createNote_accurate env db ctx body :
  scopedCtx db ctx → noteCountsAccurate db →
  noteCountsAccurate (createNote env db ctx body).2.
Proof.
  intros (uid & u & a & r & f & Hru & Hra & Hrf & Hu & Ha & Hr & Hf)%scopedCtx_fields
    Hdb.
  unfold createNote.
  destruct (cn_title body) as [[|c title]|]; try done.
  match goal with |- context [resolveTags ?x ?y ?z ?w] =>
    pose proof (resolveTags_frame x y z w) as Hframe;
    destruct (resolveTags x y z w) as [[tagIds|] db1] end;
    destruct Hframe as (Haccs & _ & _ & Hnotes & _); simpl in *;
    [|by eapply accurate_same].
  rewrite Hru, Hra. cbn [fst snd].
  case_match; [|by eapply accurate_same].
  unfold Store.create, incrementNoteCount, Store.save. simpl.
  eapply (accurate_step db _ (User.account u) a); simpl;
    [exact Ha|by rewrite Haccs|by rewrite Hnotes|done| | |done].
  - intros n. by rewrite <- Hnotes, newId_fresh.
  - rewrite <- Hnotes, newId_fresh. simpl. unfold live. simpl.
    rewrite decide_True by done. lia.
Qed.

Lemma deleteNote_accurate db ctx id :
  scopedCtx db ctx → noteCountsAccurate db →
  noteCountsAccurate (deleteNote db ctx id).2.
Proof.
  intros (uid & u & a & r & f & Hru & Hra & Hrf & Hu & Ha & Hr & Hf)%scopedCtx_fields
    Hdb.
  unfold deleteNote, tenantFilter_or_empty. rewrite Hrf.
  destruct (findNote id f db) as [[nid note]|] eqn:Hfind; [|done].
  apply findNote_Some in Hfind as (-> & Hl & Hm & Hdel).
  pose proof (matchesFilter_account _ _ _ Hf Hm) as Hacc.
  rewrite Hru. destruct (notOwnerNorAdmin _ note) as [[]|]; try done.
  rewrite Hra.
  assert (live (User.account u) note = 1%nat) as Hlive.
  { unfold live. by rewrite decide_True. }
  assert (live (User.account u) (Note.set_isDeleted true note) = 0%nat) as Hdead.
  { unfold live. rewrite decide_False; [done|]. by intros [_ ?]. }
  pose proof (liveNotes_save (User.account u) (notes db) id note
                (Note.set_isDeleted true note) Hl) as Hsave.
  destruct Hdb as [H1 H2]. pose proof (H1 _ _ Ha) as Hcount.
  unfold decrementNoteCount. simpl.
  destruct (0 <? Account.noteCount a) eqn:Hpos; [|lia].
  unfold Store.save. simpl.
  eapply (accurate_step db _ (User.account u) a); simpl;
    [exact Ha|done|done|done| | |by split].
  - intros n. rewrite Hl. by intros [= <-].
  - rewrite Hl. simpl. lia.
Qed.

(** What [updateNote] does to the store. *)
Lemma updateNote_effect db ctx id body :
  let out := updateNote db ctx id body in
  (statusCode out.1 ≠ 200 ∧ notes out.2 = notes db)
  ∨ (∃ note note',
       statusCode out.1 = 200
       ∧ findNote id (tenantFilter_or_empty ctx) db = Some (id, note)
       ∧ notes out.2 = <[id := note']> (notes db)
       ∧ Note.account note' = Note.account note
       ∧ Note.user note' = Note.user note
       ∧ Note.createdAt note' = Note.createdAt note
       ∧ Note.isDeleted note' = false
       ∧ Note.title note'
         = match un_title body with
           | Some title => JS.trim title
           | None => Note.title note
           end
       ∧ Note.description note'
         = match un_description body with
           | Some d => if JS.truthy d then JS.trim d else ""
           | None => Note.description note
           end
       ∧ match un_tags body with
         | TagsUndefined => Note.tags note' = Note.tags note
         | TagsArray l =>
           ∃ user db1, req_user ctx = Some user
             ∧ resolveTags (fst <$> user_account user) l [] db
               = (Some (Note.tags note'), db1)
         | TagsString _ | TagsOther => Note.tags note' = []
         end).
Proof.
  intros out. subst out. unfold updateNote.
  destruct (findNote id (tenantFilter_or_empty ctx) db) as [[nid note]|] eqn:Hfind;
    [|by left].
  pose proof Hfind as (-> & Hl & _ & Hdel)%findNote_Some.
  destruct (req_user ctx) as [user|]; [|by left].
  destruct (notOwnerNorAdmin user note) as [[]|]; try by left.
  destruct (un_title body) as [title|];
    [destruct (negb (JS.truthy (JS.trim title))); [by left|]|].
  all: destruct (un_description body) as [d|].
  all: destruct (un_tags body) as [|l|s|]; cbv zeta.
  all: try (destruct (Note.valid _) eqn:Hv; [|by left];
            right; eexists note, _; by repeat split).
  all: pose proof (resolveTags_frame (fst <$> user_account user) l [] db) as Hf;
    destruct (resolveTags (fst <$> user_account user) l [] db) as [[tagIds|] db1]
      eqn:Hres; simpl in Hf; destruct Hf as (_&_&_&Hn&_); [|by left];
    (destruct (Note.valid _) eqn:Hv; [|by left]);
    right; eexists note, _; simpl; rewrite Hn;
    (repeat split; try done); by exists user, db1.
Qed.

Lemma updateNote_accounts db ctx id body :
  accounts (updateNote db ctx id body).2 = accounts db.
Proof. by destruct (updateNote_frame db ctx id body) as (?&_). Qed.

Lemma updateNote_accurate db ctx id body :
  scopedCtx db ctx → noteCountsAccurate db →
  noteCountsAccurate (updateNote db ctx id body).2.
Proof.
  intros (uid & u & a & r & f & Hru & Hra & Hrf & Hu & Ha & Hr & Hf)%scopedCtx_fields
    Hdb.
  pose proof (updateNote_accounts db ctx id body) as Haccs.
  destruct (updateNote_effect db ctx id body)
    as [[_ Hn]|(note & note' & _ & Hfind & Hn & Hacc & _ & _ & Hdel & _)].
  { by eapply accurate_same. }
  unfold tenantFilter_or_empty in Hfind. rewrite Hrf in Hfind.
  apply findNote_Some in Hfind as (_ & Hl & Hm & Hdel0).
  pose proof (matchesFilter_account _ _ _ Hf Hm) as Hacc0.
  eapply (accurate_step db _ (User.account u) a a); simpl;
    [exact Ha|by rewrite Haccs, insert_id|exact Hn|congruence| | |done].
  - intros n. rewrite Hl. by intros [= <-].
  - rewrite Hl. simpl. unfold live.
    rewrite !decide_True; [done| |]; split; congruence.
Qed.

Lemma register_accounts env db body :
  accounts (register env db body).2 = accounts db
  ∨ ∃ a', Account.noteCount a' = 0 ∧ Account.plan a' = FREE
          ∧ Account.limit a' = Account.default_limit
          ∧ accounts (register env db body).2
            = <[Store.newId (accounts db) := a']> (accounts db).
Proof.
  unfold register.
  destruct (_ || _); [by left|].
  destruct (Store.findOne _ (users db)); [by left|].
  destruct (freeSlug _ _ _ _ _) as [slug|]; [|by left].
  destruct (_ || _); [by left|].
  unfold Store.create. simpl.
  destruct (validUser _ _ _); simpl; right; eexists; by repeat split.
Qed.

Lemma register_accurate env db body :
  noteCountsAccurate db → noteCountsAccurate (register env db body).2.
Proof.
  destruct (register_notes_tags env db body) as [Hn _].
  destruct (register_accounts env db body) as [Ha|(a' & Hc & _ & _ & Ha)].
  { by apply accurate_same. }
  apply accurate_frame; [done| |].
  - intros i x. rewrite Ha.
    destruct (decide (i = Store.newId (accounts db))) as [->|Hne].
    + rewrite lookup_insert_eq. intros [= <-]. right. by rewrite newId_fresh.
    + rewrite lookup_insert_ne by done. eauto.
  - intros i [x Hx]. rewrite Ha.
    destruct (decide (i = Store.newId (accounts db))) as [->|Hne].
    + by rewrite newId_fresh in Hx.
    + rewrite lookup_insert_ne by done. eauto.
Qed.

Lemma verifyPaymentAndUpgrade_accurate env db ctx body :
  ctxOf db ctx → noteCountsAccurate db →
  noteCountsAccurate (verifyPaymentAndUpgrade env db ctx body).2.
Proof.
  intros Hctx Hdb.
  destruct (verifyPaymentAndUpgrade_notes_tags env db ctx body) as [Hn _].
  destruct Hctx as (uid & u & a & t & f & -> & Hu & Ha & Ht).
  destruct (verifyPaymentAndUpgrade_effect env db (authedCtx db uid u a t f) body
              (User.account u) a eq_refl) as [(Haccs & _)|(_ & Haccs & _)].
  - by eapply accurate_same.
  - by eapply (accurate_save_account db _ (User.account u) a).
Qed.

Lemma cancelSubscription_accurate env db ctx :
  ctxOf db ctx → noteCountsAccurate db →
  noteCountsAccurate (cancelSubscription env db ctx).2.
Proof.
  intros Hctx Hdb.
  destruct (cancelSubscription_notes_tags env db ctx) as [Hn _].
  destruct Hctx as (uid & u & a & t & f & -> & Hu & Ha & Ht).
  destruct (cancelSubscription_effect env db (authedCtx db uid u a t f)
              (User.account u) a eq_refl) as [(-> & _)|(sid & s & _ & Haccs & _)].
  - done.
  - by eapply (accurate_save_account db _ (User.account u) a).
Qed.

Lemma handle_accurate env db r :
  noteCountsAccurate db → noteCountsAccurate (handle env db r).2.
Proof.
  intros Hdb. destruct r; simpl;
    unfold POST_auth_register, POST_auth_login, GET_auth_profile, POST_auth_invite,
      POST_auth_change_password, POST_auth_logout, POST_notes, GET_notes,
      GET_notes_my_notes, GET_notes_id, PUT_notes_id, DELETE_notes_id,
      GET_subscription, POST_subscription_upgrade,
      POST_subscription_verify_payment, GET_subscription_payments,
      POST_subscription_cancel;
    try (apply serve_preserves; [done|]; intros ctx Hchain; simpl; try done).
  - by apply register_accurate.
  - eapply accurate_same; [apply login_notes_tags|apply login_accounts|done].
  - eapply accurate_same; [apply inviteUser_notes_tags|apply inviteUser_accounts|done].
  - eapply accurate_same;
      [apply changePassword_notes_tags|apply changePassword_accounts|done].
  - eapply accurate_same; [apply logout_notes_tags|apply logout_accounts|done].
  - apply createNote_accurate; [|done]. by eapply createRoute_scoped.
  - apply updateNote_accurate; [|done]. by eapply noteRoute_scoped.
  - apply deleteNote_accurate; [|done]. by eapply noteRoute_scoped.
  - eapply accurate_same;
      [apply upgradeSubscription_notes_tags|apply upgradeSubscription_accounts|done].
  - apply verifyPaymentAndUpgrade_accurate; [|done]. chain_ctxOf Hchain.
  - apply cancelSubscription_accurate; [|done]. chain_ctxOf Hchain.
Qed.

Lemma run_accurate db trace :
  noteCountsAccurate db → noteCountsAccurate (run db trace).
Proof.
  revert db. induction trace as [|[env r] trace IH]; intros db Hdb; simpl; [done|].
  by apply IH, handle_accurate.
Qed.

Lemma accurate_empty : noteCountsAccurate empty_db.
Proof. split; intros ??; simpl; by rewrite lookup_empty. Qed.

(** X13: the note count of an account is the number of its notes that
    are not deleted. Every request of the service keeps it so (and keeps
    every note attached to a stored account): creating a note adds one
    live note and one to the count, a soft delete takes one from both, an
    update changes neither, and a new account starts with no note and a
    count of zero. *)
Theorem note_count_is_number_of_live_notes (db : Db) (trace : list (Env * Request)) :
  noteCountsAccurate db →
  noteCountsAccurate (run db trace)
  ∧ ∀ aid a, accounts (run db trace) !! aid = Some a →
      Account.noteCount a = Z.of_nat (liveNotes aid (notes (run db trace))).
Proof.
  intros Hdb. pose proof (run_accurate db trace Hdb) as H.
  split; [exact H|]. by destruct H.
Qed.

Lemma note_count_is_number_of_live_notes_witness :
  noteCountsAccurate empty_db
  ∧ noteCountsAccurate (run empty_db demoCreateDelete).
Proof.
  split; [apply accurate_empty|].
  apply (note_count_is_number_of_live_notes empty_db demoCreateDelete).
  apply accurate_empty.
Defined.

(** X14: [updateNote] is a partial update. When it answers 200 it has
    replaced the stored note [id], found under the tenant filter and not
    deleted, by a note with the same account, author and creation time
    that is still not deleted; the title and the description are the
    trimmed values sent, or the old ones when the field is absent; the
    tags are the old ones when the field is absent, the resolved ids when
    it is an array, and none when it is anything else. With any other
    answer the notes are as before. The accounts are never touched. *)
Theorem updateNote_is_partial_update (db : Db) (ctx : Ctx) (id : nat)
    (body : UpdateNoteBody) :
  let out := updateNote db ctx id body in
  accounts out.2 = accounts db
  ∧ ((statusCode out.1 ≠ 200 ∧ notes out.2 = notes db)
     ∨ (∃ note note',
          statusCode out.1 = 200
          ∧ findNote id (tenantFilter_or_empty ctx) db = Some (id, note)
          ∧ notes out.2 = <[id := note']> (notes db)
          ∧ Note.account note' = Note.account note
          ∧ Note.user note' = Note.user note
          ∧ Note.createdAt note' = Note.createdAt note
          ∧ Note.isDeleted note' = false
          ∧ Note.title note'
            = match un_title body with
              | Some title => JS.trim title
              | None => Note.title note
              end
          ∧ Note.description note'
            = match un_description body with
              | Some d => if JS.truthy d then JS.trim d else ""
              | None => Note.description note
              end
          ∧ match un_tags body with
            | TagsUndefined => Note.tags note' = Note.tags note
            | TagsArray l =>
              ∃ user db1, req_user ctx = Some user
                ∧ resolveTags (fst <$> user_account user) l [] db
                  = (Some (Note.tags note'), db1)
            | TagsString _ | TagsOther => Note.tags note' = []
            end)).
Proof.
  intros out. split; [apply updateNote_accounts|apply updateNote_effect].
Qed.

(** ** Notes addressed by id *)

Lemma noteRoute_Authentic env db h token u a r :
  Authentic env db h token u a →
  roles db !! User.role u = Some r →
  (ctx ← notesGuard env db h; ctx ← requireMember ctx; requireOwnershipOrAdmin ctx)
  = Next (authedCtx db (userId token) u a None
            (Some (ownedFilter (User.account u) (userId token) (Role.roleName r)))).
Proof.
  intros HA Hr. rewrite notesGuard_tenantGuard, (tenantGuard_Authentic _ _ _ _ _ _ HA).
  unfold mbind, Outcome_bind, andThen.
  by rewrite requireMember_authed, Hr, requireOwnershipOrAdmin_authed, Hr.
Qed.

Lemma findNote_visible db uid u r id :
  match findNote id (ownedFilter (User.account u) uid (Role.roleName r)) db with
  | Some (i, n) => i = id ∧ visibleTo db uid u r id n
  | None => ∀ n, ¬ visibleTo db uid u r id n
  end.
Proof.
  unfold findNote, visibleTo.
  destruct (notes db !! id) as [n|] eqn:Hl; [|by intros n [? _]].
  destruct (matchesFilter _ n) eqn:Hm; simpl.
  - apply matchesFilter_owned in Hm as [Hacc Hown].
    destruct (Note.isDeleted n) eqn:Hd; simpl.
    + intros n' (Hn' & Hd' & _). congruence.
    + repeat split; try done.
      destruct (decide (Role.roleName r = ADMIN)); [by left|right; auto].
  - intros n' (Hn' & Hd' & Hacc & Hown). injection Hn' as <-.
    assert (matchesFilter (ownedFilter (User.account u) uid (Role.roleName r)) n
            = true); [|congruence].
    apply matchesFilter_owned. split; [done|]. by intros Hne; destruct Hown.
Qed.

Lemma findNote_hidden db uid u r id :
  (∀ n, ¬ visibleTo db uid u r id n) →
  findNote id (ownedFilter (User.account u) uid (Role.roleName r)) db = None.
Proof.
  intros H. pose proof (findNote_visible db uid u r id) as Hv.
  destruct (findNote _ _ _) as [[i n]|]; [|done].
  destruct Hv as [_ Hv]. by destruct (H n).
Qed.

Lemma findNote_shown db uid u r id n :
  visibleTo db uid u r id n →
  findNote id (ownedFilter (User.account u) uid (Role.roleName r)) db = Some (id, n).
Proof.
  intros H. pose proof (findNote_visible db uid u r id) as Hv.
  destruct (findNote _ _ _) as [[i n']|]; [|by destruct (Hv n)].
  destruct Hv as [-> (Hl & _)]. destruct H as (Hl' & _). congruence.
Qed.



Lemma notOwnerNorAdmin_visible db uid u r id n :
  roles db !! User.role u = Some r →
  visibleTo db uid u r id n →
  notOwnerNorAdmin (populate_user db uid u) n = Some false.
Proof.
  intros Hr (_ & _ & _ & Hown).
  unfold notOwnerNorAdmin, populate_user, Store.findById. simpl. rewrite Hr. simpl.
  f_equal. destruct Hown as [->| ->]; [done|].
  rewrite (bool_decide_eq_true_2 (uid = uid)) by done. simpl. apply andb_false_r.
Qed.

Lemma noteRoute_no_403 env db h (handler : Ctx → Response * Db) :
  (∀ token u a r,
     Authentic env db h token u a → roles db !! User.role u = Some r →
     statusCode
       (handler (authedCtx db (userId token) u a None
                   (Some (ownedFilter (User.account u) (userId token)
                            (Role.roleName r))))).1 ≠ 403) →
  statusCode
    (serve db (ctx ← notesGuard env db h; ctx ← requireMember ctx;
               requireOwnershipOrAdmin ctx) handler).1 ≠ 403.
Proof.
  intros Hh.
  destruct (ctx ← notesGuard env db h; ctx ← requireMember ctx;
            requireOwnershipOrAdmin ctx) as [resp|ctx] eqn:E; simpl.
  - by rewrite (noteRoute_Reply _ _ _ _ E).
  - apply noteRoute_Next in E as (token & u & a & r & HA & Hr & ->). by apply Hh.
Qed.

(** X16: the routes that address a note by id never answer 403. The
    ownership test inside [updateNote] and [deleteNote] ("You can only
    update/delete your own notes") cannot fail behind the route's
    middleware: the tenant filter of a member already carries the owner,
    so a note of another user is not found at all. *)
Theorem by_id_routes_never_forbid (env : Env) (db : Db) (h : Headers) (id : nat) :
  statusCode (GET_notes_id env db h id).1 ≠ 403
  ∧ (∀ body, statusCode (PUT_notes_id env db h id body).1 ≠ 403)
  ∧ statusCode (DELETE_notes_id env db h id).1 ≠ 403.
Proof.
  unfold GET_notes_id, PUT_notes_id, DELETE_notes_id.
  repeat split; [|intros body|]; apply noteRoute_no_403; intros token u a r HA Hr;
    unfold getNoteById, updateNote, deleteNote, tenantFilter_or_empty; simpl;
    pose proof (findNote_visible db (userId token) u r id) as Hv;
    destruct (findNote id _ db) as [[i n]|]; try done; destruct Hv as [-> Hv];
    try rewrite (notOwnerNorAdmin_visible _ _ _ _ _ _ Hr Hv).
  - by destruct (formatWithAuthor db (id, n)).
  - destruct (un_title body) as [title|];
      [destruct (negb (JS.truthy (JS.trim title))); [done|]|].
    all: destruct (un_tags body) as [|l|s|]; simpl; try by case_match.
    all: destruct (resolveTags _ l [] db) as [[tagIds|] db1]; [by case_match|done].
  - unfold decrementNoteCount. simpl. by case_match.
Qed.

(** ** Deleting a note *)

Lemma Authentic_after env db db' h token u a a' :
  Authentic env db h token u a →
  users db' !! userId token = Some u →
  accounts db' !! User.account u = Some a' →
  Account.isActive a' = Account.isActive a →
  Account.isDeleted a' = Account.isDeleted a →
  Authentic env db' h token u a'.
Proof.
  intros [] Hu Ha Hact Hdel. split; try done; congruence.
Qed.

(** X17: deleting is a soft delete that works once. For an authenticated
    user and a note visible to that user, the delete route answers 200,
    marks the note deleted and keeps everything else of it, takes one
    from the account's note count when the count is positive, and changes
    nothing else; the same request repeated on the resulting store is
    answered 404 and changes nothing. *)
Theorem delete_is_soft_and_works_once (env : Env) (db : Db) (h : Headers)
    (token : Token) (u : User.doc) (a : Account.doc) (r : Role.doc) (id : nat)
    (n : Note.doc) :
  Authentic env db h token u a →
  roles db !! User.role u = Some r →
  visibleTo db (userId token) u r id n →
  let db1 := set_notes (<[id := Note.set_isDeleted true n]> (notes db)) db in
  let db2 :=
    if 0 <? Account.noteCount a then
      set_accounts
        (<[User.account u := Account.set_noteCount (Account.noteCount a - 1) a]>
           (accounts db)) db1
    else db1 in
  DELETE_notes_id env db h id
  = (sendResponse 200 true "Note deleted successfully" NoData, db2)
  ∧ DELETE_notes_id env db2 h id = (sendError 404 "Note not found", db2).
Proof.
  intros HA Hr Hvis db1 db2. split.
  - unfold DELETE_notes_id.
    rewrite (noteRoute_Authentic _ _ _ _ _ _ _ HA Hr). simpl.
    unfold deleteNote, tenantFilter_or_empty. simpl.
    rewrite (findNote_shown _ _ _ _ _ _ Hvis).
    rewrite (notOwnerNorAdmin_visible _ _ _ _ _ _ Hr Hvis).
    unfold decrementNoteCount, Store.save. simpl. subst db2 db1.
    by destruct (0 <? Account.noteCount a).
  - assert (notes db2 !! id = Some (Note.set_isDeleted true n)) as Hn2.
    { subst db2 db1. destruct (0 <? _); simpl; by rewrite lookup_insert_eq. }
    assert (roles db2 = roles db ∧ users db2 = users db) as [Hr2 Hu2].
    { subst db2 db1. by destruct (0 <? _). }
    assert (∃ a', Authentic env db2 h token u a') as [a' HA'].
    { destruct (0 <? Account.noteCount a) eqn:E.
      - exists (Account.set_noteCount (Account.noteCount a - 1) a).
        eapply Authentic_after; [exact HA|by rewrite Hu2; destruct HA| |done|done].
        subst db2 db1. simpl. by rewrite lookup_insert_eq.
      - exists a.
        eapply Authentic_after; [exact HA|by rewrite Hu2; destruct HA| |done|done].
        subst db2 db1. simpl. by destruct HA. }
    unfold DELETE_notes_id.
    rewrite (noteRoute_Authentic _ _ _ _ _ _ r HA') by (by rewrite Hr2).
    simpl. unfold deleteNote, tenantFilter_or_empty. simpl.
    rewrite findNote_hidden; [done|].
    intros n' (Hl & Hd & _). rewrite Hn2 in Hl. by injection Hl as <-.
Qed.

Lemma delete_is_soft_and_works_once_witness :
  DELETE_notes_id (demoEnv 4000) demoDbNote (bearer (demoToken 2000)) 0
  = (sendResponse 200 true "Note deleted successfully" NoData, demoDbDeleted)
  ∧ DELETE_notes_id (demoEnv 4000) demoDbDeleted (bearer (demoToken 2000)) 0
    = (sendError 404 "Note not found", demoDbDeleted).
Proof.
  assert (demoDbDeleted
          = set_accounts
              (<[0%nat := Account.set_noteCount (1 - 1)
                            (Account.set_noteCount 1 demoAccount)]>
                 (accounts demoDbNote))
              (set_notes (<[0%nat := Note.set_isDeleted true demoStoredNote]>
                            (notes demoDbNote)) demoDbNote)) as ->
    by (by vm_compute).
  apply (delete_is_soft_and_works_once (demoEnv 4000) demoDbNote
           (bearer (demoToken 2000)) (demoToken 2000) demoAdmin
           (Account.set_noteCount 1 demoAccount)
           {| Role.account := 0; Role.roleName := ADMIN |} 0 demoStoredNote).
  - split; by vm_compute.
  - by vm_compute.
  - repeat split; try by vm_compute. by left.
Defined.

(** ** Listing notes *)

Lemma authenticate_Reply_error env db h c0 r :
  authenticate env db h c0 = Reply r → ∃ msg, r = sendError 401 msg.
Proof.
  unfold authenticate. repeat case_match; intros [= <-]; eauto.
Qed.

Lemma tenantGuard_Reply_error env db h r :
  tenantGuard env db h = Reply r → ∃ msg, r = sendError 401 msg.
Proof.
  unfold tenantGuard. intros H.
  destruct (authenticate env db h empty_ctx) as [r1|c1] eqn:Hauth.
  - simpl in H. simplify_eq. by eapply authenticate_Reply_error.
  - apply authenticate_Next in Hauth as (token & u & a & HA & ->).
    assert (Ha := authentic_account _ _ _ _ _ _ HA).
    assert (Haa := authentic_account_active _ _ _ _ _ _ HA).
    assert (Had := authentic_account_not_deleted _ _ _ _ _ _ HA).
    revert H. unfold mbind, Outcome_bind, andThen, ensureTenantIsolation,
      checkAccountStatus, account_or_tenant, authedCtx, populate_user,
      Store.findById; simpl.
    rewrite Ha. simpl. rewrite Haa, Had. done.
Qed.

Lemma memberRoute_Reply env db h r :
  (ctx ← notesGuard env db h; requireMember ctx) = Reply r →
  ∃ msg, r = sendError 401 msg.
Proof.
  intros H. apply bind_Reply in H as [Hg|(c1 & Hg & Hm)].
  - rewrite notesGuard_tenantGuard in Hg. by eapply tenantGuard_Reply_error.
  - rewrite notesGuard_tenantGuard in Hg.
    apply tenantGuard_Next in Hg as (token & u & a & HA & ->).
    rewrite requireMember_authed in Hm.
    destruct (roles db !! User.role u); [done|]. injection Hm as <-. eauto.
Qed.






(** ** The life of a token *)

(** The three checks [authenticate] makes on the token of a user who is
    stored, active and not deleted, in an account that is active and not
    deleted. *)
Lemma authenticate_checks env db token c u a :
  users db !! userId token = Some u →
  User.isActive u = true → User.isDeleted u = false →
  accounts db !! User.account u = Some a →
  Account.isActive a = true → Account.isDeleted a = false →
  match authenticate env db (bearer token) c with
  | Next ctx =>
    signedWith token = JWT_SECRET env
    ∧ clock env 0 / 1000 < exp token
    ∧ User.tokensInvalidBefore u ≤ iat token * 1000
    ∧ ctx = authedCtx db (userId token) u a (req_tenant c) (req_tenantFilter c)
  | Reply r =>
    statusCode r = 401
    ∧ (signedWith token ≠ JWT_SECRET env
       ∨ exp token ≤ clock env 0 / 1000
       ∨ iat token * 1000 < User.tokensInvalidBefore u)
  end.
Proof.
  intros Hu Hact Hdel Ha Haa Had.
  unfold authenticate, Helpers.jwt_verify. simpl.
  destruct (bool_decide (signedWith token = JWT_SECRET env)) eqn:Es; simpl.
  2: { apply bool_decide_eq_false in Es. auto. }
  apply bool_decide_eq_true in Es.
  destruct (exp token <=? clock env 0 / 1000) eqn:Ee.
  { split; [done|]. right. left. lia. }
  rewrite Hu, Hact, Hdel. simpl.
  destruct (iat token * 1000 <? User.tokensInvalidBefore u) eqn:Ew.
  { split; [done|]. right. right. lia. }
  unfold Store.findById. rewrite Ha, Haa, Had. simpl.
  repeat split; try lia; try done;
    unfold authedCtx, populate_user, Store.findById; by rewrite Ha.
Qed.

(** X20: logging out invalidates the earlier tokens of the user. For an
    authenticated request the logout route answers 200 and changes
    nothing but the user's [tokensInvalidBefore], set to the time of the
    logout. From then on a token of that user is accepted exactly when
    its signature matches, it has not expired, and the start of the
    second it was issued in is not before the logout; every other token
    is answered 401. A token issued later in the second of the logout is
    therefore refused as well. *)
Theorem logout_invalidates_earlier_tokens (env : Env) (db : Db) (h : Headers)
    (token : Token) (u : User.doc) (a : Account.doc) :
  Authentic env db h token u a →
  let out := POST_auth_logout env db h in
  out.1 = sendResponse 200 true "Logged out successfully" NoData
  ∧ out.2 = set_users (<[userId token := User.set_tokensInvalidBefore (clock env 1) u]>
                         (users db)) db
  ∧ ∀ env' token' c,
      userId token' = userId token →
      match authenticate env' out.2 (bearer token') c with
      | Next _ =>
        signedWith token' = JWT_SECRET env'
        ∧ clock env' 0 / 1000 < exp token'
        ∧ clock env 1 ≤ iat token' * 1000
      | Reply r =>
        statusCode r = 401
        ∧ (signedWith token' ≠ JWT_SECRET env'
           ∨ exp token' ≤ clock env' 0 / 1000
           ∨ iat token' * 1000 < clock env 1)
      end.
Proof.
  intros HA out.
  assert (out = (sendResponse 200 true "Logged out successfully" NoData,
                 set_users (<[userId token
                              := User.set_tokensInvalidBefore (clock env 1) u]>
                              (users db)) db)) as Hout.
  { subst out. unfold POST_auth_logout.
    by rewrite (authenticate_Authentic _ _ _ empty_ctx _ _ _ HA). }
  rewrite Hout. split; [done|]. split; [done|].
  intros env' token' c Hid. simpl.
  pose proof (authenticate_checks env'
                (set_users (<[userId token
                              := User.set_tokensInvalidBefore (clock env 1) u]>
                              (users db)) db)
                token' c (User.set_tokensInvalidBefore (clock env 1) u) a) as Hc.
  simpl in Hc. rewrite Hid, lookup_insert_eq in Hc.
  destruct HA. specialize (Hc eq_refl).
  repeat (match type of Hc with ?P → _ =>
            let H := fresh in assert P as H by done; specialize (Hc H); clear H end).
  destruct (authenticate env' _ (bearer token') c); [done|].
  by destruct Hc as (?&?&?&_).
Qed.

Lemma logout_invalidates_earlier_tokens_witness :
  (POST_auth_logout (demoEnv 5000) demoDb (bearer (demoToken 2000))).1
  = sendResponse 200 true "Logged out successfully" NoData.
Proof.
  apply (logout_invalidates_earlier_tokens (demoEnv 5000) demoDb
           (bearer (demoToken 2000)) (demoToken 2000) demoAdmin demoAccount).
  split; by vm_compute.
Defined.

(** X21: changing the password. For an authenticated user, a request
    whose current password does not match the stored hash is answered
    400 and changes nothing. A request with the right current password
    and a new one of at least six characters that differs from it is
    answered 200; it stores the hash of the new password and moves
    [tokensInvalidBefore] to the time of the change, and nothing else.
    From then on a token of that user is accepted exactly when its
    signature matches, it has not expired, and the start of the second it
    was issued in is not before the change. *)
Theorem password_change_invalidates_tokens (env : Env) (db : Db) (h : Headers)
    (token : Token) (u : User.doc) (a : Account.doc) (body : ChangePasswordBody) :
  Authentic env db h token u a →
  JS.truthy (currentPassword body) = true →
  JS.truthy (newPassword body) = true →
  let out := POST_auth_change_password env db h body in
  (Helpers.comparePassword env (currentPassword body) (User.password u) = false →
   out = (sendError 400 "Current password is incorrect", db))
  ∧ (Helpers.comparePassword env (currentPassword body) (User.password u) = true →
     Helpers.comparePassword env (newPassword body) (User.password u) = false →
     6 ≤ JS.length (newPassword body) →
     out.1 = sendResponse 200 true "Password changed successfully" NoData
     ∧ out.2 = set_users
                 (<[userId token
                    := User.set_tokensInvalidBefore (clock env 1)
                         (User.set_password
                            (Helpers.hashPassword env (newPassword body)) u)]>
                    (users db)) db
     ∧ ∀ env' token' c,
         userId token' = userId token →
         match authenticate env' out.2 (bearer token') c with
         | Next _ =>
           signedWith token' = JWT_SECRET env'
           ∧ clock env' 0 / 1000 < exp token'
           ∧ clock env 1 ≤ iat token' * 1000
         | Reply r =>
           statusCode r = 401
           ∧ (signedWith token' ≠ JWT_SECRET env'
              ∨ exp token' ≤ clock env' 0 / 1000
              ∨ iat token' * 1000 < clock env 1)
         end).
Proof.
  intros HA Hcur Hnew out. subst out. unfold POST_auth_change_password.
  rewrite (tenantGuard_Authentic _ _ _ _ _ _ HA). simpl.
  unfold changePassword. rewrite Hcur, Hnew. simpl. split.
  - by intros ->.
  - intros -> -> Hlen. simpl.
    destruct (6 <=? JS.length (newPassword body)) eqn:E; [|lia].
    split; [done|]. split; [done|].
    intros env' token' c Hid. simpl.
    set (u1 := User.set_tokensInvalidBefore (clock env 1)
                 (User.set_password
                    (Helpers.hashPassword env (newPassword body)) u)).
    pose proof (authenticate_checks env'
                  (set_users (<[userId token := u1]> (users db)) db)
                  token' c u1 a) as Hc.
    simpl in Hc. rewrite Hid, lookup_insert_eq in Hc.
    destruct HA. specialize (Hc eq_refl).
    repeat (match type of Hc with ?P → _ =>
              let H := fresh in assert P as H by done; specialize (Hc H); clear H end).
    destruct (authenticate env' _ (bearer token') c); [done|].
    by destruct Hc as (?&?&?&_).
Qed.

Lemma password_change_invalidates_tokens_witness :
  (POST_auth_change_password (demoEnv 5000) demoDb (bearer (demoToken 2000))
     demoNewPassword).1
  = sendResponse 200 true "Password changed successfully" NoData.
Proof.
  apply (password_change_invalidates_tokens (demoEnv 5000) demoDb
           (bearer (demoToken 2000)) (demoToken 2000) demoAdmin demoAccount
           demoNewPassword); by vm_compute.
Defined.



(** X23: a user who is not active never gets in. Whatever requests
    follow, no token naming that user passes [authenticate] (the answer
    is 401), and no login hands out a token for that user: no endpoint
    activates a user. Users created by an invitation are of this kind. *)
Theorem inactive_user_never_gets_in (db : Db) (uid : nat) (u : User.doc)
    (trace : list (Env * Request)) (env : Env) :
  users db !! uid = Some u →
  User.isActive u = false →
  (∀ h c token,
     extractToken h = Some (JwtSigned token) → userId token = uid →
     ∃ msg, authenticate env (run db trace) h c = Reply (sendError 401 msg))
  ∧ (∀ ip body token,
       data (login env (run db trace) ip body).1 = TokenData token →
       userId token ≠ uid).
Proof.
  intros Hu Hact.
  destruct (run_evolves db trace) as (_&_&Hus&_).
  destruct (Hus _ _ Hu) as (u' & Hu' & (_&_&_&_&Hact'&_)).
  rewrite Hact in Hact'. split.
  - intros h c token Htok Hid.
    destruct (authenticate env (run db trace) h c) as [r|ctx] eqn:E.
    + apply authenticate_Reply_error in E as [msg ->]. eauto.
    + apply authenticate_Next in E as (token' & u'' & a & [] & _).
      assert (token' = token) as -> by congruence.
      assert (u'' = u') as -> by congruence. congruence.
  - intros ip body token Hd Hid.
    revert Hd. unfold login.
    destruct (_ || _); [done|]. unfold localStrategy.
    destruct (Store.findOne _ (users (run db trace))) as [[uid' u'']|] eqn:Hfind;
      [|done].
    apply findOne_Some in Hfind as [Hl Hq]. simpl in Hq.
    rewrite !andb_true_iff in Hq. destruct Hq as [[_ Hact''] _].
    unfold populate_user, Store.findById. simpl.
    destruct (accounts (run db trace) !! User.account u'') as [a|]; [|done]. simpl.
    destruct (_ || _); [done|].
    destruct (negb _); [done|]. simpl.
    destruct (roles (run db trace) !! User.role u'') as [r|]; [|done]. simpl.
    intros [= <-]. simpl in Hid. subst uid'. congruence.
Qed.

Lemma inactive_user_never_gets_in_witness :
  ∃ msg,
    authenticate (demoEnv 9000) (run demoDbInvited demoCreateDelete)
      (bearer (memberToken 3000)) empty_ctx
    = Reply (sendError 401 msg).
Proof.
  destruct (inactive_user_never_gets_in demoDbInvited 1 demoInvited
              demoCreateDelete (demoEnv 9000)) as [H _].
  - by vm_compute.
  - by vm_compute.
  - apply (H _ _ (memberToken 3000)); by vm_compute.
Defined.

(** ** Invitations *)

Lemma adminRoute_Authentic env db h token u a r :
  Authentic env db h token u a →
  roles db !! User.role u = Some r →
  Role.roleName r = ADMIN →
  (ctx ← tenantGuard env db h; requireAdmin ctx)
  = Next (authedCtx db (userId token) u a None (Some (tenantOnly (User.account u)))).
Proof.
  intros HA Hr Hadm. rewrite (tenantGuard_Authentic _ _ _ _ _ _ HA).
  unfold mbind, Outcome_bind, andThen. by rewrite requireAdmin_authed, Hr, Hadm.
Qed.

(** X24: an invitation by an administrator. When it is answered 201 a
    single user has been added: inactive, not deleted, in the
    administrator's own account, with the lower-cased and trimmed email,
    the trimmed name, the hash of the temporary password the response
    carries, and a role of that account with the requested name (member
    when none is requested), which is an existing role or one created by
    the call; nothing but users and roles has changed. With any other
    answer the users are as before. *)
Theorem invitation_adds_an_inactive_user (env : Env) (db : Db) (h : Headers)
    (token : Token) (u : User.doc) (a : Account.doc) (r : Role.doc)
    (body : InviteBody) :
  Authentic env db h token u a →
  roles db !! User.role u = Some r →
  Role.roleName r = ADMIN →
  let out := POST_auth_invite env db h body in
  (statusCode out.1 ≠ 201 → users out.2 = users db)
  ∧ (statusCode out.1 = 201 →
     ∃ rid role invited,
       iv_role body ≠ RoleUnknown
       ∧ role = match iv_role body with RoleNamed x => x | _ => MEMBER end
       ∧ roles out.2 !! rid = Some {| Role.account := User.account u;
                                     Role.roleName := role |}
       ∧ (roles out.2 = roles db
          ∨ (rid = Store.newId (roles db)
             ∧ roles out.2
               = <[rid := {| Role.account := User.account u;
                             Role.roleName := role |}]> (roles db)))
       ∧ invited
         = {| User.account := User.account u;
              User.email := normalized (iv_email body);
              User.password
                := Helpers.hashPassword env (Helpers.generateRandomString env 12);
              User.name := JS.trim (iv_name body);
              User.role := rid;
              User.isActive := false;
              User.isDeleted := false;
              User.tokensInvalidBefore := clock env 1;
              User.lastLogin := None;
              User.lastIP := None |}
       ∧ users out.2 = <[Store.newId (users db) := invited]> (users db)
       ∧ users db !! Store.newId (users db) = None
       ∧ data out.1 = InviteData (normalized (iv_email body))
                        (Helpers.generateRandomString env 12)
       ∧ accounts out.2 = accounts db ∧ notes out.2 = notes db
       ∧ tags out.2 = tags db ∧ subscriptions out.2 = subscriptions db
       ∧ payments out.2 = payments db).
Proof.
  intros HA Hr Hadm out. subst out. unfold POST_auth_invite.
  rewrite (adminRoute_Authentic _ _ _ _ _ _ _ HA Hr Hadm). simpl.
  unfold inviteUser. destruct (_ || _); [by split|].
  destruct (iv_role body) as [|x|] eqn:Hrole; [| |by split].
  all: simpl; unfold Store.findById;
    rewrite (authentic_account _ _ _ _ _ _ HA); simpl.
  all: destruct (Store.findOne _ (users db)); [by split|].
  all: destruct (Store.findOne _ (roles db)) as [[rid0 r0]|] eqn:Hfind.
  all: try (apply findOne_Some in Hfind as [Hl Hq]; simpl in Hq;
            rewrite andb_true_iff, !bool_decide_eq_true in Hq;
            destruct Hq as [Hq1 Hq2]).
  all: unfold Store.create; simpl.
  all: destruct (validUser _ _ _ && negb _); simpl; [|by split].
  all: split; [done|]; intros _.
  all: eexists _, _, _.
  all: split; [done|]; split; [reflexivity|].
  1,3: split; [destruct r0; simpl in *; subst; exact Hl|].
  1,2: split; [by left|].
  3,4: split; [by rewrite lookup_insert_eq|].
  3,4: split; [by right|].
  all: split; [reflexivity|]; split; [reflexivity|].
  all: split; [apply newId_fresh|]; by repeat split.
Qed.

Lemma invitation_adds_an_inactive_user_witness :
  users (POST_auth_invite (demoEnv 2500) demoDb (bearer (demoToken 2000))
           demoInvite).2 !! 1%nat
  = Some demoInvited.
Proof.
  destruct (invitation_adds_an_inactive_user (demoEnv 2500) demoDb
              (bearer (demoToken 2000)) (demoToken 2000) demoAdmin demoAccount
              {| Role.account := 0; Role.roleName := ADMIN |} demoInvite)
    as [_ H].
  - split; by vm_compute.
  - by vm_compute.
  - done.
  - destruct (H ltac:(by vm_compute)) as (rid & role & invited & _).
    by vm_compute.
Defined.

(** ** Registration *)











(** ** Orders and payments *)






(** ** Creating a note *)

(** What [createNote] does for the context of an authenticated user. *)
Lemma createNote_effect env db uid u a f body :
  let out := createNote env db (authedCtx db uid u a None f) body in
  (statusCode out.1 = 400 ∨ statusCode out.1 = 403 → out.2 = db)
  ∧ (statusCode out.1 = 500 → sameButTags db out.2)
  ∧ (statusCode out.1 = 201 →
     ∃ title tagIds db1 note,
       cn_title body = Some title
       ∧ resolveTags (Some (User.account u)) (tagInputs (cn_tags body)) [] db
         = (Some tagIds, db1)
       ∧ note = noteToCreate env (User.account u) uid title body tagIds
       ∧ Note.valid note = true
       ∧ notes db !! Store.newId (notes db) = None
       ∧ notes out.2 = <[Store.newId (notes db) := note]> (notes db)
       ∧ accounts out.2
         = <[User.account u := Account.set_noteCount (Account.noteCount a + 1) a]>
             (accounts db)
       ∧ tags out.2 = tags db1
       ∧ roles out.2 = roles db ∧ users out.2 = users db
       ∧ subscriptions out.2 = subscriptions db ∧ payments out.2 = payments db).
Proof.
  unfold createNote. simpl.
  destruct (cn_title body) as [[|c title]|] eqn:Ht;
    try (split; [done|]; split; [intros _; apply sameButTags_refl|done]).
  change (match cn_tags body with
          | TagsArray l => l
          | TagsString s => chars s
          | _ => []
          end) with (tagInputs (cn_tags body)).
  pose proof (resolveTags_frame (Some (User.account u))
                (tagInputs (cn_tags body)) [] db) as Hf.
  destruct (resolveTags (Some (User.account u)) (tagInputs (cn_tags body)) [] db)
    as [[tagIds|] db1] eqn:Hres; simpl in Hf |- *.
  2: { split; [by intros []|]. by split. }
  destruct (Note.valid _) eqn:Hv.
  2: { simpl. split; [by intros []|]. by split. }
  unfold Store.create, incrementNoteCount, Store.save. simpl.
  destruct Hf as (Ha & Hro & Hus & Hno & Hsu & Hpa).
  unfold noteToCreate.
  split; [by intros []|]. split; [done|]. intros _.
  exists (String c title), tagIds, db1,
    (noteToCreate env (User.account u) uid (String c title) body tagIds).
  split; [done|]. split; [done|]. split; [reflexivity|]. split; [exact Hv|].
  split; [apply newId_fresh|]. rewrite Hno, Ha. by repeat split.
Qed.

(** X29: creating a note. For an authenticated user, a creation
    answered 400 (no title) or 403 (the gate) changes nothing. One
    answered 201 has resolved the tag names to tags of the caller's
    account, creating the missing ones, has added exactly one note (of
    the caller's account, written by the caller, with the trimmed title
    and description, the resolved tags, not deleted, passing the schema
    validation) and has added one to the account's note count. One
    answered 500 has changed nothing but, possibly, the tags: tags
    created before the failure stay behind. *)
Theorem creation_adds_one_note (env : Env) (db : Db) (h : Headers)
    (token : Token) (u : User.doc) (a : Account.doc) (r : Role.doc)
    (body : CreateNoteBody) :
  Authentic env db h token u a →
  roles db !! User.role u = Some r →
  let out := POST_notes env db h body in
  (statusCode out.1 = 400 ∨ statusCode out.1 = 403 → out.2 = db)
  ∧ (statusCode out.1 = 500 → sameButTags db out.2)
  ∧ (statusCode out.1 = 201 →
     ∃ title tagIds db1 note,
       cn_title body = Some title
       ∧ resolveTags (Some (User.account u)) (tagInputs (cn_tags body)) [] db
         = (Some tagIds, db1)
       ∧ note = noteToCreate env (User.account u) (userId token) title body tagIds
       ∧ Note.valid note = true
       ∧ notes db !! Store.newId (notes db) = None
       ∧ notes out.2 = <[Store.newId (notes db) := note]> (notes db)
       ∧ accounts out.2
         = <[User.account u := Account.set_noteCount (Account.noteCount a + 1) a]>
             (accounts db)
       ∧ tags out.2 = tags db1
       ∧ roles out.2 = roles db ∧ users out.2 = users db
       ∧ subscriptions out.2 = subscriptions db ∧ payments out.2 = payments db).
Proof.
  intros HA Hr out. subst out. unfold POST_notes.
  rewrite notesGuard_tenantGuard, (tenantGuard_Authentic _ _ _ _ _ _ HA).
  unfold mbind, Outcome_bind, andThen. rewrite requireMember_authed, Hr.
  rewrite (checkNoteLimit_spec _ (User.account u) a) by done.
  pose proof (createNote_effect env db (userId token) u a
                (Some (tenantOnly (User.account u))) body) as Hgo.
  destruct (Account.plan a); [|exact Hgo].
  destruct (20 <=? Account.noteCount a); [|exact Hgo].
  simpl. split; [done|]. split; [done|]. done.
Qed.

Lemma creation_adds_one_note_witness :
  notes (POST_notes (demoEnv 3000) demoDb (bearer (demoToken 2000)) demoNote).2
  !! 0%nat
  = Some demoStoredNote.
Proof.
  destruct (creation_adds_one_note (demoEnv 3000) demoDb
              (bearer (demoToken 2000)) (demoToken 2000) demoAdmin demoAccount
              (adminRoleOf 0) demoNote) as (_ & _ & H).
  - split; by vm_compute.
  - by vm_compute.
  - destruct (H ltac:(by vm_compute))
      as (title & tagIds & db1 & note & Ht & Hres & -> & _ & _ & -> & _).
    vm_compute in Ht. injection Ht as <-.
    vm_compute in Hres. injection Hres as <- _. by vm_compute.
Defined.

(** ** The total of a listing *)

Lemma filter_length_Permutation {A} (f : A → bool) (l l' : list A) :
  l ≡ₚ l' → length (List.filter f l) = length (List.filter f l').
Proof.
  induction 1 as [|x l l' _ IH|x y l|l l' l'' _ IH1 _ IH2]; simpl.
  - done.
  - destruct (f x); simpl; by rewrite IH.
  - by destruct (f x), (f y).
  - by rewrite IH1.
Qed.

(** Counting with a query is counting the documents of the filtered
    collection. *)
Lemma countDocuments_size {A} (q : nat → A → bool) (P : nat * A → Prop)
    `{!∀ x, Decision (P x)} (m : gmap nat A) :
  (∀ i x, q i x = true ↔ P (i, x)) →
  Store.countDocuments q m = Z.of_nat (size (filter P m)).
Proof.
  intros Hq. unfold Store.countDocuments, Store.find. f_equal.
  induction m as [|i x m Hi _ IH] using map_first_key_ind.
  - by rewrite map_to_list_empty, map_filter_empty, map_size_empty.
  - rewrite (filter_length_Permutation _ _ _ (map_to_list_insert m i x Hi)). simpl.
    rewrite map_filter_insert.
    destruct (q i x) eqn:E.
    + apply Hq in E. rewrite decide_True by done.
      rewrite map_size_insert_None; [simpl; by rewrite IH|].
      apply map_lookup_filter_None. by left.
    + assert (¬ P (i, x)) as Hn by (rewrite <- Hq; congruence).
      rewrite decide_False by done. by rewrite delete_id.
Qed.

(** X30: the total of a listing is the note count. In a store reached
    from the empty one by any sequence of requests, whenever [GET /notes]
    without search string and tag filter returns a list, the total it
    reports is the [noteCount] of the caller's account: the counter kept
    on the account and the notes a listing finds never drift apart. *)
Theorem listing_total_is_note_count (trace : list (Env * Request)) (env : Env)
    (h : Headers) (q : ListQuery) (views : list NoteView) (page limit total : Z) :
  q_search q = None →
  q_tags q = NoTags →
  data (GET_notes env (run empty_db trace) h q).1 = NotesData views page limit total →
  ∃ token u a,
    Authentic env (run empty_db trace) h token u a
    ∧ total = Account.noteCount a.
Proof.
  intros Hs Ht. set (db := run empty_db trace).
  pose proof (run_accurate empty_db trace accurate_empty) as [Hacc _].
  fold db in Hacc. unfold GET_notes.
  destruct (ctx ← notesGuard env db h; requireMember ctx) as [r|ctx] eqn:E; simpl.
  { apply memberRoute_Reply in E as [msg ->]. done. }
  apply memberRoute_Next in E as (token & u & a & r & HA & Hr & ->).
  intros Hd. exists token, u, a. split; [done|].
  revert Hd. unfold getNotes, tenantFilter_or_empty. simpl. rewrite Ht, Hs.
  destruct (mapM _ _); [|done]. simpl. intros [= _ _ _ <-].
  rewrite (Hacc _ _ (authentic_account _ _ _ _ _ _ HA)). unfold liveNotes.
  apply countDocuments_size. intros i n. simpl.
  rewrite !andb_true_r, andb_true_iff, matchesFilter_tenantOnly, negb_true_iff.
  done.
Qed.

Lemma listing_total_is_note_count_witness :
  ∃ token u a,
    Authentic (demoEnv 4000)
      (run empty_db [(demoEnv 1000, demoSignup);
                     (demoEnv 3000, PostNotes (bearer (demoToken 2000)) demoNote)])
      (bearer (demoToken 2000)) token u a
    ∧ 1 = Account.noteCount a.
Proof.
  apply (listing_total_is_note_count
           [(demoEnv 1000, demoSignup);
            (demoEnv 3000, PostNotes (bearer (demoToken 2000)) demoNote)]
           (demoEnv 4000) (bearer (demoToken 2000)) demoQuery
           [{| v_id := 0; v_title := "Groceries"; v_description := "";
               v_tags := []; v_author := Some (0%nat, "Ann", "ann@acme.io") |}]
           1 10 1); by vm_compute.
Defined.

(** ** The tags of a note are tags of its account *)

Lemma scoped_grow db db' :
  notes db' = notes db → grows eq (tags db) (tags db') →
  noteTagsScoped db → noteTagsScoped db'.
Proof.
  intros Hn Ht H i n Hi t Hin. rewrite Hn in Hi.
  destruct (H _ _ Hi _ Hin) as (tg & Hl & Hacc).
  destruct (Ht _ _ Hl) as (tg' & Hl' & <-). eauto.
Qed.

Lemma scoped_same db db' :
  notes db' = notes db → tags db' = tags db →
  noteTagsScoped db → noteTagsScoped db'.
Proof. intros Hn Ht. apply scoped_grow; [done|]. rewrite Ht. by apply grows_refl. Qed.

(** The ids [resolveTags] returns name stored tags of the account. *)
Lemma resolveTags_scoped aid names tagIds db ids db1 :
  resolveTags (Some aid) names tagIds db = (Some ids, db1) →
  (∀ t, t ∈ tagIds → ∃ tg, tags db !! t = Some tg ∧ Tag.account tg = aid) →
  ∀ t, t ∈ ids → ∃ tg, tags db1 !! t = Some tg ∧ Tag.account tg = aid.
Proof.
  revert tagIds db. induction names as [|[tagName|] names IH]; intros tagIds db;
    simpl.
  - by intros [= <- <-].
  - destruct (JS.truthy (JS.trim tagName)); [|apply IH].
    destruct (findOrCreate aid (JS.trim tagName) db) as [[i db']|] eqn:E; [|done].
    intros H Hold. apply (IH _ _ H). intros t Ht.
    pose proof (findOrCreate_evolves _ _ _ _ _ E) as (_&_&_&_&Hg&_).
    apply elem_of_app in Ht as [Ht|Ht%list_elem_of_singleton].
    + destruct (Hold _ Ht) as (tg & Hl & Hacc).
      destruct (Hg _ _ Hl) as (tg' & Hl' & <-). eauto.
    + subst t. apply findOrCreate_spec in E as (tg & Hl & Hacc & _). eauto.
  - apply IH.
Qed.


Lemma createNote_scoped env db ctx body :
  scopedCtx db ctx → noteTagsScoped db →
  noteTagsScoped (createNote env db ctx body).2.
Proof.
  intros Hctx Hdb.
  pose proof (createNote_evolves env db ctx body (scopedCtx_ctxOf _ _ Hctx))
    as (_&_&_&_&Hg&_).
  destruct Hctx as (uid & u & a & r & f & -> & Hu & Ha & Hr & Hf).
  revert Hg. unfold createNote. simpl.
  destruct (cn_title body) as [[|c title]|]; try (intros; by eapply scoped_grow).
  change (match cn_tags body with
          | TagsArray l => l
          | TagsString s => chars s
          | _ => []
          end) with (tagInputs (cn_tags body)).
  pose proof (resolveTags_frame (Some (User.account u))
                (tagInputs (cn_tags body)) [] db) as Hf'.
  pose proof (resolveTags_scoped (User.account u) (tagInputs (cn_tags body)) [] db)
    as Hsc.
  destruct (resolveTags (Some (User.account u)) (tagInputs (cn_tags body)) [] db)
    as [[tagIds|] db1] eqn:Hres; simpl in Hf' |- *;
    destruct Hf' as (_&_&_&Hno&_).
  2: { intros Hg. by eapply scoped_grow. }
  destruct (Note.valid _); simpl.
  2: { intros Hg. by eapply scoped_grow. }
  unfold Store.create, incrementNoteCount, Store.save. simpl. intros Hg.
  intros i n Hi t Hin. simpl in Hi. rewrite Hno in Hi.
  destruct (decide (i = Store.newId (notes db))) as [->|Hne].
  - rewrite lookup_insert_eq in Hi. injection Hi as <-. simpl in *.
    apply (Hsc _ _ eq_refl); [|done]. by intros t' Ht'%elem_of_nil.
  - rewrite lookup_insert_ne in Hi by done.
    destruct (Hdb _ _ Hi _ Hin) as (tg & Hl & Hacc).
    destruct (Hg _ _ Hl) as (tg' & Hl' & <-). eauto.
Qed.

Lemma updateNote_scoped db ctx id body :
  scopedCtx db ctx → noteTagsScoped db →
  noteTagsScoped (updateNote db ctx id body).2.
Proof.
  intros Hctx Hdb.
  pose proof (updateNote_evolves db ctx id body (scopedCtx_ctxOf _ _ Hctx))
    as (_&_&_&_&Hg&_).
  destruct Hctx as (uid & u & a & r & f & -> & Hu & Ha & Hr & Hf).
  assert (Hkeep : ∀ db' : Db, notes db' = notes db →
            grows eq (tags db) (tags db') → noteTagsScoped db').
  { intros db' Hn Hg'. by eapply scoped_grow. }
  revert Hg. unfold updateNote, tenantFilter_or_empty. simpl.
  destruct (findNote id f db) as [[nid note]|] eqn:Hfind; [|by apply Hkeep].
  apply findNote_Some in Hfind as (-> & Hl & Hm & Hdel).
  pose proof (matchesFilter_account _ _ _ Hf Hm) as Hacc.
  destruct (notOwnerNorAdmin _ note) as [[]|]; try by apply Hkeep.
  assert (Hsave : ∀ (db1 : Db) (n' : Note.doc),
            notes db1 = notes db → Note.account n' = User.account u →
            (∀ t, t ∈ Note.tags n' →
               ∃ tg, tags db1 !! t = Some tg ∧ Tag.account tg = User.account u) →
            grows eq (tags db) (tags db1) →
            noteTagsScoped (set_notes (Store.save id n' (notes db1)) db1)).
  { intros db1 n' Hn Hacc' Htags Hg i n Hi t Hin. simpl in *.
    unfold Store.save in Hi. rewrite Hn in Hi.
    destruct (decide (i = id)) as [->|Hne].
    - rewrite lookup_insert_eq in Hi. injection Hi as <-. rewrite Hacc'. auto.
    - rewrite lookup_insert_ne in Hi by done.
      destruct (Hdb _ _ Hi _ Hin) as (tg & Hl' & Hacc'').
      destruct (Hg _ _ Hl') as (tg' & Hl'' & <-). eauto. }
  assert (Hold : ∀ t, t ∈ Note.tags note →
            ∃ tg, tags db !! t = Some tg ∧ Tag.account tg = User.account u).
  { intros t Ht. destruct (Hdb _ _ Hl _ Ht) as (tg & ? & ?).
    exists tg. split; [done|]. congruence. }
  destruct (un_title body) as [title|];
    [destruct (negb (JS.truthy (JS.trim title))); [by apply Hkeep|]|].
  all: destruct (un_description body) as [d|].
  all: destruct (un_tags body) as [|l|s|]; simpl.
  all: try (destruct (Note.valid _); [|by apply Hkeep]; intros _;
            apply Hsave; simpl;
            [done|done| |apply grows_refl; done];
            first [exact Hold | by intros t Ht%elem_of_nil]).
  all: unfold Store.findById; rewrite Ha; simpl.
  all: pose proof (resolveTags_frame (Some (User.account u)) l [] db) as Hf';
    pose proof (resolveTags_scoped (User.account u) l [] db) as Hsc;
    pose proof (resolveTags_evolves (Some (User.account u)) l [] db)
      as (_&_&_&_&Hg'&_);
    destruct (resolveTags (Some (User.account u)) l [] db) as [[tagIds|] db1];
    simpl in *; destruct Hf' as (_&_&_&Hno&_); [|by apply Hkeep].
  all: destruct (Note.valid _); [|by apply Hkeep]; intros _.
  all: apply Hsave; simpl; [done|done| |done].
  all: apply (Hsc _ _ eq_refl); by intros t' Ht'%elem_of_nil.
Qed.

Lemma deleteNote_scoped db ctx id :
  noteTagsScoped db → noteTagsScoped (deleteNote db ctx id).2.
Proof.
  intros Hdb. unfold deleteNote.
  destruct (findNote id (tenantFilter_or_empty ctx) db) as [[nid note]|] eqn:Hfind;
    [|done].
  apply findNote_Some in Hfind as (-> & Hl & _ & _).
  destruct (req_user ctx) as [user|]; [|done].
  destruct (notOwnerNorAdmin user note) as [[]|]; try done.
  assert (noteTagsScoped
            (set_notes (Store.save id (Note.set_isDeleted true note) (notes db)) db))
    as Hdb1.
  { intros i n Hi t Hin. simpl in *. unfold Store.save in Hi.
    destruct (decide (i = id)) as [->|Hne].
    - rewrite lookup_insert_eq in Hi. injection Hi as <-. simpl in *.
      by apply (Hdb _ _ Hl).
    - rewrite lookup_insert_ne in Hi by done. by apply (Hdb _ _ Hi). }
  destruct (req_account ctx) as [account|]; [|done].
  unfold decrementNoteCount. destruct (0 <? _); simpl; [|done].
  eapply scoped_same; [| |exact Hdb1]; done.
Qed.

Lemma handle_scoped env db r :
  noteTagsScoped db → noteTagsScoped (handle env db r).2.
Proof.
  intros Hdb. destruct r; simpl;
    unfold POST_auth_register, POST_auth_login, GET_auth_profile, POST_auth_invite,
      POST_auth_change_password, POST_auth_logout, POST_notes, GET_notes,
      GET_notes_my_notes, GET_notes_id, PUT_notes_id, DELETE_notes_id,
      GET_subscription, POST_subscription_upgrade,
      POST_subscription_verify_payment, GET_subscription_payments,
      POST_subscription_cancel;
    try (apply serve_preserves; [done|]; intros ctx Hchain; simpl; try done).
  - destruct (register_notes_tags env db body). by eapply scoped_same.
  - destruct (login_notes_tags env db ip body). by eapply scoped_same.
  - destruct (inviteUser_notes_tags env db ctx body). by eapply scoped_same.
  - destruct (changePassword_notes_tags env db ctx body). by eapply scoped_same.
  - destruct (logout_notes_tags env db ctx). by eapply scoped_same.
  - apply createNote_scoped; [|done]. by eapply createRoute_scoped.
  - apply updateNote_scoped; [|done]. by eapply noteRoute_scoped.
  - by apply deleteNote_scoped.
  - destruct (upgradeSubscription_notes_tags env db ctx paymentMethod).
    by eapply scoped_same.
  - destruct (verifyPaymentAndUpgrade_notes_tags env db ctx body).
    by eapply scoped_same.
  - destruct (cancelSubscription_notes_tags env db ctx). by eapply scoped_same.
Qed.

Lemma run_scoped db trace : noteTagsScoped db → noteTagsScoped (run db trace).
Proof.
  revert db. induction trace as [|[env r] trace IH]; intros db Hdb; simpl; [done|].
  by apply IH, handle_scoped.
Qed.

(** X12: the tags of the service. In a store reached from the empty one
    by any sequence of requests, every tag name is in normal form (lower
    case, trimmed), non-empty and at most 50 characters long, no two tags
    of an account have the same name, and every tag a note refers to is a
    stored tag of the note's own account: no request attaches a tag of
    another tenant to a note. *)
Theorem tags_stay_normalized_and_unique (trace : list (Env * Request)) :
  tagsWellFormed (run empty_db trace)
  ∧ noteTagsScoped (run empty_db trace).
Proof.
  split.
  - apply run_tagsWellFormed. split; intros *; simpl; by rewrite lookup_empty.
  - apply run_scoped. intros i n Hi. simpl in Hi. by rewrite lookup_empty in Hi.
Qed.
